(** * Sowntra realtime collaboration layer: a shallow embedding

    This development models [src/websocket/collaboration.ts], the Socket.IO
    server that keeps one Yjs document and one set of client connections per
    board.  The two module-level maps ([boardConnections], [boardDocs]), the
    per-socket closure variable [clientConnection], the data stored on the
    socket object, the Socket.IO rooms, and the Prisma tables the handlers
    read and write are explicit components of a server state; each event
    handler is a function from a state to a new state and the list of
    effects (emitted messages, console output, escaping exceptions) it
    produced, in program order. *)

From stdpp Require Import gmap strings list fin_maps.
From Stdlib Require Import ZArith.

Local Open Scope Z_scope.
Local Open Scope string_scope.
Local Open Scope list_scope.

(** ** JavaScript values reaching the handlers *)

(** A JavaScript number: an IEEE-754 double is NaN, an infinity, or a finite
    value [m * 2^e]. *)
Inductive JsNumber :=
| NaN
| PosInfinity
| NegInfinity
| Finite (m e : Z).

Inductive JsValue :=
| JsUndefined
| JsNull
| JsBool (b : bool)
| JsNum (n : JsNumber)
| JsStr (s : string)
| JsObj (repr : string).

(** The ECMAScript abstract operations [StringToNumber] and the
    [ToPrimitive]-then-[ToNumber] conversion of objects are taken as given by
    the runtime. *)
Class JsRuntime := {
  StringToNumber : string → JsNumber;
  ObjectToNumber : string → JsNumber
}.

Definition ToNumber `{JsRuntime} (v : JsValue) : JsNumber :=
  match v with
  | JsUndefined => NaN
  | JsNull => Finite 0 0
  | JsBool true => Finite 1 0
  | JsBool false => Finite 0 0
  | JsNum n => n
  | JsStr s => StringToNumber s
  | JsObj o => ObjectToNumber o
  end.

(** The global [isNaN]: coerce to a number, then test for NaN. *)
Definition isNaN `{JsRuntime} (v : JsValue) : bool :=
  match ToNumber v with
  | NaN => true
  | _ => false
  end.

Definition is_undefined (v : JsValue) : bool :=
  match v with
  | JsUndefined => true
  | _ => false
  end.

(** What the specification of cursor validation calls a finite numeric
    coordinate: a value of type number that is neither NaN nor infinite. *)
Definition finite_number (v : JsValue) : bool :=
  match v with
  | JsNum (Finite _ _) => true
  | _ => false
  end.

(** Optional string fields ([string | undefined]).  In a condition a string
    counts as true when it is present and not empty. *)
Definition truthy (s : option string) : bool :=
  match s with
  | Some s => negb (String.eqb s "")
  | None => false
  end.

(** [a || b] on optional strings. *)
Definition js_or (a b : option string) : option string :=
  if truthy a then a else b.

(** [a === b] on optional strings. *)
Definition strict_eq (a b : option string) : bool :=
  bool_decide (a = b).

(** ** Byte arrays *)

(** Payloads arrive as [number[]] and are turned into a [Uint8Array], which
    keeps each element modulo 256. *)
Definition Uint8Array (l : list Z) : list Z :=
  (λ z, z mod 256) <$> l.

(** ** The document engine (Yjs) *)

(** Outcome of [Y.applyUpdate]: it either throws, leaving the document in
    some state, or returns with the merged document; in the second case the
    engine fires the document's ['update'] event with an incremental update
    when the transaction changed something. *)
Inductive ApplyResult (D : Type) :=
| Applied (d : D) (event : option (list Z))
| Threw (d : D).
Arguments Applied {D} d event.
Arguments Threw {D} d.

Class DocEngine := {
  Doc : Type;
  newDoc : Doc;
  applyUpdate : Doc → list Z → ApplyResult Doc;
  encodeStateAsUpdate : Doc → list Z
}.

(** ** The database tables read and written by the handlers *)

Record BoardMember := {
  member_userId : string;
  member_role : string
}.

Record Board := {
  ownerId : string;
  isPublic : bool;
  members : list BoardMember;
  yDocState : option (list Z);
  lastModified : Z
}.

(** [users] maps a Firebase UID to the database id of the user. *)
Record Database := {
  users : gmap string string;
  boards : gmap string Board
}.

(** ** Messages emitted to clients *)

Record CursorData := {
  cursor_x : JsValue;
  cursor_y : JsValue
}.

Record RosterEntry := {
  re_userId : option string;
  re_userName : option string;
  re_userEmail : option string;
  re_color : option string;
  re_cursor : option CursorData;
  re_socketId : string;
  re_role : string
}.

Record Presence := {
  p_userId : option string;
  p_userName : option string;
  p_userEmail : option string;
  p_socketId : string
}.

Inductive Message :=
| MsgError (message : string)
| MsgSyncBoard (state : list Z)
| MsgActiveUsers (users : list RosterEntry)
| MsgUserJoined (who : Presence) (color : option string) (role : string)
| MsgUserLeft (who : Presence)
| MsgUserRole (role : string)
| MsgBoardUpdate (update : list Z)
| MsgCursorUpdate (who : Presence) (color : option string) (cursor : CursorData)
| MsgAwarenessUpdate (userId userName color : option string)
                     (state : JsValue) (socketId : string).

Inductive LogEntry :=
| LogAccessError
| LogAnonymousAccessError
| LogLoadError
| LogSaveError
| LogJoined (userName : option string) (socketId boardId : string)
| LogLeft (userName : option string) (socketId boardId : string).

(** What a handler does to the outside world, in program order. *)
Inductive Effect :=
| Send (to : string) (m : Message)
| Console (l : LogEntry)
| Uncaught.

(** ** Requests and what the environment decides *)

(** Payload of [join-board]. *)
Record JoinData := {
  jd_boardId : option string;
  jd_userId : option string;
  jd_userName : option string;
  jd_userEmail : option string
}.

(** What is outside the handler's control while it runs: whether each
    Prisma query rejects, and the index [Math.floor(Math.random() * 10)]
    drawn by [getRandomColor]. *)
Record JoinEnv := {
  userLookupFails : bool;
  boardLookupFails : bool;
  loadFails : bool;
  colorIndex : nat
}.

(** Result of the access check at the top of [join-board]: the locals
    [hasAccess], [userRole] and [dbUserId]. *)
Record Access := {
  hasAccess : bool;
  userRole : string;
  dbUserId : option string
}.

(** ** Objects held by the server *)

(** A [ClientConnection] object.  [conn_dbUserId] is specification-only: it
    remembers the handler's local [dbUserId] at the time the object was built
    (the source folds it into [userId] as [dbUserId || userId] and otherwise
    keeps it on the socket only); no handler reads it. *)
Record ClientConnection := {
  conn_socket : string;
  conn_boardId : string;
  conn_userId : option string;
  conn_userName : option string;
  conn_userEmail : option string;
  conn_color : option string;
  conn_cursor : option CursorData;
  conn_dbUserId : option string
}.

(** Per-socket state: the closure variable [clientConnection] (a reference
    to a connection object), and the properties the join handler stores on
    the socket object. *)
Record SocketState := {
  connected : bool;
  clientConnection : option nat;
  sock_userRole : option string;
  sock_boardId : option string;
  sock_dbUserId : option string
}.

Record PendingWrite := {
  pw_boardId : string;
  pw_yDocState : list Z;
  pw_lastModified : Z
}.

(** A [join-board] handler suspended at the [await] of the snapshot load
    (line 130), with the locals it holds. *)
Record SuspendedJoin := {
  sj_socket : string;
  sj_boardId : string;
  sj_data : JoinData;
  sj_access : Access;
  sj_doc : nat
}.

Definition colors : list string :=
  [ "#FF6B6B"; "#4ECDC4"; "#45B7D1"; "#FFA07A"; "#98D8C8";
    "#F7DC6F"; "#BB8FCE"; "#85C1E2"; "#F8B739"; "#52B788" ].

Definition getRandomColor (index : nat) : option string := colors !! index.

(** ** Access check (lines 53-112) *)

Definition denied (d : option string) : Access :=
  {| hasAccess := false; userRole := "viewer"; dbUserId := d |}.

Definition granted (role : string) (d : option string) : Access :=
  {| hasAccess := true; userRole := role; dbUserId := d |}.

(** The [members] relation as the query includes it: filtered on the user
    when [dbUserId] is set, unfiltered otherwise. *)
Definition included_members (b : Board) (d : option string) : list BoardMember :=
  if truthy d
  then List.filter (λ m, strict_eq (Some (member_userId m)) d) (members b)
  else members b.

Definition verifyAccess (d : Database) (env : JoinEnv)
    (boardId : string) (userId : option string) : Access * list Effect :=
  if truthy userId then
    if userLookupFails env then (denied None, [Console LogAccessError]) else
    let dbUser := users d !! default "" userId in
    if boardLookupFails env then (denied dbUser, [Console LogAccessError]) else
    match boards d !! boardId with
    | Some board =>
        if truthy dbUser && strict_eq (Some (ownerId board)) dbUser
        then (granted "owner" dbUser, [])
        else if truthy dbUser then
          match List.find (λ m, strict_eq (Some (member_userId m)) dbUser)
                          (included_members board dbUser) with
          | Some member => (granted (member_role member) dbUser, [])
          | None =>
              if isPublic board then (granted "viewer" dbUser, [])
              else (denied dbUser, [])
          end
        else if isPublic board then (granted "viewer" dbUser, [])
        else (denied dbUser, [])
    | None => (denied dbUser, [])
    end
  else
    if boardLookupFails env then (denied None, [Console LogAnonymousAccessError]) else
    match boards d !! boardId with
    | Some board => if isPublic board then (granted "viewer" None, []) else (denied None, [])
    | None => (denied None, [])
    end.

Section Server.
Context `{Engine : DocEngine} `{Runtime : JsRuntime}.

(** A [Y.Doc] object: its content and, once registered, the board id
    captured by its ['update'] listener. *)
Record DocObject := {
  doc_state : Doc;
  doc_listener : option string
}.

(** The whole server.  [connHeap] and [docHeap] hold the objects, the two
    module-level maps hold references to them; [boardConnections] keeps each
    [Set] as the list of its elements in insertion order.  [ioRooms] is the
    Socket.IO adapter's room membership for the rooms named after boards
    (the room each socket has under its own id is left out: no board id is a
    socket id). *)
Record ServerState := {
  db : Database;
  boardConnections : gmap string (list nat);
  boardDocs : gmap string nat;
  connHeap : gmap nat ClientConnection;
  docHeap : gmap nat DocObject;
  sockets : gmap string SocketState;
  ioRooms : gmap string (list string);
  pendingWrites : list PendingWrite;
  suspended : list SuspendedJoin;
  nextRef : nat
}.

Definition initial (d : Database) : ServerState :=
  {| db := d; boardConnections := ∅; boardDocs := ∅; connHeap := ∅;
     docHeap := ∅; sockets := ∅; ioRooms := ∅; pendingWrites := [];
     suspended := []; nextRef := 0%nat |}.

Definition set_db (d : Database) (st : ServerState) : ServerState :=
  {| db := d; boardConnections := boardConnections st;
     boardDocs := boardDocs st; connHeap := connHeap st;
     docHeap := docHeap st; sockets := sockets st; ioRooms := ioRooms st;
     pendingWrites := pendingWrites st; suspended := suspended st;
     nextRef := nextRef st |}.

Definition set_boardConnections (m : gmap string (list nat)) (st : ServerState) : ServerState :=
  {| db := db st; boardConnections := m;
     boardDocs := boardDocs st; connHeap := connHeap st;
     docHeap := docHeap st; sockets := sockets st; ioRooms := ioRooms st;
     pendingWrites := pendingWrites st; suspended := suspended st;
     nextRef := nextRef st |}.

Definition set_boardDocs (m : gmap string nat) (st : ServerState) : ServerState :=
  {| db := db st; boardConnections := boardConnections st;
     boardDocs := m; connHeap := connHeap st;
     docHeap := docHeap st; sockets := sockets st; ioRooms := ioRooms st;
     pendingWrites := pendingWrites st; suspended := suspended st;
     nextRef := nextRef st |}.

Definition set_connHeap (m : gmap nat ClientConnection) (st : ServerState) : ServerState :=
  {| db := db st; boardConnections := boardConnections st;
     boardDocs := boardDocs st; connHeap := m;
     docHeap := docHeap st; sockets := sockets st; ioRooms := ioRooms st;
     pendingWrites := pendingWrites st; suspended := suspended st;
     nextRef := nextRef st |}.

Definition set_docHeap (m : gmap nat DocObject) (st : ServerState) : ServerState :=
  {| db := db st; boardConnections := boardConnections st;
     boardDocs := boardDocs st; connHeap := connHeap st;
     docHeap := m; sockets := sockets st; ioRooms := ioRooms st;
     pendingWrites := pendingWrites st; suspended := suspended st;
     nextRef := nextRef st |}.

Definition set_sockets (m : gmap string SocketState) (st : ServerState) : ServerState :=
  {| db := db st; boardConnections := boardConnections st;
     boardDocs := boardDocs st; connHeap := connHeap st;
     docHeap := docHeap st; sockets := m; ioRooms := ioRooms st;
     pendingWrites := pendingWrites st; suspended := suspended st;
     nextRef := nextRef st |}.

Definition set_ioRooms (m : gmap string (list string)) (st : ServerState) : ServerState :=
  {| db := db st; boardConnections := boardConnections st;
     boardDocs := boardDocs st; connHeap := connHeap st;
     docHeap := docHeap st; sockets := sockets st; ioRooms := m;
     pendingWrites := pendingWrites st; suspended := suspended st;
     nextRef := nextRef st |}.

Definition set_pendingWrites (l : list PendingWrite) (st : ServerState) : ServerState :=
  {| db := db st; boardConnections := boardConnections st;
     boardDocs := boardDocs st; connHeap := connHeap st;
     docHeap := docHeap st; sockets := sockets st; ioRooms := ioRooms st;
     pendingWrites := l; suspended := suspended st;
     nextRef := nextRef st |}.

Definition set_suspended (l : list SuspendedJoin) (st : ServerState) : ServerState :=
  {| db := db st; boardConnections := boardConnections st;
     boardDocs := boardDocs st; connHeap := connHeap st;
     docHeap := docHeap st; sockets := sockets st; ioRooms := ioRooms st;
     pendingWrites := pendingWrites st; suspended := l;
     nextRef := nextRef st |}.

Definition set_nextRef (n : nat) (st : ServerState) : ServerState :=
  {| db := db st; boardConnections := boardConnections st;
     boardDocs := boardDocs st; connHeap := connHeap st;
     docHeap := docHeap st; sockets := sockets st; ioRooms := ioRooms st;
     pendingWrites := pendingWrites st; suspended := suspended st;
     nextRef := n |}.

(** ** Primitive operations on the state *)

Definition room (st : ServerState) (boardId : string) : list nat :=
  default [] (boardConnections st !! boardId).

Definition ioRoom (st : ServerState) (boardId : string) : list string :=
  default [] (ioRooms st !! boardId).

Definition socketState (st : ServerState) (s : string) : SocketState :=
  default {| connected := false; clientConnection := None;
             sock_userRole := None; sock_boardId := None;
             sock_dbUserId := None |} (sockets st !! s).

Definition is_connected (st : ServerState) (s : string) : bool :=
  connected (socketState st s).

(** [socket.emit]. *)
Definition emit (s : string) (m : Message) : list Effect := [Send s m].

(** [io.to(boardId).emit]: every socket in the room. *)
Definition emit_room (st : ServerState) (boardId : string) (m : Message) : list Effect :=
  (λ t, Send t m) <$> ioRoom st boardId.

(** [socket.to(boardId).emit]: every socket in the room but the sender. *)
Definition emit_others (st : ServerState) (s boardId : string) (m : Message) : list Effect :=
  (λ t, Send t m) <$> List.filter (λ t, negb (String.eqb t s)) (ioRoom st boardId).

(** [socket.join(boardId)]. *)
Definition socket_join (s boardId : string) (st : ServerState) : ServerState :=
  if bool_decide (s ∈ ioRoom st boardId) then st
  else set_ioRooms (<[boardId := ioRoom st boardId ++ [s]]> (ioRooms st)) st.

(** Socket.IO removes a closing socket from every room before it fires
    ['disconnect']. *)
Definition leave_all (s : string) (st : ServerState) : ServerState :=
  set_ioRooms (List.filter (λ t, negb (String.eqb t s)) <$> ioRooms st) st.

Definition update_socket (s : string) (f : SocketState → SocketState)
    (st : ServerState) : ServerState :=
  set_sockets (<[s := f (socketState st s)]> (sockets st)) st.

Definition set_clientConnection (c : option nat) (ss : SocketState) : SocketState :=
  {| connected := connected ss; clientConnection := c;
     sock_userRole := sock_userRole ss; sock_boardId := sock_boardId ss;
     sock_dbUserId := sock_dbUserId ss |}.

Definition set_socket_data (role boardId : string) (d : option string)
    (ss : SocketState) : SocketState :=
  {| connected := connected ss; clientConnection := clientConnection ss;
     sock_userRole := Some role; sock_boardId := Some boardId;
     sock_dbUserId := d |}.

Definition set_connected (b : bool) (ss : SocketState) : SocketState :=
  {| connected := b; clientConnection := clientConnection ss;
     sock_userRole := sock_userRole ss; sock_boardId := sock_boardId ss;
     sock_dbUserId := sock_dbUserId ss |}.

Definition set_cursor (c : CursorData) (conn : ClientConnection) : ClientConnection :=
  {| conn_socket := conn_socket conn; conn_boardId := conn_boardId conn;
     conn_userId := conn_userId conn; conn_userName := conn_userName conn;
     conn_userEmail := conn_userEmail conn; conn_color := conn_color conn;
     conn_cursor := Some c; conn_dbUserId := conn_dbUserId conn |}.

Definition set_doc_state (d : Doc) (o : DocObject) : DocObject :=
  {| doc_state := d; doc_listener := doc_listener o |}.

Definition set_doc_listener (b : string) (o : DocObject) : DocObject :=
  {| doc_state := doc_state o; doc_listener := Some b |}.

Definition presence (conn : ClientConnection) : Presence :=
  {| p_userId := conn_userId conn; p_userName := conn_userName conn;
     p_userEmail := conn_userEmail conn; p_socketId := conn_socket conn |}.

(** One element of the [active-users] list.  The role is read off the
    connection's socket at the time the list is built. *)
Definition rosterEntry (st : ServerState) (conn : ClientConnection) : RosterEntry :=
  {| re_userId := conn_userId conn; re_userName := conn_userName conn;
     re_userEmail := conn_userEmail conn; re_color := conn_color conn;
     re_cursor := conn_cursor conn; re_socketId := conn_socket conn;
     re_role := default "viewer"
                  (js_or (sock_userRole (socketState st (conn_socket conn)))
                         (Some "viewer")) |}.

(** [Array.from(set).map(...)] over a list of references. *)
Definition roster (st : ServerState) (refs : list nat) : list RosterEntry :=
  omap (λ r, rosterEntry st <$> connHeap st !! r) refs.

(** ** The document store and the persistence listener *)

(** [Y.applyUpdate(yDoc, update)] on the document object [r].  When the
    document has its ['update'] listener and the engine fires the event, the
    listener issues [prisma.board.update] with the event's bytes and the
    current time; the write completes later.  The second component tells
    whether the call threw. *)
Definition apply_update (r : nat) (update : list Z) (now : Z)
    (st : ServerState) : ServerState * bool :=
  match docHeap st !! r with
  | None => (st, false)
  | Some o =>
      match applyUpdate (doc_state o) update with
      | Threw d' =>
          (set_docHeap (<[r := set_doc_state d' o]> (docHeap st)) st, true)
      | Applied d' event =>
          let st1 := set_docHeap (<[r := set_doc_state d' o]> (docHeap st)) st in
          match event, doc_listener o with
          | Some bytes, Some boardId =>
              (set_pendingWrites
                 (pendingWrites st1 ++
                    [{| pw_boardId := boardId; pw_yDocState := bytes;
                        pw_lastModified := now |}]) st1, false)
          | _, _ => (st1, false)
          end
      end
  end.

Definition write_board (w : PendingWrite) (b : Board) : Board :=
  {| ownerId := ownerId b; isPublic := isPublic b; members := members b;
     yDocState := Some (pw_yDocState w);
     lastModified := pw_lastModified w |}.

(** Completion of the [k]-th outstanding [prisma.board.update]: it rejects
    when the database fails or the row is gone, which the listener logs. *)
Definition write_done (k : nat) (fails : bool) (st : ServerState)
    : ServerState * list Effect :=
  match pendingWrites st !! k with
  | None => (st, [])
  | Some w =>
      let st1 := set_pendingWrites (delete k (pendingWrites st)) st in
      if fails then (st1, [Console LogSaveError]) else
      match boards (db st) !! pw_boardId w with
      | None => (st1, [Console LogSaveError])
      | Some b =>
          (set_db {| users := users (db st);
                     boards := <[pw_boardId w := write_board w b]> (boards (db st)) |}
                  st1, [])
      end
  end.

(** [new Y.Doc()]: a fresh document object without listener. *)
Definition alloc_doc (st : ServerState) : ServerState * nat :=
  let r := nextRef st in
  (set_nextRef (S r)
     (set_docHeap (<[r := {| doc_state := newDoc; doc_listener := None |}]> (docHeap st)) st),
   r).

(** Lines 129-139: merge the persisted snapshot into the fresh document;
    any failure is logged and the document stays as it is. *)
Definition load_persisted (r : nat) (boardId : string) (fails : bool)
    (st : ServerState) : ServerState * list Effect :=
  if fails then (st, [Console LogLoadError]) else
  match boards (db st) !! boardId with
  | Some board =>
      match yDocState board, docHeap st !! r with
      | Some bytes, Some o =>
          match applyUpdate (doc_state o) (Uint8Array bytes) with
          | Applied d' _ =>
              (set_docHeap (<[r := set_doc_state d' o]> (docHeap st)) st, [])
          | Threw d' =>
              (set_docHeap (<[r := set_doc_state d' o]> (docHeap st)) st,
               [Console LogLoadError])
          end
      | _, _ => (st, [])
      end
  | None => (st, [])
  end.

(** Lines 141-156: publish the document and register its listener. *)
Definition install_doc (r : nat) (boardId : string) (st : ServerState) : ServerState :=
  let st1 := set_boardDocs (<[boardId := r]> (boardDocs st)) st in
  match docHeap st1 !! r with
  | Some o => set_docHeap (<[r := set_doc_listener boardId o]> (docHeap st1)) st1
  | None => st1
  end.

(** ** [join-board], lines 159-232: admission *)

(** The eviction test of line 183. *)
Definition same_user (d e : option string) (conn : ClientConnection) : bool :=
  (truthy d && strict_eq (conn_userId conn) d)
  || (truthy e && strict_eq (conn_userEmail conn) e).

Definition matches (st : ServerState) (d e : option string) (r : nat) : bool :=
  match connHeap st !! r with
  | Some conn => same_user d e conn
  | None => false
  end.

(** [Set.prototype.delete] and [Set.prototype.add] on the list of
    elements. *)
Definition set_delete (r : nat) (l : list nat) : list nat :=
  List.filter (λ x, negb (Nat.eqb x r)) l.

Definition set_add (r : nat) (l : list nat) : list nat :=
  if bool_decide (r ∈ l) then l else l ++ [r].

(** The [forEach] of lines 182-194 over the array copy [existing]: each
    matching connection is deleted from the board's set and a [user-left] is
    sent through its own socket to the rest of the Socket.IO room. *)
Fixpoint evict_loop (existing : list nat) (d e : option string)
    (boardId : string) (st : ServerState) : ServerState * list Effect :=
  match existing with
  | [] => (st, [])
  | r :: rest =>
      match connHeap st !! r with
      | Some conn =>
          if same_user d e conn then
            let st1 :=
              set_boardConnections
                (<[boardId := set_delete r (room st boardId)]> (boardConnections st)) st in
            let '(st2, out) := evict_loop rest d e boardId st1 in
            (st2, emit_others st (conn_socket conn) boardId
                    (MsgUserLeft (presence conn)) ++ out)
          else evict_loop rest d e boardId st
      | None => evict_loop rest d e boardId st
      end
  end.

Definition new_connection (s boardId : string) (data : JoinData) (acc : Access)
    (color : option string) : ClientConnection :=
  {| conn_socket := s; conn_boardId := boardId;
     conn_userId := js_or (dbUserId acc) (jd_userId data);
     conn_userName := js_or (jd_userName data) (Some "Anonymous");
     conn_userEmail := jd_userEmail data;
     conn_color := color; conn_cursor := None;
     conn_dbUserId := dbUserId acc |}.

(** Lines 175-196: make room for the new connection, then add it. *)
Definition enter_room (ref : nat) (boardId : string) (d e : option string)
    (st : ServerState) : ServerState * list Effect :=
  let '(st1, leaves) :=
    match boardConnections st !! boardId with
    | None => (set_boardConnections (<[boardId := []]> (boardConnections st)) st, [])
    | Some existing => evict_loop existing d e boardId st
    end in
  (set_boardConnections
     (<[boardId := set_add ref (room st1 boardId)]> (boardConnections st1)) st1,
   leaves).

(** Lines 159-232, which run without suspension at the end of every
    granted join, whether the document was found or had to be loaded. *)
Definition join_finish (s boardId : string) (data : JoinData) (acc : Access)
    (yDoc : nat) (index : nat) (st : ServerState) : ServerState * list Effect :=
  let color := getRandomColor index in
  let ref := nextRef st in
  let conn := new_connection s boardId data acc color in
  let st1 := set_nextRef (S ref) (set_connHeap (<[ref := conn]> (connHeap st)) st) in
  let st2 :=
    update_socket s
      (λ ss, set_socket_data (userRole acc) boardId (dbUserId acc)
               (set_clientConnection (Some ref) ss)) st1 in
  let '(st3, leaves) := enter_room ref boardId (dbUserId acc) (jd_userEmail data) st2 in
  let state :=
    match docHeap st3 !! yDoc with
    | Some o => encodeStateAsUpdate (doc_state o)
    | None => []
    end in
  (st3,
   leaves
   ++ emit s (MsgSyncBoard state)
   ++ emit s (MsgActiveUsers (roster st3 (room st3 boardId)))
   ++ emit_others st3 s boardId
        (MsgUserJoined
           {| p_userId := conn_userId conn; p_userName := conn_userName conn;
              p_userEmail := jd_userEmail data; p_socketId := s |}
           color (userRole acc))
   ++ emit s (MsgUserRole (userRole acc))
   ++ [Console (LogJoined (jd_userName data) s boardId)]).

(** ** [join-board], lines 44-157 *)

(** The handler up to its last suspension point: either it is over (request
    rejected, or the board's document was already in [boardDocs] and the
    rest ran synchronously), or it has built a new document and awaits the
    snapshot. *)
Inductive JoinProgress :=
| Finished (st : ServerState) (out : list Effect)
| AwaitingLoad (st : ServerState) (out : list Effect) (j : SuspendedJoin).

Definition join_begin (s : string) (data : JoinData) (env : JoinEnv)
    (st : ServerState) : JoinProgress :=
  if negb (truthy (jd_boardId data))
  then Finished st (emit s (MsgError "Board ID required")) else
  let boardId := default "" (jd_boardId data) in
  let '(acc, logs) := verifyAccess (db st) env boardId (jd_userId data) in
  if negb (hasAccess acc)
  then Finished st (logs ++ emit s (MsgError "Access denied to this board")) else
  let st1 := socket_join s boardId st in
  match boardDocs st1 !! boardId with
  | Some yDoc =>
      let '(st2, out) := join_finish s boardId data acc yDoc (colorIndex env) st1 in
      Finished st2 (logs ++ out)
  | None =>
      let '(st2, yDoc) := alloc_doc st1 in
      AwaitingLoad st2 logs
        {| sj_socket := s; sj_boardId := boardId; sj_data := data;
           sj_access := acc; sj_doc := yDoc |}
  end.

(** The handler from the point where the snapshot query has settled. *)
Definition join_continue (j : SuspendedJoin) (env : JoinEnv)
    (st : ServerState) : ServerState * list Effect :=
  let '(st1, logs) := load_persisted (sj_doc j) (sj_boardId j) (loadFails env) st in
  let st2 := install_doc (sj_doc j) (sj_boardId j) st1 in
  let '(st3, out) :=
    join_finish (sj_socket j) (sj_boardId j) (sj_data j) (sj_access j)
                (sj_doc j) (colorIndex env) st2 in
  (st3, logs ++ out).

(** The handler run from start to end with no other handler in between. *)
Definition join_board (s : string) (data : JoinData) (env : JoinEnv)
    (st : ServerState) : ServerState * list Effect :=
  match join_begin s data env st with
  | Finished st1 out => (st1, out)
  | AwaitingLoad st1 out j =>
      let '(st2, out2) := join_continue j env st1 in
      (st2, out ++ out2)
  end.

(** The same handler when other handlers may run while it is suspended. *)
Definition join_start (s : string) (data : JoinData) (env : JoinEnv)
    (st : ServerState) : ServerState * list Effect :=
  match join_begin s data env st with
  | Finished st1 out => (st1, out)
  | AwaitingLoad st1 out j => (set_suspended (suspended st1 ++ [j]) st1, out)
  end.

Definition join_resume (k : nat) (env : JoinEnv) (st : ServerState)
    : ServerState * list Effect :=
  match suspended st !! k with
  | None => (st, [])
  | Some j => join_continue j env (set_suspended (delete k (suspended st)) st)
  end.

(** ** The other handlers

    Each payload is the object the client sent; a field that is absent or
    not truthy is [None]. *)

(** [sync-state], lines 242-251. *)
Definition sync_state (s : string) (state : option (list Z)) (now : Z)
    (st : ServerState) : ServerState * list Effect :=
  match clientConnection (socketState st s) with
  | None => (st, [])
  | Some c =>
      match connHeap st !! c with
      | None => (st, [])
      | Some conn =>
          match boardDocs st !! conn_boardId conn with
          | None => (st, [])
          | Some yDoc =>
              match state with
              | None => (st, [])
              | Some bytes =>
                  let '(st1, threw) := apply_update yDoc (Uint8Array bytes) now st in
                  (st1, if threw then [Uncaught] else [])
              end
          end
      end
  end.

(** [board-update], lines 256-272. *)
Definition board_update (s : string) (update : option (list Z)) (now : Z)
    (st : ServerState) : ServerState * list Effect :=
  match clientConnection (socketState st s) with
  | None => (st, [])
  | Some c =>
      match connHeap st !! c with
      | None => (st, [])
      | Some conn =>
          match boardDocs st !! conn_boardId conn with
          | None => (st, [])
          | Some yDoc =>
              match update with
              | None => (st, [])
              | Some numbers =>
                  let bytes := Uint8Array numbers in
                  let '(st1, threw) := apply_update yDoc bytes now st in
                  if threw then (st1, [Uncaught])
                  else (st1, emit_room st1 (conn_boardId conn) (MsgBoardUpdate bytes))
              end
          end
      end
  end.

(** The guard of lines 281-282. *)
Definition cursor_rejected (data : CursorData) : bool :=
  is_undefined (cursor_x data) || is_undefined (cursor_y data)
  || isNaN (cursor_x data) || isNaN (cursor_y data).

(** [cursor-move], lines 277-297. *)
Definition cursor_move (s : string) (data : CursorData)
    (st : ServerState) : ServerState * list Effect :=
  match clientConnection (socketState st s) with
  | None => (st, [])
  | Some c =>
      match connHeap st !! c with
      | None => (st, [])
      | Some conn =>
          if cursor_rejected data then (st, []) else
          let st1 := set_connHeap (<[c := set_cursor data conn]> (connHeap st)) st in
          (st1,
           emit_others st1 s (conn_boardId conn)
             (MsgCursorUpdate
                {| p_userId := conn_userId conn; p_userName := conn_userName conn;
                   p_userEmail := conn_userEmail conn; p_socketId := s |}
                (conn_color conn) data))
      end
  end.

(** [awareness-update], lines 302-313. *)
Definition awareness_update (s : string) (state : JsValue)
    (st : ServerState) : ServerState * list Effect :=
  match clientConnection (socketState st s) with
  | None => (st, [])
  | Some c =>
      match connHeap st !! c with
      | None => (st, [])
      | Some conn =>
          (st,
           emit_others st s (conn_boardId conn)
             (MsgAwarenessUpdate (conn_userId conn) (conn_userName conn)
                (conn_color conn) state s))
      end
  end.

(** Lines 323-332: drop the connection from its board's set, and drop the
    board's entries from both maps when the set becomes empty. *)
Definition remove_connection (c : nat) (boardId : string)
    (st : ServerState) : ServerState :=
  match boardConnections st !! boardId with
  | Some connections =>
      let connections' := set_delete c connections in
      if bool_decide (length connections' = 0%nat)
      then set_boardDocs (delete boardId (boardDocs st))
             (set_boardConnections (delete boardId (boardConnections st)) st)
      else set_boardConnections (<[boardId := connections']> (boardConnections st)) st
  | None => st
  end.

(** [disconnect], lines 318-361, run on a socket that has already left its
    rooms. *)
Definition on_disconnect (s : string) (st : ServerState) : ServerState * list Effect :=
  match clientConnection (socketState st s) with
  | None => (st, [])
  | Some c =>
      match connHeap st !! c with
      | None => (st, [])
      | Some conn =>
          let boardId := conn_boardId conn in
          let st1 := remove_connection c boardId st in
          (update_socket s (set_clientConnection None) st1,
           emit_others st1 s boardId
             (MsgUserLeft
                {| p_userId := conn_userId conn; p_userName := conn_userName conn;
                   p_userEmail := conn_userEmail conn; p_socketId := s |})
           ++ emit_room st1 boardId (MsgActiveUsers (roster st1 (room st1 boardId)))
           ++ [Console (LogLeft (conn_userName conn) s boardId)])
      end
  end.

(** The transport closes: Socket.IO takes the socket out of its rooms, marks
    it closed, then fires ['disconnect']. *)
Definition disconnect (s : string) (st : ServerState) : ServerState * list Effect :=
  on_disconnect s (update_socket s (set_connected false) (leave_all s st)).

(** A new transport connection: a socket with a fresh id and
    [clientConnection = null]. *)
Definition connect (s : string) (st : ServerState) : ServerState :=
  match sockets st !! s with
  | Some _ => st
  | None =>
      set_sockets
        (<[s := {| connected := true; clientConnection := None;
                   sock_userRole := None; sock_boardId := None;
                   sock_dbUserId := None |}]> (sockets st)) st
  end.

(** ** The server as a transition system *)

Inductive Event :=
| Connect (s : string)
| JoinBoard (s : string) (data : JoinData) (env : JoinEnv)
| JoinStart (s : string) (data : JoinData) (env : JoinEnv)
| JoinResume (k : nat) (env : JoinEnv)
| SyncState (s : string) (state : option (list Z)) (now : Z)
| BoardUpdate (s : string) (update : option (list Z)) (now : Z)
| CursorMove (s : string) (data : CursorData)
| AwarenessUpdate (s : string) (state : JsValue)
| Disconnect (s : string)
| WriteDone (k : nat) (fails : bool).

(** Client events are dispatched only to sockets that are open. *)
Definition on_socket (s : string) (st : ServerState)
    (h : ServerState → ServerState * list Effect) : ServerState * list Effect :=
  if is_connected st s then h st else (st, []).

Definition step (ev : Event) (st : ServerState) : ServerState * list Effect :=
  match ev with
  | Connect s => (connect s st, [])
  | JoinBoard s data env => on_socket s st (join_board s data env)
  | JoinStart s data env => on_socket s st (join_start s data env)
  | JoinResume k env => join_resume k env st
  | SyncState s state now => on_socket s st (sync_state s state now)
  | BoardUpdate s update now => on_socket s st (board_update s update now)
  | CursorMove s data => on_socket s st (cursor_move s data)
  | AwarenessUpdate s state => on_socket s st (awareness_update s state)
  | Disconnect s => on_socket s st (disconnect s)
  | WriteDone k fails => write_done k fails st
  end.

Fixpoint run (evs : list Event) (st : ServerState) : ServerState * list Effect :=
  match evs with
  | [] => (st, [])
  | ev :: rest =>
      let '(st1, out1) := step ev st in
      let '(st2, out2) := run rest st1 in
      (st2, out1 ++ out2)
  end.

(** States the server can be in. *)
Inductive reachable (d : Database) : ServerState → Prop :=
| reachable_initial : reachable d (initial d)
| reachable_step st ev :
    reachable d st → reachable d (step ev st).1.

(** ** Vocabulary of the statements *)

(** The document object currently registered for a board, and the bytes
    currently persisted for it. *)
Definition document_of (st : ServerState) (boardId : string) : option DocObject :=
  boardDocs st !! boardId ≫= λ r, docHeap st !! r.

Definition snapshot_of (st : ServerState) (boardId : string) : option (list Z) :=
  boards (db st) !! boardId ≫= yDocState.


(** Connections of a board that a join with resolved id [d] and email [e]
    keeps, and the notices it sends for those it removes. *)
Definition survivors (st : ServerState) (boardId : string) (d e : option string) : list nat :=
  List.filter (λ r, negb (matches st d e r)) (room st boardId).

Definition leave_notice (st : ServerState) (boardId : string) (d e : option string)
    (r : nat) : list Effect :=
  match connHeap st !! r with
  | Some conn =>
      if same_user d e conn
      then emit_others st (conn_socket conn) boardId (MsgUserLeft (presence conn))
      else []
  | None => []
  end.

(** References held by the two maps and the sockets point below the
    allocation counter. *)
Definition refs_allocated (st : ServerState) : Prop :=
  (∀ b r, r ∈ room st b → (r < nextRef st)%nat)
  ∧ (∀ s c, clientConnection (socketState st s) = Some c → (c < nextRef st)%nat)
  ∧ (∀ r, is_Some (connHeap st !! r) → (r < nextRef st)%nat).

(** The four client messages that require a joined socket. *)
Definition room_message (s : string) (ev : Event) : Prop :=
  match ev with
  | SyncState s' _ _ | BoardUpdate s' _ _
  | CursorMove s' _ | AwarenessUpdate s' _ => s' = s
  | _ => False
  end.

End Server.

(** ** A concrete engine and runtime, for running the server *)

(** Yjs is a dependency, not part of the repository.  To run the handlers
    on concrete inputs the development instantiates the engine interface
    with a small mergeable document: a grow-only set of bytes.  An update is
    a count followed by exactly that many elements; anything else is
    rejected.  The ['update'] event carries the elements that were new. *)
Module GrowOnlySet.

Fixpoint insert (x : Z) (l : list Z) : list Z :=
  match l with
  | [] => [x]
  | y :: l' =>
      if (x <? y)%Z then x :: l
      else if (x =? y)%Z then l
      else y :: insert x l'
  end.

Definition encode (l : list Z) : list Z := Z.of_nat (length l) :: l.

Definition decode (u : list Z) : option (list Z) :=
  match u with
  | n :: elems => if bool_decide (Z.of_nat (length elems) = n) then Some elems else None
  | [] => None
  end.

Definition apply (d : list Z) (u : list Z) : ApplyResult (list Z) :=
  match decode u with
  | None => Threw d
  | Some elems =>
      let fresh :=
        List.filter (λ x, negb (bool_decide (x ∈ d))) (foldr insert [] elems) in
      Applied (foldr insert d elems)
              (match fresh with [] => None | _ => Some (encode fresh) end)
  end.

#[export] Instance engine : DocEngine :=
  {| Doc := list Z; newDoc := []; applyUpdate := apply;
     encodeStateAsUpdate := encode |}.

End GrowOnlySet.

(** A runtime whose string conversion knows the empty string, the
    [Infinity] literals and nothing else; it is used only to run examples
    whose payloads contain no other strings. *)
Module PlainRuntime.

Definition string_to_number (s : string) : JsNumber :=
  if String.eqb s "" then Finite 0 0
  else if String.eqb s "Infinity" then PosInfinity
  else if String.eqb s "-Infinity" then NegInfinity
  else NaN.

#[export] Instance runtime : JsRuntime :=
  {| StringToNumber := string_to_number; ObjectToNumber := λ _, NaN |}.

End PlainRuntime.

Module Scenario.
Import GrowOnlySet PlainRuntime.

Definition board1 : Board :=
  {| ownerId := "u-owner"; isPublic := true;
     members := [ {| member_userId := "u-editor"; member_role := "editor" |} ];
     yDocState := None; lastModified := 0 |}.

Definition board2 : Board :=
  {| ownerId := "u-owner"; isPublic := false;
     members := [ {| member_userId := "u-editor"; member_role := "editor" |} ];
     yDocState := Some [2; 7; 9]; lastModified := 5 |}.

Definition database : Database :=
  {| users := {[ "fb-owner" := "u-owner"; "fb-editor" := "u-editor";
                 "fb-other" := "u-other" ]};
     boards := {[ "b1" := board1; "b2" := board2 ]} |}.

Definition calm : JoinEnv :=
  {| userLookupFails := false; boardLookupFails := false;
     loadFails := false; colorIndex := 3 |}.

Definition anonymous (boardId : string) (email : option string) : JoinData :=
  {| jd_boardId := Some boardId; jd_userId := None;
     jd_userName := None; jd_userEmail := email |}.

Definition as_user (boardId uid name : string) : JoinData :=
  {| jd_boardId := Some boardId; jd_userId := Some uid;
     jd_userName := Some name; jd_userEmail := None |}.

(** The owner and an editor are both in the room of board [b2], whose
    persisted snapshot holds the elements 7 and 9. *)
Definition joining : list Event :=
  [ Connect "s1"; Connect "s2";
    JoinBoard "s1" (as_user "b2" "fb-owner" "Olga") calm;
    JoinBoard "s2" (as_user "b2" "fb-editor" "Ed") calm ].

Definition editing : ServerState := (run joining (initial database)).1.

(** Two sockets ask to join the never-opened board [b1]; the second
    request is handled while the first awaits the snapshot. *)
Definition racing : list Event :=
  [ Connect "s1"; Connect "s2";
    JoinStart "s1" (anonymous "b1" None) calm;
    JoinStart "s2" (anonymous "b1" None) calm;
    JoinResume 0 calm; JoinResume 0 calm ].

(** A visitor of the public board [b1] whose client sends an empty
    email. *)
Definition one_visitor : ServerState :=
  (run [ Connect "s1"; Connect "s2";
         JoinBoard "s1" (anonymous "b1" (Some "")) calm ]
       (initial database)).1.

(** The same two requests, handled one after the other. *)
Definition queued : list Event :=
  [ Connect "s1"; Connect "s2";
    JoinStart "s1" (anonymous "b1" None) calm; JoinResume 0 calm;
    JoinStart "s2" (anonymous "b1" None) calm ].

Definition visitor_connection : ClientConnection :=
  {| conn_socket := "s1"; conn_boardId := "b1"; conn_userId := None;
     conn_userName := Some "Anonymous"; conn_userEmail := Some "";
     conn_color := Some "#FFA07A"; conn_cursor := None;
     conn_dbUserId := None |}.

(** Socket [s1] has connected; only [s2] has joined a board. *)
Definition other_joined : list Event :=
  [ Connect "s1"; Connect "s2";
    JoinBoard "s2" (as_user "b2" "fb-editor" "Ed") calm ].

(** The first of two racing joiners sends an update before the second
    join resumes. *)
Definition racing_with_update : list Event :=
  [ Connect "s1"; Connect "s2";
    JoinStart "s1" (anonymous "b1" None) calm;
    JoinStart "s2" (anonymous "b1" None) calm;
    JoinResume 0 calm;
    BoardUpdate "s1" (Some [1; 4]) 10;
    JoinResume 0 calm ].

(** The editor's update reaches the server and the write it triggers
    completes. *)
Definition after_update : ServerState :=
  (run [BoardUpdate "s2" (Some [1; 4]) 10; WriteDone 0 false] editing).1.

(** Two cursor payloads: one with a [null] coordinate, as JSON can carry
    it, and one with an infinite coordinate of type number. *)
Definition null_cursor : CursorData :=
  {| cursor_x := JsNull; cursor_y := JsNum (Finite 3 0) |}.

Definition infinite_cursor : CursorData :=
  {| cursor_x := JsNum PosInfinity; cursor_y := JsNum (Finite 3 0) |}.

Definition owner_presence : Presence :=
  {| p_userId := Some "u-owner"; p_userName := Some "Olga";
     p_userEmail := None; p_socketId := "s1" |}.

(** A third socket on which the owner, already present on [s1], joins
    again: the state just before line 159 of that join. *)
Definition before_entering : ServerState :=
  socket_join "s3" "b2" (run (joining ++ [Connect "s3"]) (initial database)).1.

Definition owner_again : JoinData := as_user "b2" "fb-owner" "Olga".

Definition owner_access : Access :=
  {| hasAccess := true; userRole := "owner"; dbUserId := Some "u-owner" |}.

Definition owner_connection : ClientConnection :=
  {| conn_socket := "s1"; conn_boardId := "b2";
     conn_userId := Some "u-owner"; conn_userName := Some "Olga";
     conn_userEmail := None; conn_color := Some "#FFA07A";
     conn_cursor := None; conn_dbUserId := Some "u-owner" |}.

End Scenario.

(** ** The access policy in the words of the specification (section 4.1) *)

Inductive Decision :=
| NotPermitted
| Permitted (role : string).

Definition decision (a : Access) : Decision :=
  if hasAccess a then Permitted (userRole a) else NotPermitted.

(** The caller's identity: the database user the supplied Firebase UID
    resolves to, none for an anonymous caller. *)
Definition caller (d : Database) (userId : option string) : option string :=
  match userId with
  | Some uid => users d !! uid
  | None => None
  end.

Definition policy (board : option Board) (who : option string) : Decision :=
  match board with
  | None => NotPermitted
  | Some b =>
      match who with
      | Some u =>
          if bool_decide (u = ownerId b) then Permitted "owner"
          else
            match List.find (λ m, bool_decide (member_userId m = u)) (members b) with
            | Some m => Permitted (member_role m)
            | None => if isPublic b then Permitted "viewer" else NotPermitted
            end
      | None => if isPublic b then Permitted "viewer" else NotPermitted
      end
  end.

(** A query of the access check rejected. *)
Definition lookup_fails (env : JoinEnv) (userId : option string) : bool :=
  boardLookupFails env || (truthy userId && userLookupFails env).

(** Keys of the user table are not empty strings. *)
Definition ids_nonempty (d : Database) : Prop :=
  ∀ uid u, users d !! uid = Some u → uid ≠ "" ∧ u ≠ "".

Section Outcomes.
Context `{Engine : DocEngine}.

(** The state of [join_finish] just before line 175: the new connection
    object exists and the socket points to it. *)
Definition prepared (s boardId : string) (data : JoinData) (acc : Access)
    (index : nat) (st : ServerState) : ServerState :=
  update_socket s
    (λ ss, set_socket_data (userRole acc) boardId (dbUserId acc)
             (set_clientConnection (Some (nextRef st)) ss))
    (set_nextRef (S (nextRef st))
       (set_connHeap
          (<[nextRef st := new_connection s boardId data acc (getRandomColor index)]>
             (connHeap st)) st)).

(** The state [join_finish] ends in, written as one expression. *)
Definition entered (s boardId : string) (data : JoinData) (acc : Access)
    (index : nat) (st : ServerState) : ServerState :=
  let st2 := prepared s boardId data acc index st in
  set_boardConnections
    (<[boardId := set_add (nextRef st)
                    (survivors st2 boardId (dbUserId acc) (jd_userEmail data))]>
       (boardConnections st2)) st2.

(** Two connection objects that differ at most in their cursor. *)
Definition same_identity (c1 c2 : ClientConnection) : Prop :=
  conn_socket c1 = conn_socket c2 ∧ conn_boardId c1 = conn_boardId c2
  ∧ conn_userId c1 = conn_userId c2 ∧ conn_userName c1 = conn_userName c2
  ∧ conn_userEmail c1 = conn_userEmail c2 ∧ conn_color c1 = conn_color c2
  ∧ conn_dbUserId c1 = conn_dbUserId c2.

(** A state change that adds no connection: rooms only shrink, connection
    objects keep their identity, no socket is pointed to a connection. *)
Record quiet (st st' : ServerState) : Prop := {
  quiet_room : ∀ b r, r ∈ room st' b → r ∈ room st b;
  quiet_heap : ∀ r conn', connHeap st' !! r = Some conn' →
                 ∃ conn, connHeap st !! r = Some conn ∧ same_identity conn conn';
  quiet_keep : ∀ r conn, connHeap st !! r = Some conn →
                 ∃ conn', connHeap st' !! r = Some conn' ∧ same_identity conn conn';
  quiet_next : (nextRef st ≤ nextRef st')%nat;
  quiet_client : ∀ s c, clientConnection (socketState st' s) = Some c →
                   clientConnection (socketState st s) = Some c
}.

(** A connection built with a resolved user id carries it as its
    [userId]. *)
Definition resolved_id_recorded (st : ServerState) : Prop :=
  ∀ r conn, connHeap st !! r = Some conn →
    truthy (conn_dbUserId conn) = true → conn_userId conn = conn_dbUserId conn.

(** The identity invariant of a room, for values that are present and not
    empty: no two connections with the same resolved user id, and no two
    connections without resolved user id with the same email. *)
Definition unique_identity (st : ServerState) (boardId : string) : Prop :=
  ∀ c1 c2 conn1 conn2,
    c1 ∈ room st boardId → c2 ∈ room st boardId → c1 ≠ c2 →
    connHeap st !! c1 = Some conn1 → connHeap st !! c2 = Some conn2 →
    (truthy (conn_dbUserId conn1) = true →
     conn_dbUserId conn1 ≠ conn_dbUserId conn2)
    ∧ (truthy (conn_dbUserId conn1) = false →
       truthy (conn_dbUserId conn2) = false →
       truthy (conn_userEmail conn1) = true →
       conn_userEmail conn1 ≠ conn_userEmail conn2).

(** The same invariant for values that are merely not null, as the
    specification words it. *)
Definition unique_identity_nonnull (st : ServerState) (boardId : string) : Prop :=
  ∀ c1 c2 conn1 conn2,
    c1 ∈ room st boardId → c2 ∈ room st boardId → c1 ≠ c2 →
    connHeap st !! c1 = Some conn1 → connHeap st !! c2 = Some conn2 →
    (is_Some (conn_dbUserId conn1) →
     conn_dbUserId conn1 ≠ conn_dbUserId conn2)
    ∧ (conn_dbUserId conn1 = None → conn_dbUserId conn2 = None →
       is_Some (conn_userEmail conn1) →
       conn_userEmail conn1 ≠ conn_userEmail conn2).

(** A join with resolved id [d] and email [e] shares its identity with an
    existing connection. *)
Definition shares_identity (d e : option string) (conn : ClientConnection) : Prop :=
  (truthy d = true ∧ conn_dbUserId conn = d)
  ∨ (truthy e = true ∧ conn_userEmail conn = e).

(** What [join_finish] emits after the leave notices. *)
Definition welcome (s boardId : string) (data : JoinData) (acc : Access)
    (yDoc index : nat) (st' : ServerState) : list Effect :=
  emit s (MsgSyncBoard
            match docHeap st' !! yDoc with
            | Some o => encodeStateAsUpdate (doc_state o)
            | None => []
            end)
  ++ emit s (MsgActiveUsers (roster st' (room st' boardId)))
  ++ emit_others st' s boardId
       (MsgUserJoined
          (presence (new_connection s boardId data acc (getRandomColor index)))
          (getRandomColor index) (userRole acc))
  ++ emit s (MsgUserRole (userRole acc))
  ++ [Console (LogJoined (jd_userName data) s boardId)].

End Outcomes.

Section Shapes.
Context `{Engine : DocEngine}.

(** Every transition either adds no connection, or is such a change
    followed by the end of one join, which tells the joiner its role. *)
Inductive step_shape (st st' : ServerState) (out : list Effect) : Prop :=
| shape_quiet : quiet st st' → step_shape st st' out
| shape_enter st1 s b data acc index :
    quiet st st1 → st' = entered s b data acc index st1 →
    Send s (MsgUserRole (userRole acc)) ∈ out →
    step_shape st st' out.

(** A join has completed on socket [s]: the handler's closing [user-role]
    message was sent to it. *)
Definition completed_join (s : string) (out : list Effect) : Prop :=
  ∃ role, Send s (MsgUserRole role) ∈ out.

(** A board's set holds connection objects built for that board. *)
Definition rooms_by_board (st : ServerState) : Prop :=
  ∀ b r, r ∈ room st b →
    ∃ conn, connHeap st !! r = Some conn ∧ conn_boardId conn = b.

Definition well_formed (st : ServerState) : Prop :=
  refs_allocated st ∧ resolved_id_recorded st ∧ rooms_by_board st.

End Shapes.

Section Traces.
Context `{Engine : DocEngine}.

(** Every [active-users] list in [out] is the projection of some board's
    connection set in [st]. *)
Definition rosters_of (st : ServerState) (out : list Effect) : Prop :=
  ∀ t us, Send t (MsgActiveUsers us) ∈ out →
    ∃ b, us = roster st (room st b).

(** The connection object [a] was allocated and is in no board's set. *)
Definition absent (a : nat) (st : ServerState) : Prop :=
  (a < nextRef st)%nat ∧ ∀ b, a ∉ room st b.

(** [x] is emitted before [y] in [out]. *)
Definition precedes (x y : Effect) (out : list Effect) : Prop :=
  ∃ l1 l2 l3, out = l1 ++ x :: l2 ++ y :: l3.

End Traces.

Section Frames.
Context `{Engine : DocEngine}.

(** A state change that leaves connections and sockets alone. *)
Definition same_connections (st st' : ServerState) : Prop :=
  boardConnections st' = boardConnections st
  ∧ connHeap st' = connHeap st
  ∧ sockets st' = sockets st
  ∧ (nextRef st ≤ nextRef st')%nat.

End Frames.

Section MoreVocabulary.
Context `{Engine : DocEngine}.

(** A state change confined to documents, database and outstanding
    writes. *)
Definition docs_only (st st' : ServerState) : Prop :=
  boardConnections st' = boardConnections st
  ∧ connHeap st' = connHeap st
  ∧ sockets st' = sockets st
  ∧ ioRooms st' = ioRooms st
  ∧ suspended st' = suspended st.

(** A state change confined to connections, sockets and rooms. *)
Definition presence_only (st st' : ServerState) : Prop :=
  db st' = db st
  ∧ boardDocs st' = boardDocs st
  ∧ docHeap st' = docHeap st
  ∧ pendingWrites st' = pendingWrites st.

(** The messages sent to socket [s], in order. *)
Definition inbox (s : string) (out : list Effect) : list Message :=
  omap (λ e, match e with
             | Send t m => if String.eqb t s then Some m else None
             | _ => None
             end) out.

(** The connection a connected socket points to was built on that socket,
    and the socket is in the Socket.IO room of the connection's board; a
    suspended join's socket, while connected, is in the room it asked
    for. *)
Definition sockets_in_rooms (st : ServerState) : Prop :=
  (∀ s c conn,
     clientConnection (socketState st s) = Some c →
     connHeap st !! c = Some conn →
     conn_socket conn = s
     ∧ (is_connected st s = true → s ∈ ioRoom st (conn_boardId conn)))
  ∧ (∀ j, j ∈ suspended st →
       is_Some (sockets st !! sj_socket j)
       ∧ (is_connected st (sj_socket j) = true →
          sj_socket j ∈ ioRoom st (sj_boardId j))).

(** Every board with an entry in [boardConnections] has at least one
    connection, and none twice. *)
Definition rooms_are_sets (st : ServerState) : Prop :=
  ∀ b l, boardConnections st !! b = Some l → l ≠ [] ∧ NoDup l.

(** A document object that is allocated, is registered for no board and is
    held by no suspended join: the state of a document between
    [new Y.Doc()] and [boardDocs.set]. *)
Definition unpublished (st : ServerState) (r : nat) : Prop :=
  is_Some (docHeap st !! r)
  ∧ (∀ b, boardDocs st !! b ≠ Some r)
  ∧ r ∉ sj_doc <$> suspended st.

(** Every registered document is an allocated object whose ['update']
    listener saves to the board it is registered for; the documents held by
    suspended joins are allocated, not registered yet, and pairwise
    distinct; document references lie below the allocation counter. *)
Definition documents_listen (st : ServerState) : Prop :=
  (∀ b r, boardDocs st !! b = Some r →
     ∃ o, docHeap st !! r = Some o ∧ doc_listener o = Some b)
  ∧ (∀ j, j ∈ suspended st →
       is_Some (docHeap st !! sj_doc j) ∧ ∀ b, boardDocs st !! b ≠ Some (sj_doc j))
  ∧ NoDup (sj_doc <$> suspended st)
  ∧ (∀ r, is_Some (docHeap st !! r) → (r < nextRef st)%nat).

(** A state change that registers no document, keeps every document object
    with its listener, and leaves the suspended joins alone. *)
Definition documents_kept (st st' : ServerState) : Prop :=
  (∀ b r, boardDocs st' !! b = Some r → boardDocs st !! b = Some r)
  ∧ (∀ r, doc_listener <$> docHeap st' !! r = doc_listener <$> docHeap st !! r)
  ∧ suspended st' = suspended st
  ∧ (nextRef st ≤ nextRef st')%nat.

End MoreVocabulary.

(** The socket an event arrives on; the completion of a query or of a
    write belongs to no socket. *)
Definition event_socket (ev : Event) : option string :=
  match ev with
  | Connect s | JoinBoard s _ _ | JoinStart s _ _
  | SyncState s _ _ | BoardUpdate s _ _
  | CursorMove s _ | AwarenessUpdate s _ | Disconnect s => Some s
  | JoinResume _ _ | WriteDone _ _ => None
  end.

(** No socket is listed twice in a Socket.IO room. *)
Definition io_rooms_are_sets `{Engine : DocEngine} (st : ServerState) : Prop :=
  ∀ b, NoDup (ioRoom st b).

(** ** More situations, for running the handlers *)

Module Situations.
Import GrowOnlySet PlainRuntime Scenario.

Definition viewer_access : Access :=
  {| hasAccess := true; userRole := "viewer"; dbUserId := None |}.

(** The document of board [b2] while the owner and the editor are in its
    room: the persisted elements, and the listener of the board. *)
Definition board2_document : DocObject :=
  {| doc_state := [7; 9]; doc_listener := Some "b2" |}.

Definition finite_cursor : CursorData :=
  {| cursor_x := JsNum (Finite 3 0); cursor_y := JsNum (Finite 4 0) |}.

(** A request that names no board. *)
Definition no_board : JoinData :=
  {| jd_boardId := None; jd_userId := Some "fb-owner";
     jd_userName := Some "Olga"; jd_userEmail := None |}.

Definition connected_only : ServerState :=
  (run [Connect "s1"] (initial database)).1.

(** A second anonymous visitor of board [b1], just before line 159 of its
    join. *)
Definition second_visitor : ServerState := socket_join "s2" "b1" one_visitor.

(** The owner is in the room of [b2] and a visitor in the room of [b1];
    then the owner's socket asks, anonymously, for [b1]: the state just
    before line 159 of that join. *)
Definition two_boards : list Event :=
  [ Connect "s1"; Connect "s2";
    JoinBoard "s1" (as_user "b2" "fb-owner" "Olga") calm;
    JoinBoard "s2" (anonymous "b1" None) calm ].

Definition switching : ServerState :=
  socket_join "s1" "b1" (run two_boards (initial database)).1.

(** A socket closes while its join awaits the snapshot of [b1]. *)
Definition closing_while_loading : list Event :=
  [ Connect "s1"; JoinStart "s1" (anonymous "b1" None) calm; Disconnect "s1" ].

Definition interrupted : ServerState :=
  (run closing_while_loading (initial database)).1.

Definition interrupted_join : SuspendedJoin :=
  {| sj_socket := "s1"; sj_boardId := "b1"; sj_data := anonymous "b1" None;
     sj_access := viewer_access; sj_doc := 0 |}.

End Situations.

(** * Properties *)

Section Frame.
Context `{Engine : DocEngine} `{Runtime : JsRuntime}.

Lemma on_socket_idle s st h :
  h st = (st, []) → on_socket s st h = (st, []).
Proof. intros Hh. unfold on_socket. by destruct (is_connected st s). Qed.

(** A [sync-state], [board-update], [cursor-move] or [awareness-update]
    arriving on a socket whose [clientConnection] is null changes nothing
    and emits nothing. *)
Lemma null_connection_ignores_messages (st : ServerState) (s : string) (ev : Event) :
  clientConnection (socketState st s) = None →
  room_message s ev →
  step ev st = (st, []).
Proof.
  intros Hnull Hev.
  destruct ev; simpl in Hev; try contradiction; subst; simpl;
    apply on_socket_idle.
  - unfold sync_state. by rewrite Hnull.
  - unfold board_update. by rewrite Hnull.
  - unfold cursor_move. by rewrite Hnull.
  - unfold awareness_update. by rewrite Hnull.
Qed.

End Frame.

(** Membership in a concatenation of effect lists, disjunct by disjunct. *)
Ltac unfold_elem :=
  repeat first [rewrite elem_of_app | rewrite elem_of_cons | rewrite elem_of_nil].

(** Case analysis on such a membership, dropping the cases that equate
    different constructors. *)
Ltac split_cases H :=
  repeat match type of H with
  | _ ∨ _ => destruct H as [H|H]
  | False => destruct H
  | ∃ _, _ => let t := fresh "t" in destruct H as (t & H)
  | _ ∧ _ => let H' := fresh in destruct H as (H & H')
  end; try discriminate H.

Section AccessResolver.

Lemma truthy_Some s : truthy (Some s) = true ↔ s ≠ "".
Proof.
  simpl. destruct (String.eqb_spec s ""); simpl; split; intros; congruence.
Qed.

Lemma truthy_false_Some s : truthy (Some s) = false → s = "".
Proof. simpl. by destruct (String.eqb_spec s ""). Qed.

Lemma find_filter_same {A} (p : A → bool) (l : list A) :
  List.find p (List.filter p l) = List.find p l.
Proof.
  induction l as [|x l IH]; simpl; [done|].
  destruct (p x) eqn:Hp; simpl; by rewrite ?Hp.
Qed.

Lemma find_ext {A} (p q : A → bool) (l : list A) :
  (∀ x, p x = q x) → List.find p l = List.find q l.
Proof.
  intros Hpq. induction l as [|x l IH]; simpl; [done|].
  by rewrite Hpq, IH.
Qed.

Lemma strict_eq_Some a b : strict_eq (Some a) (Some b) = bool_decide (a = b).
Proof. unfold strict_eq. apply bool_decide_ext. naive_solver. Qed.

Lemma verifyAccess_decision d env boardId userId :
  ids_nonempty d →
  decision (verifyAccess d env boardId userId).1 =
    if lookup_fails env userId then NotPermitted
    else policy (boards d !! boardId) (caller d userId).
Proof.
  intros Hids. unfold verifyAccess, lookup_fails.
  destruct (truthy userId) eqn:Huid.
  - destruct userId as [uid|]; [|done]. simpl default. simpl caller.
    destruct (userLookupFails env); [by rewrite orb_true_r|].
    rewrite andb_false_r, orb_false_r.
    destruct (boardLookupFails env); [done|].
    destruct (boards d !! boardId) as [board|]; [|done]. simpl policy.
    destruct (users d !! uid) as [u|] eqn:Hu.
    + destruct (Hids _ _ Hu) as [_ Hne].
      apply truthy_Some in Hne. rewrite Hne. simpl andb.
      rewrite strict_eq_Some.
      rewrite (bool_decide_ext (ownerId board = u) (u = ownerId board)) by naive_solver.
      destruct (bool_decide (u = ownerId board)); [done|].
      unfold included_members. rewrite Hne, find_filter_same.
      rewrite (find_ext _ (λ m, bool_decide (member_userId m = u)))
        by (intros; apply strict_eq_Some).
      destruct (List.find _ (members board)); [done|].
      by destruct (isPublic board).
    + simpl. by destruct (isPublic board).
  - rewrite andb_false_l, orb_false_r.
    destruct (boardLookupFails env); [done|].
    assert (caller d userId = None) as ->.
    { destruct userId as [uid|]; [|done]. simpl.
      apply truthy_false_Some in Huid. subst.
      destruct (users d !! "") eqn:Hu; [|done].
      by destruct (Hids _ _ Hu). }
    destruct (boards d !! boardId) as [board|]; [|done]. simpl.
    by destruct (isPublic board).
Qed.

Lemma verifyAccess_logs d env boardId userId :
  (verifyAccess d env boardId userId).2 = []
  ∨ ∃ l, (verifyAccess d env boardId userId).2 = [Console l].
Proof.
  unfold verifyAccess.
  repeat match goal with
  | |- context [if ?c then _ else _] => destruct c
  | |- context [match ?x with Some _ => _ | None => _ end] => destruct x
  end; simpl; eauto.
Qed.

Lemma verifyAccess_only_logs d env boardId userId :
  ∀ e, e ∈ (verifyAccess d env boardId userId).2 → ∃ l, e = Console l.
Proof.
  intros e. destruct (verifyAccess_logs d env boardId userId) as [->|[l ->]].
  - intros He. by apply elem_of_nil in He.
  - intros He. apply list_elem_of_singleton in He. eauto.
Qed.

End AccessResolver.

Section JoinAccess.
Context `{Engine : DocEngine}.

Lemma decision_NotPermitted a : decision a = NotPermitted ↔ hasAccess a = false.
Proof. unfold decision. destruct (hasAccess a); split; congruence. Qed.

Lemma decision_Permitted a role :
  decision a = Permitted role ↔ hasAccess a = true ∧ userRole a = role.
Proof.
  unfold decision. destruct (hasAccess a); split;
    [intros [= <-]; done | intros [_ <-]; done | done | intros [? _]; done].
Qed.

Lemma join_finish_sends_role s boardId data acc yDoc index (st : ServerState) :
  Send s (MsgUserRole (userRole acc)) ∈ (join_finish s boardId data acc yDoc index st).2.
Proof.
  unfold join_finish.
  destruct (enter_room _ _ _ _ _) as [st3 leaves]. simpl.
  unfold_elem. tauto.
Qed.

Lemma join_board_granted s data env (st : ServerState) boardId :
  jd_boardId data = Some boardId → boardId ≠ "" →
  hasAccess (verifyAccess (db st) env boardId (jd_userId data)).1 = true →
  ∃ st1 yDoc logs,
    join_board s data env st =
      (let '(st2, out) :=
         join_finish s boardId data
           (verifyAccess (db st) env boardId (jd_userId data)).1
           yDoc (colorIndex env) st1 in
       (st2, logs ++ out)).
Proof.
  intros Hb Hne Hacc. apply truthy_Some in Hne.
  unfold join_board, join_begin. rewrite Hb, Hne. simpl default. simpl negb.
  destruct (verifyAccess _ _ _ _) as [acc logs]. simpl in Hacc. rewrite Hacc.
  simpl negb.
  destruct (boardDocs (socket_join s boardId st) !! boardId) as [yDoc|].
  - exists (socket_join s boardId st), yDoc, logs.
    by destruct (join_finish _ _ _ _ _ _ _).
  - destruct (alloc_doc _) as [st2 yDoc] eqn:Halloc.
    unfold join_continue. simpl.
    destruct (load_persisted _ _ _ _) as [st3 logs3].
    exists (install_doc yDoc boardId st3), yDoc, (logs ++ logs3).
    destruct (join_finish _ _ _ _ _ _ _). by rewrite <- app_assoc.
Qed.

(** C7. Access to a board is resolved by the stated policy: a missing board
    or a failing lookup denies; the owner gets role [owner]; a listed member
    gets the stored role; anyone else, anonymous callers included, gets
    [viewer] on a public board and is denied otherwise.  A denied join
    changes nothing on the server and tells the socket so; the granted role
    is the one sent to the joiner. *)
Theorem join_access_resolution (st : ServerState) (s : string)
    (data : JoinData) (env : JoinEnv) (boardId : string) :
  ids_nonempty (db st) →
  jd_boardId data = Some boardId →
  boardId ≠ "" →
  let acc := (verifyAccess (db st) env boardId (jd_userId data)).1 in
  decision acc =
    (if lookup_fails env (jd_userId data) then NotPermitted
     else policy (boards (db st) !! boardId) (caller (db st) (jd_userId data)))
  ∧ (decision acc = NotPermitted →
     ∃ logs,
       join_board s data env st =
         (st, logs ++ [Send s (MsgError "Access denied to this board")])
       ∧ ∀ e, e ∈ logs → ∃ l, e = Console l)
  ∧ (∀ role, decision acc = Permitted role →
     Send s (MsgUserRole role) ∈ (join_board s data env st).2).
Proof.
  intros Hids Hb Hne acc. split; [by apply verifyAccess_decision|]. split.
  - intros Hden%decision_NotPermitted.
    exists (verifyAccess (db st) env boardId (jd_userId data)).2. split.
    + apply truthy_Some in Hne.
      unfold join_board, join_begin. rewrite Hb, Hne. simpl default. simpl negb.
      subst acc. destruct (verifyAccess _ _ _ _) as [a logs].
      simpl in Hden. by rewrite Hden.
    + apply verifyAccess_only_logs.
  - intros role [Hacc Hrole]%decision_Permitted.
    destruct (join_board_granted s data env st boardId Hb Hne Hacc)
      as (st1 & yDoc & logs & ->).
    pose proof (join_finish_sends_role s boardId data acc yDoc (colorIndex env) st1) as Hin.
    fold acc. destruct (join_finish _ _ _ _ _ _ _) as [st2 out]. simpl in *.
    rewrite <- Hrole. set_solver.
Qed.

End JoinAccess.

Section Defects.
Import GrowOnlySet PlainRuntime Scenario.

(** C1. The editor sends the update [1; 4] (one element, 4) to board [b2],
    whose document holds 7 and 9, and the write issued by the listener
    completes.  The in-memory document now encodes as [3; 4; 7; 9], but the
    row holds [1; 4]: the bytes of the ['update'] event, not the full
    encoding of the document. *)
Theorem persisted_snapshot_is_last_increment :
  (encodeStateAsUpdate ∘ doc_state) <$> document_of after_update "b2"
    = Some [3; 4; 7; 9]
  ∧ snapshot_of after_update "b2" = Some [1; 4]
  ∧ lastModified <$> boards (db after_update) !! "b2" = Some 10
  ∧ pendingWrites after_update = [].
Proof. vm_compute. done. Qed.

(** C2. Two joins for a board without in-memory document, the second
    handled while the first is suspended at the snapshot load: both find
    [boardDocs] empty, both build a document and both register it; the
    second registration replaces the first.  Handled one after the other,
    the same two joins build one document. *)
Theorem concurrent_first_joins_build_two_documents :
  map_to_list (docHeap (run racing (initial database)).1) =
    [ (1%nat, {| doc_state := []; doc_listener := Some "b1" |});
      (0%nat, {| doc_state := []; doc_listener := Some "b1" |}) ]
  ∧ boardDocs (run racing (initial database)).1 !! "b1" = Some 1%nat
  ∧ size (docHeap (run queued (initial database)).1) = 1%nat.
Proof. vm_compute. done. Qed.

(** A consequence of the race: an update merged into the first document is
    missing from the document the board ends up with. *)
Lemma racing_join_drops_update :
  doc_state <$> docHeap (run racing_with_update (initial database)).1 !! 0%nat
    = Some [4]
  ∧ doc_state <$> document_of (run racing_with_update (initial database)).1 "b1"
    = Some [].
Proof. vm_compute. done. Qed.

(** C5. A [cursor-move] with a [null] coordinate, and one with an
    infinite coordinate, pass the guard of lines 281-282: neither payload is
    a pair of finite numbers, yet each is stored on the connection and sent
    to the other member of the room. *)
Theorem cursor_move_accepts_null_and_infinity :
  finite_number (cursor_x null_cursor) = false
  ∧ finite_number (cursor_x infinite_cursor) = false
  ∧ (step (CursorMove "s1" null_cursor) editing).2 =
      [ Send "s2" (MsgCursorUpdate owner_presence (Some "#FFA07A") null_cursor) ]
  ∧ (step (CursorMove "s1" infinite_cursor) editing).2 =
      [ Send "s2" (MsgCursorUpdate owner_presence (Some "#FFA07A") infinite_cursor) ]
  ∧ (connHeap (step (CursorMove "s1" null_cursor) editing).1 !! 1%nat
       ≫= conn_cursor) = Some null_cursor
  ∧ (connHeap (step (CursorMove "s1" infinite_cursor) editing).1 !! 1%nat
       ≫= conn_cursor) = Some infinite_cursor.
Proof. vm_compute. done. Qed.

(** C6. The engine rejects the update [5; 1] (a count of five, one
    element).  The exception leaves the [board-update] handler: nothing is
    written to the console, nothing is broadcast, the state is unchanged. *)
Theorem rejected_update_escapes_unlogged :
  applyUpdate [7; 9] (Uint8Array [5; 1]) = Threw [7; 9]
  ∧ (doc_state <$> document_of editing "b2") = Some [7; 9]
  ∧ step (BoardUpdate "s1" (Some [5; 1]) 10) editing = (editing, [Uncaught]).
Proof. vm_compute. done. Qed.

End Defects.

Section Entering.
Context `{Engine : DocEngine}.
Implicit Types (st : ServerState) (l : list nat) (d e : option string).

Lemma elem_of_filter_bool {A} (p : A → bool) (xs : list A) (x : A) :
  x ∈ List.filter p xs ↔ p x = true ∧ x ∈ xs.
Proof. rewrite !list_elem_of_In, List.filter_In. tauto. Qed.

Lemma filter_bool_ext_in {A} (p q : A → bool) (xs : list A) :
  (∀ x, x ∈ xs → p x = q x) → List.filter p xs = List.filter q xs.
Proof.
  intros H. apply List.filter_ext_in. intros x Hx. apply H.
  by apply list_elem_of_In.
Qed.

Lemma filter_bool_true {A} (p : A → bool) (xs : list A) :
  (∀ x, x ∈ xs → p x = true) → List.filter p xs = xs.
Proof.
  induction xs as [|x xs IH]; simpl; intros H; [done|].
  rewrite H by left. f_equal. apply IH. intros y Hy. apply H. by right.
Qed.

Lemma filter_bool_filter {A} (p q : A → bool) (xs : list A) :
  List.filter p (List.filter q xs) = List.filter (λ x, q x && p x) xs.
Proof.
  induction xs as [|x xs IH]; simpl; [done|].
  destruct (q x); simpl; [|done]. destruct (p x); by rewrite IH.
Qed.

Lemma set_boardConnections_twice m1 m2 st :
  set_boardConnections m2 (set_boardConnections m1 st) = set_boardConnections m2 st.
Proof. done. Qed.

Lemma set_boardConnections_same st :
  set_boardConnections (boardConnections st) st = st.
Proof. by destruct st. Qed.

Lemma room_lookup st b l : boardConnections st !! b = Some l → room st b = l.
Proof. unfold room. by intros ->. Qed.

Lemma room_insert st b b' l :
  room (set_boardConnections (<[b := l]> (boardConnections st)) st) b' =
    if decide (b = b') then l else room st b'.
Proof.
  unfold room. simpl. rewrite lookup_insert. by destruct (decide (b = b')).
Qed.

(** The loop removes exactly the listed connections that pass the test and
    sends their notices in list order. *)
Lemma evict_loop_spec l d e b st l0 :
  boardConnections st !! b = Some l0 →
  evict_loop l d e b st =
    (set_boardConnections
       (<[b := List.filter (λ r, negb (bool_decide (r ∈ l) && matches st d e r)) l0]>
          (boardConnections st)) st,
     flat_map (leave_notice st b d e) l).
Proof.
  revert st l0. induction l as [|r rest IH]; intros st l0 Hl0.
  - cbn [evict_loop flat_map]. f_equal. rewrite filter_bool_true.
    + by rewrite insert_id, set_boardConnections_same.
    + intros x _. rewrite bool_decide_eq_false_2; [done|]. apply not_elem_of_nil.
  - cbn [evict_loop flat_map]. unfold leave_notice at 1.
    assert (∀ st', connHeap st' = connHeap st →
              ∀ x, matches st' d e x = matches st d e x) as Hm.
    { intros st' Hh x. unfold matches. by rewrite Hh. }
    destruct (connHeap st !! r) as [conn|] eqn:Hr.
    + destruct (same_user d e conn) eqn:Hsame.
      * set (st1 := set_boardConnections _ st).
        rewrite (IH st1 (set_delete r l0)).
        2:{ subst st1. simpl. rewrite lookup_insert_eq.
            by rewrite (room_lookup st b l0). }
        change (flat_map (leave_notice st1 b d e) rest)
          with (flat_map (leave_notice st b d e) rest).
        f_equal. subst st1. rewrite set_boardConnections_twice. f_equal. simpl.
        rewrite insert_insert_eq. f_equal.
        unfold set_delete. rewrite filter_bool_filter.
        apply filter_bool_ext_in. intros x _.
        rewrite (Hm (set_boardConnections _ st) eq_refl x).
        destruct (Nat.eqb_spec x r) as [->|Hne]; simpl.
        -- unfold matches. rewrite Hr, Hsame.
           rewrite bool_decide_eq_true_2 by left. done.
        -- f_equal. f_equal. apply bool_decide_ext.
           rewrite elem_of_cons. tauto.
      * rewrite (IH st l0 Hl0). f_equal. f_equal. f_equal.
        apply filter_bool_ext_in. intros x _. f_equal.
        destruct (decide (x = r)) as [->|Hne].
        -- unfold matches. rewrite Hr, Hsame. by rewrite !andb_false_r.
        -- f_equal. apply bool_decide_ext. rewrite elem_of_cons. tauto.
    + rewrite (IH st l0 Hl0). f_equal. f_equal. f_equal.
      apply filter_bool_ext_in. intros x _. f_equal.
      destruct (decide (x = r)) as [->|Hne].
      * unfold matches. rewrite Hr. by rewrite !andb_false_r.
      * f_equal. apply bool_decide_ext. rewrite elem_of_cons. tauto.
Qed.

(** Admission as one assignment: the board's set becomes the survivors
    followed by the new connection. *)
Lemma enter_room_spec ref b d e st :
  enter_room ref b d e st =
    (set_boardConnections
       (<[b := set_add ref (survivors st b d e)]> (boardConnections st)) st,
     flat_map (leave_notice st b d e) (room st b)).
Proof.
  unfold enter_room, survivors.
  destruct (boardConnections st !! b) as [existing|] eqn:Hb.
  - rewrite (evict_loop_spec existing d e b st existing Hb).
    rewrite set_boardConnections_twice. simpl.
    rewrite room_insert. rewrite decide_True by done.
    rewrite insert_insert_eq. rewrite (room_lookup st b existing Hb).
    f_equal. f_equal. f_equal. f_equal.
    apply filter_bool_ext_in. intros x Hx.
    by rewrite bool_decide_eq_true_2.
  - rewrite room_insert. rewrite decide_True by done.
    rewrite set_boardConnections_twice. simpl. rewrite insert_insert_eq.
    unfold room. rewrite Hb. done.
Qed.

End Entering.

Section RoomLifecycle.
Context `{Engine : DocEngine}.
Implicit Types (st : ServerState).

Lemma join_finish_state s b data acc yDoc index st :
  (join_finish s b data acc yDoc index st).1 = entered s b data acc index st.
Proof. unfold join_finish, entered. by rewrite enter_room_spec. Qed.


Lemma socketState_update_socket s f st :
  socketState (update_socket s f st) s = f (socketState st s).
Proof. unfold socketState at 1. simpl. by rewrite lookup_insert_eq. Qed.

Lemma socketState_update_socket_ne s t f st :
  s ≠ t → socketState (update_socket s f st) t = socketState st t.
Proof. intros Hne. unfold socketState. simpl. by rewrite lookup_insert_ne. Qed.

Lemma set_delete_elem c l x : x ∈ set_delete c l ↔ x ≠ c ∧ x ∈ l.
Proof.
  unfold set_delete. rewrite elem_of_filter_bool.
  destruct (Nat.eqb_spec x c); simpl; intuition congruence.
Qed.





End RoomLifecycle.

Section EnteredState.
Context `{Engine : DocEngine}.
Implicit Types (st : ServerState) (d e : option string).

Lemma join_finish_spec s b data acc yDoc index st :
  join_finish s b data acc yDoc index st =
    (entered s b data acc index st,
     flat_map (leave_notice (prepared s b data acc index st) b
                 (dbUserId acc) (jd_userEmail data))
              (room (prepared s b data acc index st) b)
     ++ welcome s b data acc yDoc index (entered s b data acc index st)).
Proof. unfold join_finish. by rewrite enter_room_spec. Qed.

Lemma prepared_room s b data acc index st b' :
  room (prepared s b data acc index st) b' = room st b'.
Proof. done. Qed.

Lemma prepared_ioRoom s b data acc index st b' :
  ioRoom (prepared s b data acc index st) b' = ioRoom st b'.
Proof. done. Qed.

Lemma prepared_heap s b data acc index st r :
  r ≠ nextRef st →
  connHeap (prepared s b data acc index st) !! r = connHeap st !! r.
Proof. intros Hne. simpl. by rewrite lookup_insert_ne. Qed.

Lemma prepared_heap_new s b data acc index st :
  connHeap (prepared s b data acc index st) !! nextRef st =
    Some (new_connection s b data acc (getRandomColor index)).
Proof. simpl. by rewrite lookup_insert_eq. Qed.

Lemma room_allocated st b r :
  refs_allocated st → r ∈ room st b → r ≠ nextRef st.
Proof. intros (Hroom & _) Hr%Hroom. lia. Qed.

Lemma nextRef_not_in_room st b :
  refs_allocated st → nextRef st ∉ room st b.
Proof. intros Hwf Hin. by apply (room_allocated st b _ Hwf Hin). Qed.

Lemma prepared_matches s b data acc index st d e r b' :
  refs_allocated st → r ∈ room st b' →
  matches (prepared s b data acc index st) d e r = matches st d e r.
Proof.
  intros Hwf Hr. unfold matches.
  by rewrite prepared_heap by eauto using room_allocated.
Qed.

Lemma prepared_survivors s b data acc index st d e b' :
  refs_allocated st →
  survivors (prepared s b data acc index st) b' d e = survivors st b' d e.
Proof.
  intros Hwf. unfold survivors. rewrite prepared_room.
  apply filter_bool_ext_in. intros r Hr. f_equal.
  eauto using prepared_matches.
Qed.

Lemma prepared_leaves s b data acc index st d e b' :
  refs_allocated st →
  flat_map (leave_notice (prepared s b data acc index st) b' d e) (room st b') =
  flat_map (leave_notice st b' d e) (room st b').
Proof.
  intros Hwf.
  assert (∀ l, (∀ r, r ∈ l → r ∈ room st b') →
     flat_map (leave_notice (prepared s b data acc index st) b' d e) l =
     flat_map (leave_notice st b' d e) l) as Hgen.
  { induction l as [|r l IH]; intros Hl; simpl; [done|].
    rewrite IH by (intros; apply Hl; by right). f_equal.
    unfold leave_notice.
    rewrite prepared_heap by (eapply room_allocated; [done|apply Hl; by left]).
    done. }
  by apply Hgen.
Qed.

Lemma survivors_elem st b d e r :
  r ∈ survivors st b d e ↔ r ∈ room st b ∧ matches st d e r = false.
Proof.
  unfold survivors. rewrite elem_of_filter_bool.
  destruct (matches st d e r); simpl; intuition congruence.
Qed.

Lemma set_add_fresh r l : r ∉ l → set_add r l = l ++ [r].
Proof. intros Hr. unfold set_add. by rewrite bool_decide_eq_false_2. Qed.

Lemma entered_room s b data acc index st b' :
  refs_allocated st →
  room (entered s b data acc index st) b' =
    if decide (b = b')
    then survivors st b (dbUserId acc) (jd_userEmail data) ++ [nextRef st]
    else room st b'.
Proof.
  intros Hwf. unfold entered. rewrite room_insert.
  destruct (decide (b = b')) as [->|Hne]; [|done].
  rewrite prepared_survivors by done.
  apply set_add_fresh. rewrite survivors_elem.
  intros [Hin _]. by apply (nextRef_not_in_room st b').
Qed.

Lemma entered_heap s b data acc index st :
  connHeap (entered s b data acc index st) =
    <[nextRef st := new_connection s b data acc (getRandomColor index)]> (connHeap st).
Proof. done. Qed.

Lemma entered_nextRef s b data acc index st :
  nextRef (entered s b data acc index st) = S (nextRef st).
Proof. done. Qed.

Lemma entered_ioRoom s b data acc index st b' :
  ioRoom (entered s b data acc index st) b' = ioRoom st b'.
Proof. done. Qed.

Lemma entered_socketState_ne s b data acc index st t :
  s ≠ t → socketState (entered s b data acc index st) t = socketState st t.
Proof.
  intros Hne. unfold entered, prepared.
  change (socketState (set_boardConnections ?m ?x) t) with (socketState x t).
  by rewrite socketState_update_socket_ne.
Qed.

Lemma entered_socketState s b data acc index st :
  clientConnection (socketState (entered s b data acc index st) s) = Some (nextRef st).
Proof.
  unfold entered, prepared.
  change (socketState (set_boardConnections ?m ?x) s) with (socketState x s).
  by rewrite socketState_update_socket.
Qed.

End EnteredState.

Section Quiet.
Context `{Engine : DocEngine} `{Runtime : JsRuntime}.
Implicit Types (st : ServerState) (d e : option string).

Lemma same_identity_refl c : same_identity c c.
Proof. by repeat split. Qed.

Lemma same_identity_trans c1 c2 c3 :
  same_identity c1 c2 → same_identity c2 c3 → same_identity c1 c3.
Proof. unfold same_identity. intuition congruence. Qed.

Lemma same_identity_set_cursor c data : same_identity c (set_cursor data c).
Proof. by repeat split. Qed.

Lemma same_identity_sym c1 c2 : same_identity c1 c2 → same_identity c2 c1.
Proof. unfold same_identity. intuition congruence. Qed.

Lemma quiet_refl st : quiet st st.
Proof.
  split; eauto; intros r conn Hr; exists conn; eauto using same_identity_refl.
Qed.

Lemma quiet_trans st1 st2 st3 : quiet st1 st2 → quiet st2 st3 → quiet st1 st3.
Proof.
  intros [R1 H1 K1 N1 C1] [R2 H2 K2 N2 C2]. split; eauto; [| |lia].
  - intros r conn3 (conn2 & Hr2 & Hs2)%H2.
    destruct (H1 _ _ Hr2) as (conn1 & Hr1 & Hs1).
    exists conn1. eauto using same_identity_trans.
  - intros r conn1 (conn2 & Hr2 & Hs2)%K1.
    destruct (K2 _ _ Hr2) as (conn3 & Hr3 & Hs3).
    exists conn3. eauto using same_identity_trans.
Qed.

(** A change that touches neither the connections nor the sockets. *)
Lemma quiet_frame st st' :
  boardConnections st' = boardConnections st →
  connHeap st' = connHeap st →
  sockets st' = sockets st →
  (nextRef st ≤ nextRef st')%nat →
  quiet st st'.
Proof.
  intros Hb Hh Hs Hn. split; [| | |done|].
  - intros b r. unfold room. by rewrite Hb.
  - intros r conn. rewrite Hh. eauto using same_identity_refl.
  - intros r conn. rewrite Hh. eauto using same_identity_refl.
  - intros s c. unfold socketState. by rewrite Hs.
Qed.

Lemma quiet_socket_join s b st : quiet st (socket_join s b st).
Proof. unfold socket_join. destruct (bool_decide _); by apply quiet_frame. Qed.

Lemma quiet_alloc_doc st : quiet st (alloc_doc st).1.
Proof. apply quiet_frame; simpl; auto. Qed.

Lemma quiet_load_persisted r b fails st : quiet st (load_persisted r b fails st).1.
Proof.
  unfold load_persisted.
  repeat match goal with
  | |- context [if ?c then _ else _] => destruct c
  | |- context [match ?x with Some _ => _ | None => _ end] => destruct x
  | |- context [match ?x with Applied _ _ => _ | Threw _ => _ end] => destruct x
  end; by apply quiet_frame.
Qed.

Lemma quiet_install_doc r b st : quiet st (install_doc r b st).
Proof.
  unfold install_doc. simpl. destruct (docHeap st !! r); by apply quiet_frame.
Qed.

Lemma quiet_set_suspended l st : quiet st (set_suspended l st).
Proof. by apply quiet_frame. Qed.

Lemma quiet_apply_update r u now st : quiet st (apply_update r u now st).1.
Proof.
  unfold apply_update.
  repeat match goal with
  | |- context [match ?x with Some _ => _ | None => _ end] => destruct x
  | |- context [match ?x with Applied _ _ => _ | Threw _ => _ end] => destruct x
  end; by apply quiet_frame.
Qed.

Lemma quiet_write_done k fails st : quiet st (write_done k fails st).1.
Proof.
  unfold write_done.
  repeat match goal with
  | |- context [if ?c then _ else _] => destruct c
  | |- context [match ?x with Some _ => _ | None => _ end] => destruct x
  end; by apply quiet_frame.
Qed.

Lemma quiet_sync_state s state now st : quiet st (sync_state s state now st).1.
Proof.
  unfold sync_state.
  destruct (clientConnection (socketState st s)) as [c|]; [|apply quiet_refl].
  destruct (connHeap st !! c) as [conn|]; [|apply quiet_refl].
  destruct (boardDocs st !! conn_boardId conn) as [yDoc|]; [|apply quiet_refl].
  destruct state as [bytes|]; [|apply quiet_refl].
  pose proof (quiet_apply_update yDoc (Uint8Array bytes) now st) as Hq.
  by destruct (apply_update _ _ _ _).
Qed.

Lemma quiet_board_update s update now st : quiet st (board_update s update now st).1.
Proof.
  unfold board_update.
  destruct (clientConnection (socketState st s)) as [c|]; [|apply quiet_refl].
  destruct (connHeap st !! c) as [conn|]; [|apply quiet_refl].
  destruct (boardDocs st !! conn_boardId conn) as [yDoc|]; [|apply quiet_refl].
  destruct update as [numbers|]; [|apply quiet_refl].
  pose proof (quiet_apply_update yDoc (Uint8Array numbers) now st) as Hq.
  by destruct (apply_update _ _ _ _) as [st1 []].
Qed.

Lemma quiet_cursor_move s data st : quiet st (cursor_move s data st).1.
Proof.
  unfold cursor_move.
  destruct (clientConnection (socketState st s)) as [c|]; [|apply quiet_refl].
  destruct (connHeap st !! c) as [conn|] eqn:Hc; [|apply quiet_refl].
  destruct (cursor_rejected data); [apply quiet_refl|].
  split; simpl; [done| | |done|done].
  - intros r conn'. destruct (decide (c = r)) as [->|Hne].
    + rewrite lookup_insert_eq. intros [= <-].
      exists conn. eauto using same_identity_set_cursor.
    + rewrite lookup_insert_ne by done. eauto using same_identity_refl.
  - intros r conn0 Hr. destruct (decide (c = r)) as [->|Hne].
    + rewrite lookup_insert_eq. rewrite Hc in Hr. injection Hr as <-.
      eauto using same_identity_set_cursor.
    + rewrite lookup_insert_ne by done. eauto using same_identity_refl.
Qed.

Lemma quiet_awareness_update s state st : quiet st (awareness_update s state st).1.
Proof.
  unfold awareness_update.
  destruct (clientConnection (socketState st s)) as [c|]; [|apply quiet_refl].
  destruct (connHeap st !! c); apply quiet_refl.
Qed.

Lemma quiet_connect s st : quiet st (connect s st).
Proof.
  unfold connect. destruct (sockets st !! s) eqn:Hs; [apply quiet_refl|].
  split; simpl; eauto using same_identity_refl.
  intros t c. unfold socketState. simpl.
  destruct (decide (s = t)) as [->|Hne].
  - by rewrite lookup_insert_eq.
  - by rewrite lookup_insert_ne.
Qed.

(** Updating a socket without pointing it to a connection. *)
Lemma quiet_update_socket s f st :
  (∀ ss c, clientConnection (f ss) = Some c → clientConnection ss = Some c) →
  quiet st (update_socket s f st).
Proof.
  intros Hf. split; simpl; eauto using same_identity_refl.
  intros t c. destruct (decide (s = t)) as [->|Hne].
  - rewrite socketState_update_socket. apply Hf.
  - by rewrite socketState_update_socket_ne.
Qed.

Lemma quiet_leave_all s st : quiet st (leave_all s st).
Proof. by apply quiet_frame. Qed.

Lemma quiet_remove_connection c b st : quiet st (remove_connection c b st).
Proof.
  unfold remove_connection.
  destruct (boardConnections st !! b) as [l|] eqn:Hb; [|apply quiet_refl].
  destruct (bool_decide _); split; simpl; eauto using same_identity_refl.
  - intros b' r. unfold room. simpl.
    destruct (decide (b = b')) as [->|Hne].
    + rewrite lookup_delete_eq. simpl. by intros ?%elem_of_nil.
    + by rewrite lookup_delete_ne.
  - intros b' r. rewrite room_insert.
    destruct (decide (b = b')) as [->|Hne]; [|done].
    rewrite set_delete_elem. unfold room. rewrite Hb. tauto.
Qed.

Lemma quiet_disconnect s st : quiet st (disconnect s st).1.
Proof.
  unfold disconnect.
  set (st0 := update_socket s (set_connected false) (leave_all s st)).
  assert (quiet st st0) as H0.
  { eapply quiet_trans; [apply (quiet_leave_all s)|].
    apply quiet_update_socket. by intros []. }
  eapply quiet_trans; [exact H0|]. clearbody st0.
  unfold on_disconnect.
  destruct (clientConnection (socketState st0 s)) as [c|]; [|apply quiet_refl].
  destruct (connHeap st0 !! c) as [conn|]; [|apply quiet_refl]. simpl.
  eapply quiet_trans; [apply quiet_remove_connection|].
  apply quiet_update_socket. by intros [].
Qed.

End Quiet.

Section Invariants.
Context `{Engine : DocEngine} `{Runtime : JsRuntime}.
Implicit Types (st : ServerState) (d e : option string).

Lemma join_continue_shape j env st :
  step_shape st (join_continue j env st).1 (join_continue j env st).2.
Proof.
  unfold join_continue.
  pose proof (quiet_load_persisted (sj_doc j) (sj_boardId j) (loadFails env) st) as Hl.
  destruct (load_persisted _ _ _ _) as [st1 logs]. simpl in Hl.
  pose proof (quiet_install_doc (sj_doc j) (sj_boardId j) st1) as Hi.
  pose proof (join_finish_state (sj_socket j) (sj_boardId j) (sj_data j)
                (sj_access j) (sj_doc j) (colorIndex env)
                (install_doc (sj_doc j) (sj_boardId j) st1)) as Hf.
  pose proof (join_finish_sends_role (sj_socket j) (sj_boardId j) (sj_data j)
                (sj_access j) (sj_doc j) (colorIndex env)
                (install_doc (sj_doc j) (sj_boardId j) st1)) as Hr.
  destruct (join_finish _ _ _ _ _ _ _) as [st3 out]. simpl in *.
  eapply shape_enter; [|exact Hf|].
  - eauto using quiet_trans.
  - apply elem_of_app. by right.
Qed.

Lemma join_begin_shape s data env st :
  match join_begin s data env st with
  | Finished st' out => step_shape st st' out
  | AwaitingLoad st' _ _ => quiet st st'
  end.
Proof.
  unfold join_begin.
  destruct (negb (truthy (jd_boardId data))); [apply shape_quiet, quiet_refl|].
  destruct (verifyAccess _ _ _ _) as [acc logs].
  destruct (negb (hasAccess acc)); [apply shape_quiet, quiet_refl|].
  set (b := default "" (jd_boardId data)).
  pose proof (quiet_socket_join s b st) as Hj.
  destruct (boardDocs (socket_join s b st) !! b) as [yDoc|].
  - pose proof (join_finish_state s b data acc yDoc (colorIndex env)
                  (socket_join s b st)) as Hf.
    pose proof (join_finish_sends_role s b data acc yDoc (colorIndex env)
                  (socket_join s b st)) as Hr.
    destruct (join_finish _ _ _ _ _ _ _) as [st3 out]. simpl in *.
    eapply shape_enter; [exact Hj|exact Hf|].
    apply elem_of_app. by right.
  - pose proof (quiet_alloc_doc (socket_join s b st)) as Ha.
    destruct (alloc_doc _) as [st2 yDoc]. simpl in *.
    eauto using quiet_trans.
Qed.

Lemma step_shape_step ev st : step_shape st (step ev st).1 (step ev st).2.
Proof.
  destruct ev; simpl; unfold on_socket;
    try (destruct (is_connected st s); [|apply shape_quiet, quiet_refl]).
  - apply shape_quiet, quiet_connect.
  - unfold join_board. pose proof (join_begin_shape s data env st) as Hb.
    destruct (join_begin s data env st) as [st1 out|st1 out j]; [done|].
    pose proof (join_continue_shape j env st1) as Hc.
    destruct (join_continue j env st1) as [st2 out2]. simpl in *.
    destruct Hc as [Hq|st1' s' b' data' acc' index' Hq -> Hr].
    + apply shape_quiet. eauto using quiet_trans.
    + eapply shape_enter; [|done|].
      * eauto using quiet_trans.
      * apply elem_of_app. by right.
  - unfold join_start. pose proof (join_begin_shape s data env st) as Hb.
    destruct (join_begin s data env st) as [st1 out|st1 out j]; [done|].
    apply shape_quiet. simpl. eauto using quiet_trans, quiet_set_suspended.
  - unfold join_resume. destruct (suspended st !! k) as [j|];
      [|apply shape_quiet, quiet_refl].
    pose proof (join_continue_shape j env (set_suspended (delete k (suspended st)) st)) as Hc.
    destruct Hc as [Hq|st1' s' b' data' acc' index' Hq Hst Hr].
    + apply shape_quiet. eauto using quiet_trans, quiet_set_suspended.
    + eapply shape_enter; [|exact Hst|exact Hr].
      eauto using quiet_trans, quiet_set_suspended.
  - apply shape_quiet, quiet_sync_state.
  - apply shape_quiet, quiet_board_update.
  - apply shape_quiet, quiet_cursor_move.
  - apply shape_quiet, quiet_awareness_update.
  - apply shape_quiet, quiet_disconnect.
  - apply shape_quiet, quiet_write_done.
Qed.

Lemma refs_allocated_quiet st st' :
  quiet st st' → refs_allocated st → refs_allocated st'.
Proof.
  intros [R H K N C] (Hr & Hc & Hh). split_and!.
  - intros b r Hin%R%Hr. lia.
  - intros s c Hin%C%Hc. lia.
  - intros r [conn' (conn & Hconn & _)%H]. 
    assert (r < nextRef st)%nat by (apply Hh; eauto). lia.
Qed.

Lemma refs_allocated_entered s b data acc index st :
  refs_allocated st → refs_allocated (entered s b data acc index st).
Proof.
  intros Hwf. pose proof Hwf as (Hr & Hc & Hh). split_and!.
  - intros b' r. rewrite entered_room, entered_nextRef by done.
    destruct (decide (b = b')) as [->|Hne].
    + rewrite elem_of_app, survivors_elem, list_elem_of_singleton.
      intros [[Hin%Hr _]| ->]; lia.
    + intros Hin%Hr. lia.
  - intros t c. rewrite entered_nextRef.
    destruct (decide (s = t)) as [->|Hne].
    + rewrite entered_socketState. intros [= <-]. lia.
    + rewrite entered_socketState_ne by done. intros Hin%Hc. lia.
  - intros r. rewrite entered_heap, entered_nextRef.
    destruct (decide (nextRef st = r)) as [<-|Hne]; [lia|].
    rewrite lookup_insert_ne by done. intros Hin%Hh. lia.
Qed.

Lemma resolved_id_recorded_quiet st st' :
  quiet st st' → resolved_id_recorded st → resolved_id_recorded st'.
Proof.
  intros [R H K N C] Hrec r conn' (conn & Hconn & Hsame)%H Ht.
  destruct Hsame as (_ & _ & Hu & _ & _ & _ & Hd).
  rewrite <- Hu, <- Hd. apply (Hrec r conn Hconn). by rewrite Hd.
Qed.

Lemma resolved_id_recorded_entered s b data acc index st :
  resolved_id_recorded st → resolved_id_recorded (entered s b data acc index st).
Proof.
  intros Hrec r conn. rewrite entered_heap.
  destruct (decide (nextRef st = r)) as [<-|Hne].
  - rewrite lookup_insert_eq. intros [= <-]. simpl. intros Ht.
    unfold js_or. by rewrite Ht.
  - rewrite lookup_insert_ne by done. apply Hrec.
Qed.

Lemma rooms_by_board_quiet st st' :
  quiet st st' → rooms_by_board st → rooms_by_board st'.
Proof.
  intros [R H K N C] Hrb b r (conn & Hconn & Hb)%R%Hrb.
  destruct (K r conn Hconn) as (conn' & Hconn' & Hsame).
  exists conn'. split; [done|].
  destruct Hsame as (_ & <- & _). done.
Qed.

Lemma rooms_by_board_entered s b data acc index st :
  refs_allocated st → rooms_by_board st →
  rooms_by_board (entered s b data acc index st).
Proof.
  intros Hwf Hrb b' r. rewrite entered_room, entered_heap by done.
  assert (r ∈ room st b' →
          ∃ conn, <[nextRef st := new_connection s b data acc (getRandomColor index)]>
                    (connHeap st) !! r = Some conn ∧ conn_boardId conn = b') as Hold.
  { intros Hr. rewrite lookup_insert_ne; [by apply Hrb|].
    intros <-. by apply (nextRef_not_in_room st b'). }
  destruct (decide (b = b')) as [->|Hne]; [|done].
  rewrite elem_of_app, survivors_elem, list_elem_of_singleton.
  intros [[Hr _]| ->]; [by apply Hold|].
  rewrite lookup_insert_eq. eauto.
Qed.

Lemma well_formed_quiet st st' : quiet st st' → well_formed st → well_formed st'.
Proof.
  intros Hq (Hr & Hd & Hb). split_and!;
    eauto using refs_allocated_quiet, resolved_id_recorded_quiet, rooms_by_board_quiet.
Qed.

Lemma well_formed_entered s b data acc index st :
  well_formed st → well_formed (entered s b data acc index st).
Proof.
  intros (Hr & Hd & Hb). split_and!;
    eauto using refs_allocated_entered, resolved_id_recorded_entered,
                rooms_by_board_entered.
Qed.

Lemma well_formed_step ev st : well_formed st → well_formed (step ev st).1.
Proof.
  intros Hwf.
  destruct (step_shape_step ev st) as [Hq|st1 s b data acc index Hq -> _];
    eauto using well_formed_quiet, well_formed_entered.
Qed.

Lemma well_formed_initial (d0 : Database) : well_formed (initial d0).
Proof.
  split; [split_and!|split].
  - intros b r. unfold room. simpl. rewrite lookup_empty. simpl.
    by intros ?%elem_of_nil.
  - intros s c. unfold socketState. simpl. by rewrite lookup_empty.
  - intros r. simpl. rewrite lookup_empty. by intros [? ?].
  - intros r conn. simpl. by rewrite lookup_empty.
  - intros b r. unfold room. simpl. rewrite lookup_empty. simpl.
    by intros ?%elem_of_nil.
Qed.

(** Reachable states are well formed. *)
Lemma reachable_well_formed (d0 : Database) st : reachable d0 st → well_formed st.
Proof.
  induction 1; eauto using well_formed_initial, well_formed_step.
Qed.

End Invariants.

Section Identity.
Context `{Engine : DocEngine} `{Runtime : JsRuntime}.
Implicit Types (st : ServerState) (d e : option string).

Lemma elem_of_flat_map {A B} (f : A → list B) (l : list A) (y : B) :
  y ∈ flat_map f l ↔ ∃ x, x ∈ l ∧ y ∈ f x.
Proof.
  rewrite list_elem_of_In, in_flat_map. split; intros (x & Hx & Hy); exists x;
    by rewrite ?list_elem_of_In in *.
Qed.

Lemma elem_of_emit_others st s b m x :
  x ∈ emit_others st s b m ↔ ∃ t, x = Send t m ∧ t ∈ ioRoom st b ∧ t ≠ s.
Proof.
  unfold emit_others. rewrite list_elem_of_fmap.
  split; intros (t & -> & Ht); exists t; split; try done.
  - apply elem_of_filter_bool in Ht as [Hne Hin]. split; [done|].
    intros ->. by rewrite String.eqb_refl in Hne.
  - apply elem_of_filter_bool. destruct Ht as [Hin Hne]. split; [|done].
    by destruct (String.eqb_spec t s).
Qed.

Lemma elem_of_emit_room st b m x :
  x ∈ emit_room st b m ↔ ∃ t, x = Send t m ∧ t ∈ ioRoom st b.
Proof. unfold emit_room. apply list_elem_of_fmap. Qed.

Lemma same_user_false d e conn :
  same_user d e conn = false →
  (truthy d = true → conn_userId conn ≠ d)
  ∧ (truthy e = true → conn_userEmail conn ≠ e).
Proof.
  unfold same_user, strict_eq. intros [H1 H2]%orb_false_elim.
  split; intros Ht Heq.
  - by rewrite Ht, bool_decide_eq_true_2 in H1.
  - by rewrite Ht, bool_decide_eq_true_2 in H2.
Qed.

(** With the resolved id recorded in [userId], sharing an identity is
    enough to pass the test of line 183. *)
Lemma shares_identity_same_user st d e r conn :
  resolved_id_recorded st → connHeap st !! r = Some conn →
  shares_identity d e conn → same_user d e conn = true.
Proof.
  intros Hrec Hr [[Ht Hd]|[Ht He]]; unfold same_user, strict_eq; rewrite Ht.
  - assert (conn_userId conn = d) as Hu.
    { rewrite <- Hd. apply (Hrec r conn Hr). by rewrite Hd. }
    by rewrite bool_decide_eq_true_2.
  - rewrite (bool_decide_eq_true_2 (conn_userEmail conn = e)) by done.
    apply orb_true_r.
Qed.

Lemma unique_identity_quiet st st' b :
  quiet st st' → unique_identity st b → unique_identity st' b.
Proof.
  intros [R H K N C] Hu c1 c2 conn1' conn2' H1%R H2%R Hne
    (conn1 & Hc1 & Hs1)%H (conn2 & Hc2 & Hs2)%H.
  destruct Hs1 as (_ & _ & _ & _ & He1 & _ & Hd1).
  destruct Hs2 as (_ & _ & _ & _ & He2 & _ & Hd2).
  rewrite <- He1, <- He2, <- Hd1, <- Hd2. by apply (Hu c1 c2).
Qed.

Lemma unique_identity_entered s b data acc index st b' :
  well_formed st → unique_identity st b' →
  unique_identity (entered s b data acc index st) b'.
Proof.
  intros (Hwf & Hrec & _) Hu c1 c2 conn1 conn2.
  rewrite entered_room, entered_heap by done.
  set (d := dbUserId acc). set (e := jd_userEmail data).
  set (new := new_connection s b data acc (getRandomColor index)).
  assert (∀ c, c ∈ room st b' → <[nextRef st := new]> (connHeap st) !! c = connHeap st !! c)
    as Hold.
  { intros c Hc. rewrite lookup_insert_ne; [done|].
    intros <-. by apply (nextRef_not_in_room st b'). }
  destruct (decide (b = b')) as [->|Hb].
  2:{ intros H1 H2 Hne. rewrite !Hold by done. by apply Hu. }
  assert (∀ c conn, c ∈ survivors st b' d e → connHeap st !! c = Some conn →
            (truthy d = true → conn_dbUserId conn ≠ d)
            ∧ (truthy e = true → conn_userEmail conn ≠ e)) as Hsurv.
  { intros c conn [Hin Hm]%survivors_elem Hc. unfold matches in Hm.
    rewrite Hc in Hm. apply same_user_false in Hm as [Hm1 Hm2].
    split; [|done]. intros Ht Heq. apply (Hm1 Ht).
    rewrite <- Heq. apply (Hrec c conn Hc). by rewrite Heq. }
  rewrite !elem_of_app, !list_elem_of_singleton.
  intros [H1| ->] [H2| ->] Hne; try done.
  - pose proof H1 as [H1' _]%survivors_elem.
    pose proof H2 as [H2' _]%survivors_elem.
    rewrite !Hold by done. by apply Hu.
  - pose proof H1 as [H1' _]%survivors_elem.
    rewrite Hold by done. rewrite lookup_insert_eq. intros Hc1 [= <-].
    destruct (Hsurv c1 conn1 H1 Hc1) as [Hs1 Hs2]. simpl. fold d e.
    split.
    + intros Ht Heq. apply Hs1; [|done]. by rewrite <- Heq.
    + intros _ _ Ht Heq. apply Hs2; [|done]. by rewrite <- Heq.
  - pose proof H2 as [H2' _]%survivors_elem.
    rewrite lookup_insert_eq. rewrite Hold by done. intros [= <-] Hc2.
    destruct (Hsurv c2 conn2 H2 Hc2) as [Hs1 Hs2]. simpl. fold d e.
    split.
    + intros Ht Heq. by apply Hs1.
    + intros _ _ Ht Heq. by apply Hs2.
Qed.

Lemma unique_identity_step ev st b :
  well_formed st → unique_identity st b → unique_identity (step ev st).1 b.
Proof.
  intros Hwf Hu.
  destruct (step_shape_step ev st) as [Hq|st1 s b1 data acc index Hq -> _].
  - eauto using unique_identity_quiet.
  - apply unique_identity_entered;
      eauto using well_formed_quiet, unique_identity_quiet.
Qed.

(** In every reachable state every room satisfies the identity
    invariant. *)
Lemma reachable_unique_identity (d0 : Database) st b :
  reachable d0 st → unique_identity st b.
Proof.
  induction 1 as [|st ev Hreach IH].
  - intros c1 c2 conn1 conn2. unfold room. simpl. rewrite lookup_empty. simpl.
    by intros ?%elem_of_nil.
  - eauto using unique_identity_step, reachable_well_formed.
Qed.

End Identity.

Section Eviction.
Context `{Engine : DocEngine} `{Runtime : JsRuntime}.
Implicit Types (st : ServerState) (d e : option string).

Lemma join_finish_output s b data acc yDoc index st :
  refs_allocated st →
  (join_finish s b data acc yDoc index st).2 =
    flat_map (leave_notice st b (dbUserId acc) (jd_userEmail data)) (room st b)
    ++ welcome s b data acc yDoc index (entered s b data acc index st).
Proof.
  intros Hwf. rewrite join_finish_spec. simpl. rewrite prepared_room.
  by rewrite prepared_leaves.
Qed.

Lemma leave_notice_sent st b d e c conn t :
  c ∈ room st b → connHeap st !! c = Some conn → same_user d e conn = true →
  t ∈ ioRoom st b → t ≠ conn_socket conn →
  Send t (MsgUserLeft (presence conn)) ∈ flat_map (leave_notice st b d e) (room st b).
Proof.
  intros Hc Hconn Hsame Ht Hne. apply elem_of_flat_map. exists c. split; [done|].
  unfold leave_notice. rewrite Hconn, Hsame. apply elem_of_emit_others. eauto.
Qed.

Lemma leave_notice_inv st b d e l x :
  x ∈ flat_map (leave_notice st b d e) l →
  ∃ r conn t, x = Send t (MsgUserLeft (presence conn)) ∧ r ∈ l
    ∧ connHeap st !! r = Some conn ∧ same_user d e conn = true
    ∧ t ∈ ioRoom st b ∧ t ≠ conn_socket conn.
Proof.
  intros (r & Hr & Hx)%elem_of_flat_map. unfold leave_notice in Hx.
  destruct (connHeap st !! r) as [conn|] eqn:Hconn; [|by apply elem_of_nil in Hx].
  destruct (same_user d e conn) eqn:Hsame; [|by apply elem_of_nil in Hx].
  apply elem_of_emit_others in Hx as (t & -> & Ht & Hne).
  exists r, conn, t. eauto 10.
Qed.

Lemma evicted_not_survivor st b d e c conn :
  connHeap st !! c = Some conn → same_user d e conn = true →
  c ∉ survivors st b d e.
Proof.
  intros Hconn Hsame [_ Hm]%survivors_elem. unfold matches in Hm.
  by rewrite Hconn, Hsame in Hm.
Qed.

(** C3, amended. In a well-formed state (as every reachable state is),
    every transition, and so every join, preserves the identity
    invariant of each room: at most one connection per non-empty resolved
    user id, and at most one per non-empty email among the connections
    without resolved user id.  A join that shares its identity with a
    connection of the room removes that connection from the set and sends
    [user-left] for it to the rest of the Socket.IO room; these notices
    precede everything the join emits for the new connection, which is in
    the set afterwards. *)
Theorem join_keeps_identities_unique st :
  well_formed st →
  (∀ ev b, unique_identity st b → unique_identity (step ev st).1 b)
  ∧ ∀ s b data acc yDoc index c conn,
      c ∈ room st b → connHeap st !! c = Some conn →
      shares_identity (dbUserId acc) (jd_userEmail data) conn →
      let '(st', out) := join_finish s b data acc yDoc index st in
      ((c ∉ room st' b)
       ∧ (nextRef st ∈ room st' b)
       ∧ ∃ leaves,
           out = leaves ++ welcome s b data acc yDoc index st'
           ∧ ∀ t, t ∈ ioRoom st b → t ≠ conn_socket conn →
               Send t (MsgUserLeft (presence conn)) ∈ leaves).
Proof.
  intros Hwf. split; [intros ev b; by apply unique_identity_step|].
  intros s b data acc yDoc index c conn Hc Hconn Hshare.
  destruct Hwf as (Hrefs & Hrec & _).
  pose proof (shares_identity_same_user st _ _ c conn Hrec Hconn Hshare) as Hsame.
  pose proof (join_finish_state s b data acc yDoc index st) as Hst.
  pose proof (join_finish_output s b data acc yDoc index st Hrefs) as Hout.
  destruct (join_finish _ _ _ _ _ _ _) as [st' out]. simpl in Hst, Hout. subst st'.
  rewrite entered_room by done. rewrite decide_True by done.
  split_and!.
  - rewrite elem_of_app, list_elem_of_singleton. intros [Hs| ->].
    + by apply (evicted_not_survivor st b _ _ c conn Hconn Hsame).
    + by apply (nextRef_not_in_room st b).
  - rewrite elem_of_app, list_elem_of_singleton. by right.
  - eexists. split; [exact Hout|].
    intros t Ht Hne. by apply (leave_notice_sent st b _ _ c conn).
Qed.

End Eviction.

Section EmptyEmail.
Import GrowOnlySet PlainRuntime Scenario.

(** C3 as worded fails for an email that is present but empty: the room of
    [b1] holds one visitor with email [""]; a second visitor with the same
    email joins and both stay, neither with a resolved user id. *)
Lemma empty_email_is_not_deduplicated :
  unique_identity_nonnull one_visitor "b1"
  ∧ ¬ unique_identity_nonnull
        (step (JoinBoard "s2" (anonymous "b1" (Some "")) calm) one_visitor).1 "b1".
Proof.
  split.
  - intros c1 c2 conn1 conn2 H1 H2 Hne.
    assert (room one_visitor "b1" = [1%nat]) as Hroom by (vm_compute; done).
    rewrite Hroom in H1, H2.
    apply list_elem_of_singleton in H1, H2. congruence.
  - intros H.
    set (st := (step (JoinBoard "s2" (anonymous "b1" (Some "")) calm) one_visitor).1) in *.
    assert (room st "b1" = [1%nat; 2%nat]) as Hroom by (vm_compute; done).
    assert (∃ conn1 conn2, connHeap st !! 1%nat = Some conn1
              ∧ connHeap st !! 2%nat = Some conn2
              ∧ conn_dbUserId conn1 = None ∧ conn_dbUserId conn2 = None
              ∧ conn_userEmail conn1 = Some "" ∧ conn_userEmail conn2 = Some "")
      as (conn1 & conn2 & Hc1 & Hc2 & Hd1 & Hd2 & He1 & He2).
    { vm_compute. eauto 10. }
    destruct (H 1%nat 2%nat conn1 conn2) as [_ Hemail];
      [rewrite Hroom; set_solver | rewrite Hroom; set_solver | done | done | done |].
    apply Hemail; [done|done|by rewrite He1|congruence].
Qed.

End EmptyEmail.

Section Rosters.
Context `{Engine : DocEngine} `{Runtime : JsRuntime}.
Implicit Types (st : ServerState) (out : list Effect).

Lemma rosters_of_nil st : rosters_of st [].
Proof. intros t us Hin. by apply elem_of_nil in Hin. Qed.

Lemma rosters_of_app st out1 out2 :
  rosters_of st out1 → rosters_of st out2 → rosters_of st (out1 ++ out2).
Proof. intros H1 H2 t us [Hin|Hin]%elem_of_app; eauto. Qed.

Lemma rosters_of_logs st out :
  (∀ x, x ∈ out → ∃ l, x = Console l) → rosters_of st out.
Proof. intros Hlogs t us Hin. by destruct (Hlogs _ Hin). Qed.

Lemma load_persisted_output r b fails st :
  (load_persisted r b fails st).2 = []
  ∨ (load_persisted r b fails st).2 = [Console LogLoadError].
Proof.
  unfold load_persisted.
  repeat match goal with
  | |- context [if ?c then _ else _] => destruct c
  | |- context [match ?x with Some _ => _ | None => _ end] => destruct x
  | |- context [match ?x with Applied _ _ => _ | Threw _ => _ end] => destruct x
  end; simpl; auto.
Qed.

Lemma load_persisted_logs r b fails st :
  ∀ x, x ∈ (load_persisted r b fails st).2 → ∃ l, x = Console l.
Proof.
  intros x. destruct (load_persisted_output r b fails st) as [-> | ->].
  - intros Hx. by apply elem_of_nil in Hx.
  - intros Hx. apply list_elem_of_singleton in Hx. eauto.
Qed.

Lemma rosters_of_welcome s b data acc yDoc index st :
  rosters_of st (welcome s b data acc yDoc index st).
Proof.
  intros t us. unfold welcome, emit. unfold_elem.
  rewrite elem_of_emit_others. intros Hx. split_cases Hx.
  injection Hx as _ ->. eauto.
Qed.

Lemma rosters_of_leaves st' st b d e l :
  rosters_of st' (flat_map (leave_notice st b d e) l).
Proof.
  intros t us (r & conn & t' & Hx & _)%leave_notice_inv. discriminate Hx.
Qed.

Lemma rosters_of_join_finish s b data acc yDoc index st :
  rosters_of (join_finish s b data acc yDoc index st).1
             (join_finish s b data acc yDoc index st).2.
Proof.
  rewrite join_finish_spec. simpl.
  apply rosters_of_app; [apply rosters_of_leaves | apply rosters_of_welcome].
Qed.

Lemma rosters_of_join_continue j env st :
  rosters_of (join_continue j env st).1 (join_continue j env st).2.
Proof.
  unfold join_continue.
  pose proof (load_persisted_logs (sj_doc j) (sj_boardId j) (loadFails env) st) as Hl.
  destruct (load_persisted _ _ _ _) as [st1 logs].
  pose proof (rosters_of_join_finish (sj_socket j) (sj_boardId j) (sj_data j)
                (sj_access j) (sj_doc j) (colorIndex env)
                (install_doc (sj_doc j) (sj_boardId j) st1)) as Hf.
  destruct (join_finish _ _ _ _ _ _ _) as [st3 out]. simpl in *.
  apply rosters_of_app; [by apply rosters_of_logs | done].
Qed.

Lemma rosters_of_error st s msg : rosters_of st (emit s (MsgError msg)).
Proof.
  intros t us Hin. apply list_elem_of_singleton in Hin. discriminate Hin.
Qed.

Lemma rosters_of_join_begin s data env st :
  match join_begin s data env st with
  | Finished st' out => rosters_of st' out
  | AwaitingLoad st' out _ => ∀ st'', rosters_of st'' out
  end.
Proof.
  unfold join_begin.
  destruct (negb (truthy (jd_boardId data))); [apply rosters_of_error|].
  pose proof (verifyAccess_only_logs (db st) env (default "" (jd_boardId data))
                (jd_userId data)) as Hlogs.
  destruct (verifyAccess _ _ _ _) as [acc logs]. simpl in Hlogs.
  destruct (negb (hasAccess acc)).
  { apply rosters_of_app; [by apply rosters_of_logs | apply rosters_of_error]. }
  set (b := default "" (jd_boardId data)).
  destruct (boardDocs (socket_join s b st) !! b) as [yDoc|].
  - pose proof (rosters_of_join_finish s b data acc yDoc (colorIndex env)
                  (socket_join s b st)) as Hf.
    destruct (join_finish _ _ _ _ _ _ _) as [st3 out]. simpl in *.
    apply rosters_of_app; [by apply rosters_of_logs | done].
  - destruct (alloc_doc _) as [st2 yDoc]. intros st''. by apply rosters_of_logs.
Qed.

(** The role shown in a roster is read from the socket; changes to a
    socket that keep its role keep every roster. *)
Lemma roster_update_socket s f st refs :
  (∀ ss, sock_userRole (f ss) = sock_userRole ss) →
  roster (update_socket s f st) refs = roster st refs.
Proof.
  intros Hf. unfold roster.
  induction refs as [|r refs IH]; [done|]. cbn [omap list_omap].
  rewrite IH. simpl connHeap.
  destruct (connHeap st !! r) as [conn|]; [|done]. simpl. f_equal.
  unfold rosterEntry. f_equal.
  destruct (decide (s = conn_socket conn)) as [->|Hne].
  - by rewrite socketState_update_socket, Hf.
  - by rewrite socketState_update_socket_ne.
Qed.

Lemma rosters_of_on_disconnect s st :
  rosters_of (on_disconnect s st).1 (on_disconnect s st).2.
Proof.
  unfold on_disconnect.
  destruct (clientConnection (socketState st s)) as [c|]; [|apply rosters_of_nil].
  destruct (connHeap st !! c) as [conn|]; [|apply rosters_of_nil]. simpl.
  set (st1 := remove_connection c (conn_boardId conn) st).
  intros t us. unfold_elem.
  rewrite elem_of_emit_others, elem_of_emit_room. intros Hx. split_cases Hx.
  injection Hx as _ ->. exists (conn_boardId conn).
  rewrite roster_update_socket by (by intros []). done.
Qed.

Lemma rosters_of_step ev st : rosters_of (step ev st).1 (step ev st).2.
Proof.
  destruct ev; simpl; unfold on_socket;
    try (destruct (is_connected st s); [|apply rosters_of_nil]).
  - apply rosters_of_nil.
  - unfold join_board. pose proof (rosters_of_join_begin s data env st) as Hb.
    destruct (join_begin s data env st) as [st1 out|st1 out j]; [done|].
    pose proof (rosters_of_join_continue j env st1) as Hc.
    destruct (join_continue j env st1) as [st2 out2]. simpl in *.
    by apply rosters_of_app.
  - unfold join_start. pose proof (rosters_of_join_begin s data env st) as Hb.
    destruct (join_begin s data env st) as [st1 out|st1 out j]; [done|].
    simpl. apply Hb.
  - unfold join_resume. destruct (suspended st !! k) as [j|]; [|apply rosters_of_nil].
    apply rosters_of_join_continue.
  - unfold sync_state.
    destruct (clientConnection (socketState st s)) as [c|]; [|apply rosters_of_nil].
    destruct (connHeap st !! c) as [conn|]; [|apply rosters_of_nil].
    destruct (boardDocs st !! conn_boardId conn) as [yDoc|]; [|apply rosters_of_nil].
    destruct state as [bytes|]; [|apply rosters_of_nil].
    destruct (apply_update _ _ _ _) as [st1 []]; simpl; [|apply rosters_of_nil].
    intros t us Hin. apply list_elem_of_singleton in Hin. discriminate Hin.
  - unfold board_update.
    destruct (clientConnection (socketState st s)) as [c|]; [|apply rosters_of_nil].
    destruct (connHeap st !! c) as [conn|]; [|apply rosters_of_nil].
    destruct (boardDocs st !! conn_boardId conn) as [yDoc|]; [|apply rosters_of_nil].
    destruct update as [numbers|]; [|apply rosters_of_nil].
    destruct (apply_update _ _ _ _) as [st1 []]; simpl.
    + intros t us Hin. apply list_elem_of_singleton in Hin. discriminate Hin.
    + intros t us (t' & Hx & _)%elem_of_emit_room. discriminate Hx.
  - unfold cursor_move.
    destruct (clientConnection (socketState st s)) as [c|]; [|apply rosters_of_nil].
    destruct (connHeap st !! c) as [conn|]; [|apply rosters_of_nil].
    destruct (cursor_rejected data); [apply rosters_of_nil|]. simpl.
    intros t us (t' & Hx & _)%elem_of_emit_others. discriminate Hx.
  - unfold awareness_update.
    destruct (clientConnection (socketState st s)) as [c|]; [|apply rosters_of_nil].
    destruct (connHeap st !! c) as [conn|]; [|apply rosters_of_nil]. simpl.
    intros t us (t' & Hx & _)%elem_of_emit_others. discriminate Hx.
  - unfold disconnect. apply rosters_of_on_disconnect.
  - unfold write_done.
    destruct (pendingWrites st !! k) as [w|]; [|apply rosters_of_nil].
    destruct fails; simpl.
    + intros t us Hin. apply list_elem_of_singleton in Hin. discriminate Hin.
    + destruct (boards (db st) !! pw_boardId w); simpl; [apply rosters_of_nil|].
      intros t us Hin. apply list_elem_of_singleton in Hin. discriminate Hin.
Qed.

End Rosters.

Section JoinTail.
Context `{Engine : DocEngine} `{Runtime : JsRuntime}.
Implicit Types (st : ServerState).

Lemma same_connections_refl st : same_connections st st.
Proof. by repeat split. Qed.

Lemma same_connections_trans st1 st2 st3 :
  same_connections st1 st2 → same_connections st2 st3 → same_connections st1 st3.
Proof.
  intros (B1 & H1 & S1 & N1) (B2 & H2 & S2 & N2).
  repeat split; [congruence..|lia].
Qed.

Lemma same_connections_quiet st st' : same_connections st st' → quiet st st'.
Proof. intros (B & H & S & N). by apply quiet_frame. Qed.

Lemma same_connections_socket_join s b st : same_connections st (socket_join s b st).
Proof. unfold socket_join. destruct (bool_decide _); by repeat split. Qed.

Lemma same_connections_alloc_doc st : same_connections st (alloc_doc st).1.
Proof. repeat split. simpl. lia. Qed.

Lemma same_connections_load_persisted r b fails st :
  same_connections st (load_persisted r b fails st).1.
Proof.
  unfold load_persisted.
  repeat match goal with
  | |- context [if ?c then _ else _] => destruct c
  | |- context [match ?x with Some _ => _ | None => _ end] => destruct x
  | |- context [match ?x with Applied _ _ => _ | Threw _ => _ end] => destruct x
  end; by repeat split.
Qed.

Lemma same_connections_install_doc r b st : same_connections st (install_doc r b st).
Proof. unfold install_doc. simpl. destruct (docHeap st !! r); by repeat split. Qed.

Lemma ioRooms_load_persisted r b fails st :
  ioRooms (load_persisted r b fails st).1 = ioRooms st.
Proof.
  unfold load_persisted.
  repeat match goal with
  | |- context [if ?c then _ else _] => destruct c
  | |- context [match ?x with Some _ => _ | None => _ end] => destruct x
  | |- context [match ?x with Applied _ _ => _ | Threw _ => _ end] => destruct x
  end; done.
Qed.

Lemma ioRooms_install_doc r b st : ioRooms (install_doc r b st) = ioRooms st.
Proof. unfold install_doc. simpl. by destruct (docHeap st !! r). Qed.

Lemma ioRoom_socket_join s b st t b' :
  t ∈ ioRoom st b' → t ∈ ioRoom (socket_join s b st) b'.
Proof.
  unfold socket_join. destruct (bool_decide _); [done|].
  unfold ioRoom at 2. simpl. destruct (decide (b = b')) as [->|Hne].
  - rewrite lookup_insert_eq. simpl. intros Ht. apply elem_of_app. by left.
  - by rewrite lookup_insert_ne.
Qed.

(** Every granted [join-board], run without interleaving, ends with
    [join_finish] in a state that has the connections and sockets of the
    state it started in and at least its Socket.IO rooms; what it emits before
    is console output. *)
Lemma granted_join_ends_in_join_finish s data env st b :
  jd_boardId data = Some b → b ≠ "" →
  hasAccess (verifyAccess (db st) env b (jd_userId data)).1 = true →
  ∃ st1 yDoc logs,
    same_connections st st1
    ∧ (∀ t, t ∈ ioRoom st b → t ∈ ioRoom st1 b)
    ∧ (∀ x, x ∈ logs → ∃ l, x = Console l)
    ∧ join_board s data env st =
        ((join_finish s b data (verifyAccess (db st) env b (jd_userId data)).1
            yDoc (colorIndex env) st1).1,
         logs ++ (join_finish s b data (verifyAccess (db st) env b (jd_userId data)).1
                    yDoc (colorIndex env) st1).2).
Proof.
  intros Hb Hne Hacc. apply truthy_Some in Hne.
  unfold join_board, join_begin. rewrite Hb, Hne. simpl default. simpl negb.
  pose proof (verifyAccess_only_logs (db st) env b (jd_userId data)) as Hlogs.
  destruct (verifyAccess _ _ _ _) as [acc logs]. simpl in Hacc, Hlogs. rewrite Hacc.
  simpl negb.
  pose proof (same_connections_socket_join s b st) as Hj.
  destruct (boardDocs (socket_join s b st) !! b) as [yDoc|].
  - exists (socket_join s b st), yDoc, logs. split_and!; try done.
    + intros t. apply ioRoom_socket_join.
    + by destruct (join_finish _ _ _ _ _ _ _).
  - pose proof (same_connections_alloc_doc (socket_join s b st)) as Ha.
    destruct (alloc_doc _) as [st2 yDoc] eqn:Halloc.
    unfold join_continue. simpl in *.
    pose proof (same_connections_load_persisted yDoc b (loadFails env) st2) as Hl.
    pose proof (load_persisted_logs yDoc b (loadFails env) st2) as Hll.
    destruct (load_persisted _ _ _ _) as [st3 logs3] eqn:Hload. simpl in *.
    exists (install_doc yDoc b st3), yDoc, (logs ++ logs3). split_and!.
    + eauto using same_connections_trans, same_connections_install_doc.
    + intros t Ht%(ioRoom_socket_join s b).
      assert (ioRooms (install_doc yDoc b st3) = ioRooms (socket_join s b st)) as Hio.
      { rewrite ioRooms_install_doc.
        replace st3 with (load_persisted yDoc b (loadFails env) st2).1
          by (by rewrite Hload).
        rewrite ioRooms_load_persisted.
        unfold alloc_doc in Halloc. by injection Halloc as <- _. }
      unfold ioRoom. by rewrite Hio.
    + intros x [Hx|Hx]%elem_of_app; eauto.
    + destruct (join_finish _ _ _ _ _ _ _). by rewrite <- app_assoc.
Qed.

End JoinTail.

Section Replacement.
Context `{Engine : DocEngine} `{Runtime : JsRuntime}.
Implicit Types (st : ServerState) (out : list Effect).

Lemma absent_quiet a st st' : quiet st st' → absent a st → absent a st'.
Proof.
  intros [R H K N C] [Hlt Hout]. split; [lia|].
  intros b Hin%R. by apply (Hout b).
Qed.

Lemma absent_entered a s b data acc index st :
  refs_allocated st → absent a st → absent a (entered s b data acc index st).
Proof.
  intros Hwf [Hlt Hout]. split; [rewrite entered_nextRef; lia|].
  intros b'. rewrite entered_room by done.
  destruct (decide (b = b')) as [->|Hne]; [|apply Hout].
  rewrite elem_of_app, survivors_elem, list_elem_of_singleton.
  intros [[Hin _]| ->]; [by apply (Hout b')|lia].
Qed.

Lemma absent_step a ev st :
  well_formed st → absent a st → absent a (step ev st).1.
Proof.
  intros Hwf Ha.
  destruct (step_shape_step ev st) as [Hq|st1 s b data acc index Hq -> _].
  - eauto using absent_quiet.
  - apply absent_entered; [|eauto using absent_quiet].
    by apply (well_formed_quiet st st1).
Qed.

Lemma absent_run a evs st :
  well_formed st → absent a st →
  well_formed (run evs st).1 ∧ absent a (run evs st).1.
Proof.
  revert st. induction evs as [|ev evs IH]; intros st Hwf Ha; [done|].
  simpl. pose proof (well_formed_step ev st Hwf) as Hwf1.
  pose proof (absent_step a ev st Hwf Ha) as Ha1.
  destruct (step ev st) as [st1 out1]. simpl in *.
  specialize (IH st1 Hwf1 Ha1).
  by destruct (run evs st1) as [st2 out2].
Qed.

Lemma precedes_app x y out1 out2 :
  x ∈ out1 → y ∈ out2 → precedes x y (out1 ++ out2).
Proof.
  intros (l1 & l2 & ->)%list_elem_of_split (w1 & w2 & ->)%list_elem_of_split.
  exists l1, (l2 ++ w1), w2. by rewrite <- !app_assoc.
Qed.

Lemma welcome_joined s b data acc yDoc index st' t :
  t ∈ ioRoom st' b → t ≠ s →
  Send t (MsgUserJoined
            (presence (new_connection s b data acc (getRandomColor index)))
            (getRandomColor index) (userRole acc))
    ∈ welcome s b data acc yDoc index st'.
Proof.
  intros Ht Hne. unfold welcome. unfold_elem. right. right. left.
  apply elem_of_emit_others. eauto.
Qed.

Lemma welcome_roster s b data acc yDoc index st' :
  Send s (MsgActiveUsers (roster st' (room st' b)))
    ∈ welcome s b data acc yDoc index st'.
Proof. unfold welcome, emit. unfold_elem. tauto. Qed.

(** C4. Connection [a] is in the room of board [b] and a join with the
    same identity reaches line 159.  Afterwards [a] is not in the board's set; the
    [active-users] list sent to the joiner, like every such list sent in this
    or any later transition, is the projection of a connection set that does
    not contain [a]; and every socket of the Socket.IO room other than the
    two involved is sent [user-left] for [a] before [user-joined] for the
    new connection. *)
Theorem same_identity_join_replaces_connection st s b data acc yDoc index a connA :
  well_formed st →
  a ∈ room st b →
  connHeap st !! a = Some connA →
  shares_identity (dbUserId acc) (jd_userEmail data) connA →
  let '(st', out) := join_finish s b data acc yDoc index st in
  let joined :=
    MsgUserJoined (presence (new_connection s b data acc (getRandomColor index)))
                  (getRandomColor index) (userRole acc) in
  (a ∉ room st' b)
  ∧ (Send s (MsgActiveUsers (roster st' (room st' b))) ∈ out)
  ∧ (∀ t us, Send t (MsgActiveUsers us) ∈ out →
       ∃ b', us = roster st' (room st' b') ∧ a ∉ room st' b')
  ∧ (∀ t, t ∈ ioRoom st b → t ≠ conn_socket connA → t ≠ s →
       precedes (Send t (MsgUserLeft (presence connA))) (Send t joined) out)
  ∧ (∀ evs ev t us,
       let st1 := (run evs st').1 in
       Send t (MsgActiveUsers us) ∈ (step ev st1).2 →
       ∃ b', us = roster (step ev st1).1 (room (step ev st1).1 b')
             ∧ a ∉ room (step ev st1).1 b').
Proof.
  intros Hwf Ha Hconn Hshare.
  pose proof Hwf as (Hrefs & Hrec & Hrooms).
  pose proof (shares_identity_same_user st _ _ a connA Hrec Hconn Hshare) as Hsame.
  pose proof (join_finish_state s b data acc yDoc index st) as Hst.
  pose proof (join_finish_output s b data acc yDoc index st Hrefs) as Hout.
  pose proof (rosters_of_join_finish s b data acc yDoc index st) as Hros.
  destruct (join_finish _ _ _ _ _ _ _) as [st' out]. simpl in Hst, Hout, Hros.
  rewrite <- Hst in Hout.
  assert (absent a st') as Habs.
  { subst st'. split.
    - rewrite entered_nextRef. destruct Hrefs as (Hr & _). apply Hr in Ha. lia.
    - intros b'. rewrite entered_room by done.
      destruct (decide (b = b')) as [->|Hne].
      + rewrite elem_of_app, list_elem_of_singleton. intros [Hs| ->].
        * by apply (evicted_not_survivor st b' _ _ a connA Hconn Hsame).
        * by apply (nextRef_not_in_room st b').
      + intros Hin.
        destruct (Hrooms b a Ha) as (c1 & Hc1 & Hb1).
        destruct (Hrooms b' a Hin) as (c2 & Hc2 & Hb2). congruence. }
  assert (well_formed st') as Hwf' by (subst st'; by apply well_formed_entered).
  split_and!.
  - apply Habs.
  - rewrite Hout. apply elem_of_app. right. apply welcome_roster.
  - intros t us (b' & ->)%Hros. exists b'. split; [done|apply Habs].
  - intros t Ht HneA Hnes. rewrite Hout. apply precedes_app.
    + by apply (leave_notice_sent st b _ _ a connA).
    + apply welcome_joined; [|done]. subst st'. by rewrite entered_ioRoom.
  - intros evs ev t us st1 Hin.
    destruct (absent_run a evs st' Hwf' Habs) as [Hwf1 Habs1]. fold st1 in Hwf1, Habs1.
    destruct (rosters_of_step ev st1 t us Hin) as (b' & ->).
    exists b'. split; [done|]. by apply (absent_step a ev st1 Hwf1 Habs1).
Qed.

End Replacement.

Section Lingering.
Context `{Engine : DocEngine} `{Runtime : JsRuntime}.
Implicit Types (st : ServerState) (out : list Effect).

Lemma ioRoom_leave_all s st b :
  ioRoom (leave_all s st) b = List.filter (λ t, negb (String.eqb t s)) (ioRoom st b).
Proof.
  unfold ioRoom, leave_all. simpl. rewrite lookup_fmap.
  by destruct (ioRooms st !! b).
Qed.

(** What the [disconnect] handler announces for the connection its socket
    still points to, whether or not that connection is still in a set. *)
Lemma disconnect_announces s st c conn :
  clientConnection (socketState st s) = Some c →
  connHeap st !! c = Some conn →
  ∀ t, t ∈ ioRoom st (conn_boardId conn) → t ≠ s →
    Send t (MsgUserLeft
              {| p_userId := conn_userId conn; p_userName := conn_userName conn;
                 p_userEmail := conn_userEmail conn; p_socketId := s |})
      ∈ (disconnect s st).2
    ∧ Send t (MsgActiveUsers
                (roster (disconnect s st).1
                        (room (disconnect s st).1 (conn_boardId conn))))
        ∈ (disconnect s st).2.
Proof.
  intros Hcc Hconn t Ht Hne. unfold disconnect.
  set (st0 := update_socket s (set_connected false) (leave_all s st)).
  assert (clientConnection (socketState st0 s) = Some c) as Hcc0.
  { subst st0. rewrite socketState_update_socket. simpl.
    by change (socketState (leave_all s st) s) with (socketState st s). }
  assert (connHeap st0 !! c = Some conn) as Hconn0 by done.
  assert (t ∈ ioRoom st0 (conn_boardId conn)) as Ht0.
  { subst st0.
    change (ioRoom (update_socket s (set_connected false) (leave_all s st))
                   (conn_boardId conn))
      with (ioRoom (leave_all s st) (conn_boardId conn)).
    rewrite ioRoom_leave_all. apply elem_of_filter_bool. split; [|done].
    by destruct (String.eqb_spec t s). }
  clearbody st0. unfold on_disconnect. rewrite Hcc0, Hconn0. simpl.
  set (st1 := remove_connection c (conn_boardId conn) st0).
  assert (ioRoom st1 (conn_boardId conn) = ioRoom st0 (conn_boardId conn)) as Hio.
  { subst st1. unfold remove_connection.
    destruct (boardConnections st0 !! conn_boardId conn); [|done].
    by destruct (bool_decide _). }
  split; unfold_elem.
  - left. apply elem_of_emit_others. rewrite Hio. eauto.
  - right. left. apply elem_of_emit_room. rewrite Hio.
    rewrite roster_update_socket by (by intros []). eauto.
Qed.

Lemma leaves_spare_own_socket st b d e l t p :
  Send t (MsgUserLeft p) ∈ flat_map (leave_notice st b d e) l → p_socketId p ≠ t.
Proof.
  intros (r & conn & t' & Hx & _ & _ & _ & _ & Hne)%leave_notice_inv.
  injection Hx as -> ->. simpl. congruence.
Qed.

Lemma welcome_no_user_left s b data acc yDoc index st' t p :
  Send t (MsgUserLeft p) ∉ welcome s b data acc yDoc index st'.
Proof.
  unfold welcome, emit. unfold_elem. rewrite elem_of_emit_others.
  intros Hx. split_cases Hx.
Qed.

(** C10. A connection [a] that is its socket's current connection is
    evicted by a join from another socket.  The evicted socket keeps its
    state (it stays open and still points to [a]), stays in the Socket.IO
    room, and is sent no [user-left] about itself, while [a] is no longer in
    the board's set.  Whenever that socket disconnects while it still points
    to [a], the handler sends the rest of the room a [user-left] for [a]
    again, after the one sent at eviction, and a fresh [active-users]
    list. *)
Theorem evicted_connection_lingers st s b data acc yDoc index a connA :
  well_formed st →
  a ∈ room st b →
  connHeap st !! a = Some connA →
  clientConnection (socketState st (conn_socket connA)) = Some a →
  shares_identity (dbUserId acc) (jd_userEmail data) connA →
  conn_socket connA ≠ s →
  let sA := conn_socket connA in
  let '(st', out) := join_finish s b data acc yDoc index st in
  socketState st' sA = socketState st sA
  ∧ ioRoom st' b = ioRoom st b
  ∧ connHeap st' !! a = Some connA
  ∧ (a ∉ room st' b)
  ∧ (∀ p, Send sA (MsgUserLeft p) ∈ out → p_socketId p ≠ sA)
  ∧ (∀ t, t ∈ ioRoom st b → t ≠ sA →
       Send t (MsgUserLeft (presence connA)) ∈ out)
  ∧ (∀ st2 conn2,
       clientConnection (socketState st2 sA) = Some a →
       connHeap st2 !! a = Some conn2 →
       same_identity connA conn2 →
       ∀ t, t ∈ ioRoom st2 b → t ≠ sA →
         Send t (MsgUserLeft (presence connA)) ∈ (disconnect sA st2).2
         ∧ Send t (MsgActiveUsers
                     (roster (disconnect sA st2).1 (room (disconnect sA st2).1 b)))
             ∈ (disconnect sA st2).2).
Proof.
  intros Hwf Ha Hconn Hcc Hshare Hne sA.
  pose proof Hwf as (Hrefs & Hrec & Hrooms).
  pose proof (shares_identity_same_user st _ _ a connA Hrec Hconn Hshare) as Hsame.
  pose proof (join_finish_state s b data acc yDoc index st) as Hst.
  pose proof (join_finish_output s b data acc yDoc index st Hrefs) as Hout.
  destruct (join_finish _ _ _ _ _ _ _) as [st' out]. simpl in Hst, Hout.
  rewrite <- Hst in Hout.
  assert (conn_boardId connA = b) as Hboard.
  { destruct (Hrooms b a Ha) as (c & Hc & Hb). congruence. }
  split_and!.
  - subst st'. by apply entered_socketState_ne.
  - subst st'. apply entered_ioRoom.
  - subst st'. rewrite entered_heap. rewrite lookup_insert_ne; [done|].
    intros <-. by apply (nextRef_not_in_room st b).
  - subst st'. rewrite entered_room by done. rewrite decide_True by done.
    rewrite elem_of_app, list_elem_of_singleton. intros [Hs| ->].
    + by apply (evicted_not_survivor st b _ _ a connA Hconn Hsame).
    + by apply (nextRef_not_in_room st b).
  - intros p. rewrite Hout. intros [Hin|Hin]%elem_of_app.
    + by apply leaves_spare_own_socket in Hin.
    + by apply welcome_no_user_left in Hin.
  - intros t Ht HneA. rewrite Hout. apply elem_of_app. left.
    by apply (leave_notice_sent st b _ _ a connA).
  - intros st2 conn2 Hcc2 Hconn2 (Hsock & Hb2 & Hu & Hn & He & _) t Ht HneA.
    pose proof (disconnect_announces sA st2 a conn2 Hcc2 Hconn2 t) as Hd.
    rewrite <- Hb2, Hboard in Hd. destruct (Hd Ht HneA) as [Hleft Hroster].
    split; [|done].
    unfold presence. fold sA. by rewrite Hu, Hn, He.
Qed.

End Lingering.

Section Unjoined.
Context `{Engine : DocEngine} `{Runtime : JsRuntime}.
Implicit Types (st : ServerState).

(** A socket's [clientConnection] is set only by the end of a join on that
    socket. *)
Lemma step_keeps_null_connection ev st s :
  clientConnection (socketState st s) = None →
  ¬ completed_join s (step ev st).2 →
  clientConnection (socketState (step ev st).1 s) = None.
Proof.
  intros Hnull Hnot.
  destruct (clientConnection (socketState (step ev st).1 s)) as [c|] eqn:Hc; [|done].
  exfalso.
  destruct (step_shape_step ev st) as [Hq|st1 s' b data acc index Hq Hst Hrole].
  - apply (quiet_client _ _ Hq) in Hc. congruence.
  - rewrite Hst in Hc. destruct (decide (s' = s)) as [->|Hne].
    + apply Hnot. by exists (userRole acc).
    + rewrite entered_socketState_ne in Hc by done.
      apply (quiet_client _ _ Hq) in Hc. congruence.
Qed.

Lemma run_keeps_null_connection evs st s :
  clientConnection (socketState st s) = None →
  ¬ completed_join s (run evs st).2 →
  clientConnection (socketState (run evs st).1 s) = None.
Proof.
  revert st. induction evs as [|ev evs IH]; intros st Hnull Hnot; [done|].
  simpl in *.
  pose proof (step_keeps_null_connection ev st s Hnull) as Hstep.
  destruct (step ev st) as [st1 out1]. simpl in *.
  specialize (IH st1).
  destruct (run evs st1) as [st2 out2]. simpl in *.
  apply IH.
  - apply Hstep. intros [role Hin]. apply Hnot. exists role.
    apply elem_of_app. by left.
  - intros [role Hin]. apply Hnot. exists role. apply elem_of_app. by right.
Qed.

(** C9. On a socket on which no join has completed since the server
    started (no [user-role], the message that closes a successful join, was
    ever sent to it), a [sync-state], [board-update], [cursor-move] or
    [awareness-update] leaves the whole server state as it was (rooms,
    documents, database, outstanding writes) and emits nothing. *)
Theorem unjoined_socket_messages_are_ignored (d : Database) (evs : list Event)
    (s : string) (ev : Event) :
  ¬ completed_join s (run evs (initial d)).2 →
  room_message s ev →
  step ev (run evs (initial d)).1 = ((run evs (initial d)).1, []).
Proof.
  intros Hnot Hev. apply (null_connection_ignores_messages _ s); [|done].
  apply run_keeps_null_connection; [|done].
  unfold socketState. simpl. by rewrite lookup_empty.
Qed.

End Unjoined.

Section Generalities.
Context `{Engine : DocEngine} `{Runtime : JsRuntime}.
Implicit Types (st : ServerState).

(** Whatever the engine, the write issued for an applied update carries
    the bytes of the ['update'] event. *)
Lemma apply_update_schedules_event r o update d' bytes b now st :
  docHeap st !! r = Some o →
  applyUpdate (doc_state o) update = Applied d' (Some bytes) →
  doc_listener o = Some b →
  pendingWrites (apply_update r update now st).1 =
    pendingWrites st ++
      [{| pw_boardId := b; pw_yDocState := bytes; pw_lastModified := now |}].
Proof.
  intros Hr Happ Hl. unfold apply_update. by rewrite Hr, Happ, Hl.
Qed.

Lemma write_done_stores_bytes k w board st :
  pendingWrites st !! k = Some w →
  boards (db st) !! pw_boardId w = Some board →
  snapshot_of (write_done k false st).1 (pw_boardId w) = Some (pw_yDocState w).
Proof.
  intros Hk Hb. unfold write_done, snapshot_of. rewrite Hk, Hb. simpl.
  by rewrite lookup_insert_eq.
Qed.

(** Whatever the engine, an update it rejects makes [board-update] end in
    an uncaught exception, with nothing logged and nothing broadcast. *)
Lemma board_update_rejected s c conn yDoc o numbers d' now st :
  clientConnection (socketState st s) = Some c →
  connHeap st !! c = Some conn →
  boardDocs st !! conn_boardId conn = Some yDoc →
  docHeap st !! yDoc = Some o →
  applyUpdate (doc_state o) (Uint8Array numbers) = Threw d' →
  (board_update s (Some numbers) now st).2 = [Uncaught].
Proof.
  intros Hcc Hc Hd Ho Happ. unfold board_update, apply_update.
  by rewrite Hcc, Hc, Hd, Ho, Happ.
Qed.

(** The guard of [cursor-move] lets every pair of finite numbers through
    and drops what it rejects without a trace. *)
Lemma cursor_guard_accepts_finite data :
  finite_number (cursor_x data) = true → finite_number (cursor_y data) = true →
  cursor_rejected data = false.
Proof.
  unfold cursor_rejected, finite_number, isNaN.
  destruct (cursor_x data) as [| | |[]| |], (cursor_y data) as [| | |[]| |]; done.
Qed.

Lemma cursor_move_rejected s data st :
  cursor_rejected data = true → cursor_move s data st = (st, []).
Proof.
  intros Hrej. unfold cursor_move.
  destruct (clientConnection (socketState st s)) as [c|]; [|done].
  destruct (connHeap st !! c); [|done]. by rewrite Hrej.
Qed.

(** A join that finds a document for the board builds none. *)
Lemma join_with_document s data env st b r :
  jd_boardId data = Some b →
  boardDocs st !! b = Some r →
  docHeap (join_board s data env st).1 = docHeap st
  ∧ boardDocs (join_board s data env st).1 = boardDocs st.
Proof.
  intros Hb Hr. unfold join_board, join_begin. rewrite Hb. simpl default.
  destruct (negb (truthy (Some b))); [done|].
  destruct (verifyAccess _ _ _ _) as [acc logs].
  destruct (negb (hasAccess acc)); [done|].
  assert (boardDocs (socket_join s b st) = boardDocs st) as Hdocs.
  { unfold socket_join. by destruct (bool_decide _). }
  assert (docHeap (socket_join s b st) = docHeap st) as Hheap.
  { unfold socket_join. by destruct (bool_decide _). }
  rewrite Hdocs, Hr.
  pose proof (join_finish_state s b data acc r (colorIndex env) (socket_join s b st)) as Hst.
  destruct (join_finish _ _ _ _ _ _ _) as [st2 out]. simpl in *. subst st2.
  by rewrite <- Hdocs, <- Hheap.
Qed.

End Generalities.

Section Instances.
Import GrowOnlySet PlainRuntime Scenario.

Lemma reachable_run (d0 : Database) (evs : list Event) (st : ServerState) :
  reachable d0 st → reachable d0 (run evs st).1.
Proof.
  revert st. induction evs as [|ev evs IH]; intros st Hst; [done|].
  simpl. pose proof (reachable_step d0 st ev Hst) as H1.
  destruct (step ev st) as [st1 out1]. simpl in H1.
  specialize (IH st1 H1). by destruct (run evs st1).
Qed.

Lemma scenario_ids_nonempty : ids_nonempty database.
Proof.
  intros uid u. unfold database. simpl.
  rewrite !lookup_insert_Some, lookup_singleton_Some.
  intros [[<- <-]|[_ [[<- <-]|[_ [<- <-]]]]]; done.
Qed.

Lemma before_entering_well_formed : well_formed before_entering.
Proof.
  apply (well_formed_quiet _ _ (quiet_socket_join _ _ _)).
  apply (reachable_well_formed database), reachable_run, reachable_initial.
Qed.

Lemma unjoined_socket_messages_are_ignored_witness :
  ¬ completed_join "s1" (run other_joined (initial database)).2
  ∧ step (BoardUpdate "s1" (Some [1; 4]) 7) (run other_joined (initial database)).1
    = ((run other_joined (initial database)).1, []).
Proof.
  assert (¬ completed_join "s1" (run other_joined (initial database)).2) as Hnot.
  { intros [role H]. vm_compute in H.
    repeat (apply elem_of_cons in H as [H|H]; [discriminate H|]).
    by apply elem_of_nil in H. }
  split; [exact Hnot|].
  apply (unjoined_socket_messages_are_ignored database other_joined "s1" _ Hnot).
  reflexivity.
Defined.

Lemma join_access_resolution_witness :
  ids_nonempty database
  ∧ decision (verifyAccess database calm "b2" (Some "fb-editor")).1 = Permitted "editor"
  ∧ decision (verifyAccess database calm "b2" (Some "fb-other")).1 = NotPermitted.
Proof.
  split; [exact scenario_ids_nonempty|]. split.
  - exact (proj1 (join_access_resolution (initial database) "s1"
             (as_user "b2" "fb-editor" "Ed") calm "b2"
             scenario_ids_nonempty eq_refl ltac:(discriminate))).
  - exact (proj1 (join_access_resolution (initial database) "s1"
             (as_user "b2" "fb-other" "Otto") calm "b2"
             scenario_ids_nonempty eq_refl ltac:(discriminate))).
Defined.


Lemma join_keeps_identities_unique_witness :
  well_formed before_entering
  ∧ 1%nat ∉ room (join_finish "s3" "b2" owner_again owner_access 0 3 before_entering).1 "b2".
Proof.
  split; [exact before_entering_well_formed|].
  pose proof (proj2 (join_keeps_identities_unique before_entering
                       before_entering_well_formed)
                "s3" "b2" owner_again owner_access 0%nat 3%nat 1%nat owner_connection)
    as H.
  destruct (join_finish "s3" "b2" owner_again owner_access 0 3 before_entering)
    as [st' out].
  apply H.
  - vm_compute. apply list_elem_of_here.
  - vm_compute. reflexivity.
  - left. split; reflexivity.
Defined.

Lemma same_identity_join_replaces_connection_witness :
  well_formed before_entering
  ∧ precedes
      (Send "s2" (MsgUserLeft (presence owner_connection)))
      (Send "s2"
         (MsgUserJoined
            (presence (new_connection "s3" "b2" owner_again owner_access
                         (getRandomColor 3)))
            (getRandomColor 3) "owner"))
      (join_finish "s3" "b2" owner_again owner_access 0 3 before_entering).2.
Proof.
  split; [exact before_entering_well_formed|].
  assert (1%nat ∈ room before_entering "b2") as Hin
    by (vm_compute; apply list_elem_of_here).
  assert (connHeap before_entering !! 1%nat = Some owner_connection) as Hheap
    by (vm_compute; reflexivity).
  assert (shares_identity (dbUserId owner_access) (jd_userEmail owner_again)
            owner_connection) as Hshare
    by (left; split; reflexivity).
  pose proof (same_identity_join_replaces_connection before_entering
                "s3" "b2" owner_again owner_access 0%nat 3%nat 1%nat owner_connection
                before_entering_well_formed Hin Hheap Hshare) as H.
  destruct (join_finish "s3" "b2" owner_again owner_access 0 3 before_entering)
    as [st' out].
  destruct H as (_ & _ & _ & H & _).
  apply (H "s2").
  - vm_compute. apply list_elem_of_further, list_elem_of_here.
  - discriminate.
  - discriminate.
Defined.

Lemma evicted_connection_lingers_witness :
  well_formed before_entering
  ∧ conn_socket owner_connection ≠ "s3"
  ∧ Send "s2" (MsgUserLeft (presence owner_connection))
      ∈ (join_finish "s3" "b2" owner_again owner_access 0 3 before_entering).2
  ∧ Send "s2" (MsgUserLeft (presence owner_connection))
      ∈ (disconnect "s1"
           (join_finish "s3" "b2" owner_again owner_access 0 3 before_entering).1).2.
Proof.
  split; [exact before_entering_well_formed|].
  assert (conn_socket owner_connection ≠ "s3") as Hne by discriminate.
  split; [exact Hne|].
  assert (1%nat ∈ room before_entering "b2") as Hin
    by (vm_compute; apply list_elem_of_here).
  assert (connHeap before_entering !! 1%nat = Some owner_connection) as Hheap
    by (vm_compute; reflexivity).
  assert (clientConnection (socketState before_entering (conn_socket owner_connection))
          = Some 1%nat) as Hcc
    by (vm_compute; reflexivity).
  assert (shares_identity (dbUserId owner_access) (jd_userEmail owner_again)
            owner_connection) as Hshare
    by (left; split; reflexivity).
  assert ("s2" ∈ ioRoom before_entering "b2") as Hs2
    by (vm_compute; apply list_elem_of_further, list_elem_of_here).
  pose proof (evicted_connection_lingers before_entering
                "s3" "b2" owner_again owner_access 0%nat 3%nat 1%nat owner_connection
                before_entering_well_formed Hin Hheap Hcc Hshare Hne) as H.
  simpl in H.
  destruct (join_finish "s3" "b2" owner_again owner_access 0 3 before_entering)
    as [st' out].
  destruct H as (Hsock & Hio & Hkeep & _ & _ & Hfirst & Hlater).
  split.
  - apply (Hfirst "s2" Hs2). discriminate.
  - apply (Hlater st' owner_connection).
    + rewrite Hsock. exact Hcc.
    + exact Hkeep.
    + apply same_identity_refl.
    + rewrite Hio. exact Hs2.
    + discriminate.
Defined.

End Instances.

Section Frames2.
Context `{Engine : DocEngine} `{Runtime : JsRuntime}.
Implicit Types (st : ServerState).

Lemma docs_only_refl st : docs_only st st.
Proof. by repeat split. Qed.

Lemma docs_only_trans st1 st2 st3 :
  docs_only st1 st2 → docs_only st2 st3 → docs_only st1 st3.
Proof.
  intros (A1 & B1 & C1 & D1 & E1) (A2 & B2 & C2 & D2 & E2).
  repeat split; congruence.
Qed.

Lemma docs_only_alloc_doc st : docs_only st (alloc_doc st).1.
Proof. by repeat split. Qed.

Lemma docs_only_load_persisted r b fails st :
  docs_only st (load_persisted r b fails st).1.
Proof.
  unfold load_persisted.
  repeat match goal with
  | |- context [if ?c then _ else _] => destruct c
  | |- context [match ?x with Some _ => _ | None => _ end] => destruct x
  | |- context [match ?x with Applied _ _ => _ | Threw _ => _ end] => destruct x
  end; by repeat split.
Qed.

Lemma docs_only_install_doc r b st : docs_only st (install_doc r b st).
Proof. unfold install_doc. simpl. destruct (docHeap st !! r); by repeat split. Qed.

Lemma docs_only_apply_update r u now st : docs_only st (apply_update r u now st).1.
Proof.
  unfold apply_update.
  repeat match goal with
  | |- context [match ?x with Some _ => _ | None => _ end] => destruct x
  | |- context [match ?x with Applied _ _ => _ | Threw _ => _ end] => destruct x
  end; by repeat split.
Qed.

Lemma docs_only_write_done k fails st : docs_only st (write_done k fails st).1.
Proof.
  unfold write_done.
  repeat match goal with
  | |- context [if ?c then _ else _] => destruct c
  | |- context [match ?x with Some _ => _ | None => _ end] => destruct x
  end; by repeat split.
Qed.

Lemma docs_only_sync_state s state now st : docs_only st (sync_state s state now st).1.
Proof.
  unfold sync_state.
  destruct (clientConnection (socketState st s)) as [c|]; [|apply docs_only_refl].
  destruct (connHeap st !! c) as [conn|]; [|apply docs_only_refl].
  destruct (boardDocs st !! conn_boardId conn) as [yDoc|]; [|apply docs_only_refl].
  destruct state as [bytes|]; [|apply docs_only_refl].
  pose proof (docs_only_apply_update yDoc (Uint8Array bytes) now st) as Hq.
  by destruct (apply_update _ _ _ _).
Qed.

Lemma docs_only_board_update s update now st :
  docs_only st (board_update s update now st).1.
Proof.
  unfold board_update.
  destruct (clientConnection (socketState st s)) as [c|]; [|apply docs_only_refl].
  destruct (connHeap st !! c) as [conn|]; [|apply docs_only_refl].
  destruct (boardDocs st !! conn_boardId conn) as [yDoc|]; [|apply docs_only_refl].
  destruct update as [numbers|]; [|apply docs_only_refl].
  pose proof (docs_only_apply_update yDoc (Uint8Array numbers) now st) as Hq.
  by destruct (apply_update _ _ _ _) as [st1 []].
Qed.

Lemma presence_only_refl st : presence_only st st.
Proof. by repeat split. Qed.

Lemma presence_only_trans st1 st2 st3 :
  presence_only st1 st2 → presence_only st2 st3 → presence_only st1 st3.
Proof.
  intros (A1 & B1 & C1 & D1) (A2 & B2 & C2 & D2). repeat split; congruence.
Qed.

Lemma presence_only_cursor_move s data st :
  presence_only st (cursor_move s data st).1.
Proof.
  unfold cursor_move.
  destruct (clientConnection (socketState st s)) as [c|]; [|apply presence_only_refl].
  destruct (connHeap st !! c) as [conn|]; [|apply presence_only_refl].
  destruct (cursor_rejected data); by repeat split.
Qed.

Lemma presence_only_awareness_update s state st :
  presence_only st (awareness_update s state st).1.
Proof.
  unfold awareness_update.
  destruct (clientConnection (socketState st s)) as [c|]; [|apply presence_only_refl].
  destruct (connHeap st !! c) as [conn|]; by repeat split.
Qed.

End Frames2.

Section MessageHandlers.
Context `{Engine : DocEngine} `{Runtime : JsRuntime}.
Implicit Types (st : ServerState).

(** X2. [sync-state] merges and schedules the write exactly as
    [board-update] does with the same bytes, but sends nothing to any
    client. *)
Theorem sync_state_is_a_silent_board_update st s payload now :
  (step (SyncState s payload now) st).1 = (step (BoardUpdate s payload now) st).1
  ∧ ∀ t m, Send t m ∉ (step (SyncState s payload now) st).2.
Proof.
  simpl. unfold on_socket. destruct (is_connected st s).
  2:{ split; [done|]. intros t m Hin. by apply elem_of_nil in Hin. }
  unfold sync_state, board_update.
  destruct (clientConnection (socketState st s)) as [c|];
    [|split; [done|intros t m Hin; by apply elem_of_nil in Hin]].
  destruct (connHeap st !! c) as [conn|];
    [|split; [done|intros t m Hin; by apply elem_of_nil in Hin]].
  destruct (boardDocs st !! conn_boardId conn) as [yDoc|];
    [|split; [done|intros t m Hin; by apply elem_of_nil in Hin]].
  destruct payload as [bytes|];
    [|split; [done|intros t m Hin; by apply elem_of_nil in Hin]].
  destruct (apply_update _ _ _ _) as [st1 []]; simpl; split; try done.
  - intros t m Hin. apply list_elem_of_singleton in Hin. discriminate Hin.
  - intros t m Hin. by apply elem_of_nil in Hin.
Qed.

(** X3. [cursor-move] and [awareness-update] change neither documents nor
    database, outstanding writes or room membership; everything they emit is
    a message to a socket of the sender's board room other than the sender:
    one and the same message, addressed to each of them. *)
Theorem presence_traffic_stays_in_the_room st s c conn ev :
  clientConnection (socketState st s) = Some c →
  connHeap st !! c = Some conn →
  (∃ data, ev = CursorMove s data) ∨ (∃ state, ev = AwarenessUpdate s state) →
  presence_only st (step ev st).1
  ∧ boardConnections (step ev st).1 = boardConnections st
  ∧ ioRooms (step ev st).1 = ioRooms st
  ∧ (∀ e, e ∈ (step ev st).2 →
       ∃ t m, e = Send t m ∧ t ≠ s ∧ t ∈ ioRoom st (conn_boardId conn))
  ∧ ((step ev st).2 = []
     ∨ ∃ m, (step ev st).2 =
              (λ t, Send t m) <$>
                List.filter (λ t, negb (String.eqb t s)) (ioRoom st (conn_boardId conn))).
Proof.
  intros Hcc Hconn [[data ->]|[state ->]]; simpl; unfold on_socket.
  - destruct (is_connected st s).
    2:{ split_and!;
          [apply presence_only_refl|done|done
          |intros e He; by apply elem_of_nil in He|by left]. }
    split; [apply presence_only_cursor_move|].
    unfold cursor_move. rewrite Hcc, Hconn.
    destruct (cursor_rejected data); simpl.
    + split_and!; [done|done|intros e He; by apply elem_of_nil in He|by left].
    + split_and!; [done|done| |right; by eexists].
      intros e (t & -> & Ht & Hne)%elem_of_emit_others. eauto.
  - destruct (is_connected st s).
    2:{ split_and!;
          [apply presence_only_refl|done|done
          |intros e He; by apply elem_of_nil in He|by left]. }
    split; [apply presence_only_awareness_update|].
    unfold awareness_update. rewrite Hcc, Hconn. simpl.
    split_and!; [done|done| |right; by eexists].
    intros e (t & -> & Ht & Hne)%elem_of_emit_others. eauto.
Qed.

(** X4. A [join-board] request without board id (absent or empty) is
    answered with the error [Board ID required] and has no other effect:
    no lookup, no room, no document, no connection. *)
Theorem join_without_board_id st s data env :
  truthy (jd_boardId data) = false →
  is_connected st s = true →
  step (JoinBoard s data env) st = (st, [Send s (MsgError "Board ID required")])
  ∧ step (JoinStart s data env) st = (st, [Send s (MsgError "Board ID required")]).
Proof.
  intros Hb Hs. simpl. unfold on_socket. rewrite Hs.
  unfold join_board, join_start, join_begin. by rewrite Hb.
Qed.

End MessageHandlers.

Section Persistence.
Context `{Engine : DocEngine} `{Runtime : JsRuntime}.
Implicit Types (st : ServerState).

Lemma load_persisted_no_write r b fails st :
  db (load_persisted r b fails st).1 = db st
  ∧ pendingWrites (load_persisted r b fails st).1 = pendingWrites st.
Proof.
  unfold load_persisted.
  repeat match goal with
  | |- context [if ?c then _ else _] => destruct c
  | |- context [match ?x with Some _ => _ | None => _ end] => destruct x
  | |- context [match ?x with Applied _ _ => _ | Threw _ => _ end] => destruct x
  end; done.
Qed.

Lemma install_doc_no_write r b st :
  db (install_doc r b st) = db st
  ∧ pendingWrites (install_doc r b st) = pendingWrites st.
Proof. unfold install_doc. simpl. by destruct (docHeap st !! r). Qed.

Lemma socket_join_no_write s b st :
  db (socket_join s b st) = db st
  ∧ pendingWrites (socket_join s b st) = pendingWrites st.
Proof. unfold socket_join. by destruct (bool_decide _). Qed.

Lemma join_finish_no_write s b data acc yDoc index st :
  db (join_finish s b data acc yDoc index st).1 = db st
  ∧ pendingWrites (join_finish s b data acc yDoc index st).1 = pendingWrites st.
Proof. by rewrite join_finish_state. Qed.

Lemma join_continue_no_write j env st :
  db (join_continue j env st).1 = db st
  ∧ pendingWrites (join_continue j env st).1 = pendingWrites st.
Proof.
  unfold join_continue.
  destruct (load_persisted_no_write (sj_doc j) (sj_boardId j) (loadFails env) st)
    as [Hd Hp].
  destruct (load_persisted _ _ _ _) as [st1 logs]. simpl in *.
  destruct (install_doc_no_write (sj_doc j) (sj_boardId j) st1) as [Hd2 Hp2].
  destruct (join_finish_no_write (sj_socket j) (sj_boardId j) (sj_data j)
              (sj_access j) (sj_doc j) (colorIndex env)
              (install_doc (sj_doc j) (sj_boardId j) st1)) as [Hd3 Hp3].
  destruct (join_finish _ _ _ _ _ _ _) as [st3 out]. simpl in *.
  split; congruence.
Qed.

Lemma join_begin_no_write s data env st :
  match join_begin s data env st with
  | Finished st' _ | AwaitingLoad st' _ _ =>
      db st' = db st ∧ pendingWrites st' = pendingWrites st
  end.
Proof.
  unfold join_begin.
  destruct (negb (truthy (jd_boardId data))); [done|].
  destruct (verifyAccess _ _ _ _) as [acc logs].
  destruct (negb (hasAccess acc)); [done|].
  set (b := default "" (jd_boardId data)).
  destruct (socket_join_no_write s b st) as [Hd Hp].
  destruct (boardDocs (socket_join s b st) !! b) as [yDoc|].
  - destruct (join_finish_no_write s b data acc yDoc (colorIndex env)
                (socket_join s b st)) as [Hd2 Hp2].
    destruct (join_finish _ _ _ _ _ _ _) as [st3 out]. simpl in *.
    split; congruence.
  - simpl. done.
Qed.

Lemma join_events_no_write st ev :
  (∃ s data env, ev = JoinBoard s data env ∨ ev = JoinStart s data env)
  ∨ (∃ k env, ev = JoinResume k env) →
  db (step ev st).1 = db st
  ∧ pendingWrites (step ev st).1 = pendingWrites st.
Proof.
  intros [(s & data & env & [-> | ->])|(k & env & ->)]; simpl; unfold on_socket.
  - destruct (is_connected st s); [|done].
    unfold join_board. pose proof (join_begin_no_write s data env st) as Hb.
    destruct (join_begin s data env st) as [st1 out|st1 out j]; [done|].
    pose proof (join_continue_no_write j env st1) as Hc.
    destruct (join_continue j env st1) as [st2 out2]. simpl in *.
    destruct Hb, Hc. split; congruence.
  - destruct (is_connected st s); [|done].
    unfold join_start. pose proof (join_begin_no_write s data env st) as Hb.
    by destruct (join_begin s data env st) as [st1 out|st1 out j].
  - unfold join_resume. destruct (suspended st !! k) as [j|]; [|done].
    apply (join_continue_no_write j env
             (set_suspended (delete k (suspended st)) st)).
Qed.

(** X5. Joining never writes: whatever the join does (denied, granted on
    an existing document, or granted after loading the snapshot into a new
    document, suspended or not), it leaves the database and the list of
    outstanding writes as they were; the snapshot load does not trigger the
    auto-save. *)
Theorem joins_never_write st ev :
  (∃ s data env, ev = JoinBoard s data env ∨ ev = JoinStart s data env)
  ∨ (∃ k env, ev = JoinResume k env) →
  db (step ev st).1 = db st
  ∧ pendingWrites (step ev st).1 = pendingWrites st.
Proof. apply join_events_no_write. Qed.

Lemma disconnect_keeps_db s st : db (disconnect s st).1 = db st.
Proof.
  unfold disconnect, on_disconnect.
  set (st0 := update_socket s (set_connected false) (leave_all s st)).
  assert (db st0 = db st) as H0 by done. clearbody st0.
  destruct (clientConnection (socketState st0 s)) as [c|]; [|done].
  destruct (connHeap st0 !! c) as [conn|]; [|done]. simpl.
  unfold remove_connection.
  destruct (boardConnections st0 !! conn_boardId conn); [|done].
  by destruct (bool_decide _).
Qed.

Lemma apply_update_keeps_db r u now st : db (apply_update r u now st).1 = db st.
Proof.
  unfold apply_update.
  repeat match goal with
  | |- context [match ?x with Some _ => _ | None => _ end] => destruct x
  | |- context [match ?x with Applied _ _ => _ | Threw _ => _ end] => destruct x
  end; done.
Qed.

(** The columns of a board row the access check reads. *)
Lemma write_done_keeps_access_columns k fails st b :
  users (db (write_done k fails st).1) = users (db st)
  ∧ (λ x, (ownerId x, isPublic x, members x)) <$> boards (db (write_done k fails st).1) !! b
    = (λ x, (ownerId x, isPublic x, members x)) <$> boards (db st) !! b.
Proof.
  unfold write_done.
  destruct (pendingWrites st !! k) as [w|]; [|done].
  destruct fails; [done|].
  destruct (boards (db st) !! pw_boardId w) as [b0|] eqn:Hb0; [|done]. simpl.
  split; [done|].
  destruct (decide (pw_boardId w = b)) as [<-|Hne].
  - by rewrite lookup_insert_eq, Hb0.
  - by rewrite lookup_insert_ne.
Qed.

Lemma verifyAccess_columns d d' env b uid :
  users d' = users d →
  (λ x, (ownerId x, isPublic x, members x)) <$> boards d' !! b
    = (λ x, (ownerId x, isPublic x, members x)) <$> boards d !! b →
  verifyAccess d' env b uid = verifyAccess d env b uid.
Proof.
  intros Hu Hb. unfold verifyAccess. rewrite Hu.
  destruct (boards d' !! b) as [x'|], (boards d !! b) as [x|]; simpl in Hb;
    try discriminate Hb; [|done].
  injection Hb as Ho Hp Hm. unfold included_members. by rewrite Ho, Hp, Hm.
Qed.

Lemma step_keeps_db ev st :
  (∀ k fails, ev ≠ WriteDone k fails) → db (step ev st).1 = db st.
Proof.
  intros Hev. destruct ev.
  - simpl. unfold connect. by destruct (sockets st !! s).
  - apply join_events_no_write. left. eauto.
  - apply join_events_no_write. left. eauto.
  - apply join_events_no_write. right. eauto.
  - simpl. unfold on_socket. destruct (is_connected st s); [|done].
    unfold sync_state.
    destruct (clientConnection (socketState st s)) as [c|]; [|done].
    destruct (connHeap st !! c) as [conn|]; [|done].
    destruct (boardDocs st !! conn_boardId conn) as [yDoc|]; [|done].
    destruct state as [bytes|]; [|done].
    pose proof (apply_update_keeps_db yDoc (Uint8Array bytes) now st) as Hq.
    by destruct (apply_update _ _ _ _).
  - simpl. unfold on_socket. destruct (is_connected st s); [|done].
    unfold board_update.
    destruct (clientConnection (socketState st s)) as [c|]; [|done].
    destruct (connHeap st !! c) as [conn|]; [|done].
    destruct (boardDocs st !! conn_boardId conn) as [yDoc|]; [|done].
    destruct update as [numbers|]; [|done].
    pose proof (apply_update_keeps_db yDoc (Uint8Array numbers) now st) as Hq.
    by destruct (apply_update _ _ _ _) as [st1 []].
  - simpl. unfold on_socket. destruct (is_connected st s); [|done].
    apply presence_only_cursor_move.
  - simpl. unfold on_socket. destruct (is_connected st s); [|done].
    apply presence_only_awareness_update.
  - simpl. unfold on_socket. destruct (is_connected st s); [|done].
    apply disconnect_keeps_db.
  - by destruct (Hev k fails).
Qed.

(** X6. No transition of the collaboration server changes who may join:
    the only database writes are those of the auto-save, which touch a row's
    [yDocState] and [lastModified] and nothing else, so the user table, the
    set of boards and each board's owner, visibility and members stay as
    they are, and with them the outcome of the access check. *)
Theorem collaboration_never_changes_access st ev :
  users (db (step ev st).1) = users (db st)
  ∧ (∀ b, (λ x, (ownerId x, isPublic x, members x)) <$> boards (db (step ev st).1) !! b
          = (λ x, (ownerId x, isPublic x, members x)) <$> boards (db st) !! b)
  ∧ (∀ env b uid,
       verifyAccess (db (step ev st).1) env b uid = verifyAccess (db st) env b uid).
Proof.
  assert (users (db (step ev st).1) = users (db st)
          ∧ ∀ b, (λ x, (ownerId x, isPublic x, members x)) <$> boards (db (step ev st).1) !! b
                 = (λ x, (ownerId x, isPublic x, members x)) <$> boards (db st) !! b)
    as [Hu Hb].
  { assert ((∃ k fails, ev = WriteDone k fails) ∨ ∀ k fails, ev ≠ WriteDone k fails)
      as [(k & fails & ->)|Hno] by (destruct ev; eauto).
    - simpl. split; [|intros b]; apply write_done_keeps_access_columns.
      exact "".
    - by rewrite step_keeps_db. }
  split_and!; [done|done|].
  intros env b uid. by apply verifyAccess_columns.
Qed.

End Persistence.

Section SocketsInRooms.
Context `{Engine : DocEngine} `{Runtime : JsRuntime}.
Implicit Types (st : ServerState).

Lemma sir_frame st st' :
  sockets st' = sockets st →
  connHeap st' = connHeap st →
  (∀ b t, t ∈ ioRoom st b → t ∈ ioRoom st' b) →
  (∀ j, j ∈ suspended st' → j ∈ suspended st) →
  sockets_in_rooms st → sockets_in_rooms st'.
Proof.
  intros Hs Hh Hio Hsus [Hcc Hj].
  assert (∀ s, socketState st' s = socketState st s) as Hss
    by (intros s; unfold socketState; by rewrite Hs).
  split.
  - intros s c conn. unfold is_connected. rewrite Hss, Hh. intros H1 H2.
    destruct (Hcc s c conn H1 H2) as [Hsock Hin]. split; [done|].
    intros Hc. apply Hio. by apply Hin.
  - intros j Hin%Hsus. destruct (Hj j Hin) as [Hex Hroom].
    rewrite Hs. split; [done|]. unfold is_connected. rewrite Hss.
    intros Hc. apply Hio. by apply Hroom.
Qed.

Lemma sir_docs_only st st' :
  docs_only st st' → sockets_in_rooms st → sockets_in_rooms st'.
Proof.
  intros (_ & Hh & Hs & Hio & Hsus). apply sir_frame; try done.
  - intros b t. unfold ioRoom. by rewrite Hio.
  - intros j. by rewrite Hsus.
Qed.

Lemma sir_socket_join s b st :
  sockets_in_rooms st → sockets_in_rooms (socket_join s b st).
Proof.
  apply sir_frame.
  - unfold socket_join. by destruct (bool_decide _).
  - unfold socket_join. by destruct (bool_decide _).
  - intros b' t. apply ioRoom_socket_join.
  - unfold socket_join. by destruct (bool_decide _).
Qed.

Lemma socket_join_member s b st : s ∈ ioRoom (socket_join s b st) b.
Proof.
  unfold socket_join. destruct (bool_decide (s ∈ ioRoom st b)) eqn:Hin.
  - by apply bool_decide_eq_true_1 in Hin.
  - unfold ioRoom at 1. simpl. rewrite lookup_insert_eq. simpl.
    apply elem_of_app. right. by apply list_elem_of_singleton.
Qed.

Lemma entered_connected s b data acc index st t :
  is_connected (entered s b data acc index st) t = is_connected st t.
Proof.
  unfold is_connected. destruct (decide (s = t)) as [->|Hne].
  - unfold entered, prepared.
    change (socketState (set_boardConnections ?m ?x) t) with (socketState x t).
    by rewrite socketState_update_socket.
  - by rewrite entered_socketState_ne.
Qed.

Lemma entered_sockets_keys s b data acc index st t :
  is_Some (sockets st !! t) → is_Some (sockets (entered s b data acc index st) !! t).
Proof.
  intros Ht. simpl. destruct (decide (s = t)) as [->|Hne].
  - rewrite lookup_insert_eq. eauto.
  - by rewrite lookup_insert_ne.
Qed.

Lemma sir_entered s b data acc index st :
  refs_allocated st → sockets_in_rooms st →
  (is_connected st s = true → s ∈ ioRoom st b) →
  sockets_in_rooms (entered s b data acc index st).
Proof.
  intros Hrefs [Hcc Hj] Hs. split.
  - intros t c conn. rewrite entered_connected, entered_ioRoom, entered_heap.
    destruct (decide (s = t)) as [->|Hne].
    + rewrite entered_socketState. intros [= <-]. rewrite lookup_insert_eq.
      intros [= <-]. simpl. done.
    + rewrite entered_socketState_ne by done. intros H1.
      destruct Hrefs as (_ & Hc & _). pose proof (Hc t c H1) as Hlt.
      rewrite lookup_insert_ne by lia. by apply Hcc.
  - intros j Hin. destruct (Hj j Hin) as [Hex Hroom]. split.
    + by apply entered_sockets_keys.
    + by rewrite entered_connected, entered_ioRoom.
Qed.

Lemma sir_suspend j st :
  sockets_in_rooms st →
  is_Some (sockets st !! sj_socket j) →
  (is_connected st (sj_socket j) = true → sj_socket j ∈ ioRoom st (sj_boardId j)) →
  sockets_in_rooms (set_suspended (suspended st ++ [j]) st).
Proof.
  intros [Hcc Hj] Hex Hroom. split; [done|].
  intros j'. simpl. rewrite elem_of_app, list_elem_of_singleton.
  intros [Hin| ->]; [by apply Hj|done].
Qed.

Lemma sir_unsuspend k st :
  sockets_in_rooms st →
  sockets_in_rooms (set_suspended (delete k (suspended st)) st).
Proof.
  apply sir_frame; try done.
  intros j. simpl. intros (i & Hi)%list_elem_of_lookup.
  apply list_elem_of_lookup. rewrite list_lookup_delete in Hi.
  destruct (decide (i < k)%nat); eauto.
Qed.

Lemma sir_cursor c conn data st :
  connHeap st !! c = Some conn → sockets_in_rooms st →
  sockets_in_rooms (set_connHeap (<[c := set_cursor data conn]> (connHeap st)) st).
Proof.
  intros Hc [Hcc Hj]. split; [|done].
  intros s c' conn'. simpl.
  change (socketState (set_connHeap ?m st) s) with (socketState st s).
  change (is_connected (set_connHeap ?m st) s) with (is_connected st s).
  change (ioRoom (set_connHeap ?m st)) with (ioRoom st).
  destruct (decide (c = c')) as [<-|Hne].
  - rewrite lookup_insert_eq. intros H1 [= <-]. simpl. by apply (Hcc s c conn).
  - rewrite lookup_insert_ne by done. apply Hcc.
Qed.

Lemma sir_connect s st : sockets_in_rooms st → sockets_in_rooms (connect s st).
Proof.
  intros [Hcc Hj]. unfold connect.
  destruct (sockets st !! s) eqn:Hs; [done|].
  assert (∀ t, t ≠ s → socketState (set_sockets
             (<[s := {| connected := true; clientConnection := None;
                        sock_userRole := None; sock_boardId := None;
                        sock_dbUserId := None |}]> (sockets st)) st) t
            = socketState st t) as Hne.
  { intros t Ht. unfold socketState. simpl. by rewrite lookup_insert_ne. }
  split.
  - intros t c conn. destruct (decide (t = s)) as [->|Ht].
    + unfold socketState at 1. simpl. by rewrite lookup_insert_eq.
    + unfold is_connected. rewrite Hne by done. apply Hcc.
  - intros j Hin. destruct (Hj j Hin) as [Hex Hroom].
    assert (sj_socket j ≠ s) as Hjs.
    { intros Heq. rewrite Heq, Hs in Hex. by destruct Hex. }
    split.
    + simpl. by rewrite lookup_insert_ne.
    + unfold is_connected. by rewrite Hne.
Qed.

Lemma sir_update_socket s f st :
  (∀ ss c, clientConnection (f ss) = Some c → clientConnection ss = Some c) →
  (∀ ss, connected (f ss) = true → connected ss = true) →
  sockets_in_rooms st → sockets_in_rooms (update_socket s f st).
Proof.
  intros Hf Hcon [Hcc Hj]. split.
  - intros t c conn. unfold is_connected.
    destruct (decide (s = t)) as [->|Hne].
    + rewrite socketState_update_socket. intros H1%Hf H2.
      destruct (Hcc t c conn H1 H2) as [Hsock Hroom]. split; [done|].
      intros Hc%Hcon. by apply Hroom.
    + rewrite socketState_update_socket_ne by done. apply Hcc.
  - intros j Hin. destruct (Hj j Hin) as [Hex Hroom]. split.
    + simpl. destruct (decide (s = sj_socket j)) as [->|Hne].
      * rewrite lookup_insert_eq. eauto.
      * by rewrite lookup_insert_ne.
    + unfold is_connected. destruct (decide (s = sj_socket j)) as [Heq|Hne].
      * rewrite <- Heq. rewrite socketState_update_socket. intros Hc%Hcon.
        rewrite Heq. apply Hroom. unfold is_connected. by rewrite <- Heq.
      * by rewrite socketState_update_socket_ne.
Qed.

Lemma sir_closing s st :
  sockets_in_rooms st →
  sockets_in_rooms (update_socket s (set_connected false) (leave_all s st)).
Proof.
  intros [Hcc Hj].
  assert (∀ t b, t ≠ s → t ∈ ioRoom st b → t ∈ ioRoom (leave_all s st) b) as Hkeep.
  { intros t b Hne Hin. rewrite ioRoom_leave_all. apply elem_of_filter_bool.
    split; [|done]. by destruct (String.eqb_spec t s). }
  split.
  - intros t c conn. unfold is_connected.
    change (ioRoom (update_socket s (set_connected false) (leave_all s st)))
      with (ioRoom (leave_all s st)).
    destruct (decide (s = t)) as [->|Hne].
    + rewrite socketState_update_socket. simpl.
      change (socketState (leave_all t st) t) with (socketState st t).
      intros H1 H2. destruct (Hcc t c conn H1 H2) as [Hsock _]. done.
    + rewrite socketState_update_socket_ne by done.
      change (socketState (leave_all s st) t) with (socketState st t).
      intros H1 H2. destruct (Hcc t c conn H1 H2) as [Hsock Hroom].
      split; [done|]. intros Hc. apply Hkeep; [done|]. by apply Hroom.
  - intros j Hin. destruct (Hj j Hin) as [Hex Hroom]. split.
    + simpl. destruct (decide (s = sj_socket j)) as [->|Hne].
      * rewrite lookup_insert_eq. eauto.
      * by rewrite lookup_insert_ne.
    + unfold is_connected.
      change (ioRoom (update_socket s (set_connected false) (leave_all s st)))
        with (ioRoom (leave_all s st)).
      destruct (decide (s = sj_socket j)) as [Heq|Hne].
      * rewrite <- Heq. by rewrite socketState_update_socket.
      * rewrite socketState_update_socket_ne by done.
        change (socketState (leave_all s st) (sj_socket j))
          with (socketState st (sj_socket j)).
        intros Hc. apply Hkeep; [done|]. by apply Hroom.
Qed.

Lemma sir_remove_connection c b st :
  sockets_in_rooms st → sockets_in_rooms (remove_connection c b st).
Proof.
  apply sir_frame; unfold remove_connection;
    destruct (boardConnections st !! b); try done; by destruct (bool_decide _).
Qed.

Lemma sir_disconnect s st :
  sockets_in_rooms st → sockets_in_rooms (disconnect s st).1.
Proof.
  intros H%(sir_closing s). unfold disconnect, on_disconnect.
  set (st0 := update_socket s (set_connected false) (leave_all s st)) in *.
  clearbody st0.
  destruct (clientConnection (socketState st0 s)) as [c|]; [|done].
  destruct (connHeap st0 !! c) as [conn|]; [|done]. simpl.
  apply sir_update_socket; [by intros []|by intros []|].
  by apply sir_remove_connection.
Qed.

End SocketsInRooms.

Section SocketsInRoomsStep.
Context `{Engine : DocEngine} `{Runtime : JsRuntime}.
Implicit Types (st : ServerState).

Lemma sir_join_continue j env st :
  refs_allocated st → sockets_in_rooms st →
  (is_connected st (sj_socket j) = true → sj_socket j ∈ ioRoom st (sj_boardId j)) →
  sockets_in_rooms (join_continue j env st).1.
Proof.
  intros Hrefs Hsir Hroom. unfold join_continue.
  pose proof (docs_only_load_persisted (sj_doc j) (sj_boardId j) (loadFails env) st) as Hl.
  pose proof (quiet_load_persisted (sj_doc j) (sj_boardId j) (loadFails env) st) as Hq.
  destruct (load_persisted _ _ _ _) as [st1 logs]. simpl in Hl, Hq.
  pose proof (docs_only_install_doc (sj_doc j) (sj_boardId j) st1) as Hi.
  pose proof (quiet_install_doc (sj_doc j) (sj_boardId j) st1) as Hqi.
  pose proof (docs_only_trans _ _ _ Hl Hi) as Hd.
  rewrite (surjective_pairing (join_finish _ _ _ _ _ _ _)).
  simpl. rewrite join_finish_state.
  destruct Hd as (_ & _ & Hs & Hio & _).
  apply sir_entered.
  - eauto using refs_allocated_quiet, quiet_trans.
  - eapply sir_docs_only; [|exact Hsir]. eauto using docs_only_trans.
  - unfold is_connected, socketState, ioRoom. rewrite Hs, Hio. exact Hroom.
Qed.

Lemma sir_join_begin s data env st :
  refs_allocated st → sockets_in_rooms st →
  is_Some (sockets st !! s) →
  match join_begin s data env st with
  | Finished st' _ => sockets_in_rooms st'
  | AwaitingLoad st' _ j =>
      sockets_in_rooms st' ∧ refs_allocated st'
      ∧ is_Some (sockets st' !! sj_socket j)
      ∧ sj_socket j ∈ ioRoom st' (sj_boardId j)
  end.
Proof.
  intros Hrefs Hsir Hex. unfold join_begin.
  destruct (negb (truthy (jd_boardId data))); [done|].
  destruct (verifyAccess _ _ _ _) as [acc logs].
  destruct (negb (hasAccess acc)); [done|].
  set (b := default "" (jd_boardId data)).
  pose proof (sir_socket_join s b st Hsir) as Hj.
  pose proof (socket_join_member s b st) as Hin.
  pose proof (refs_allocated_quiet _ _ (quiet_socket_join s b st) Hrefs) as Hr.
  destruct (boardDocs (socket_join s b st) !! b) as [yDoc|].
  - rewrite (surjective_pairing (join_finish _ _ _ _ _ _ _)).
    rewrite join_finish_state. by apply sir_entered.
  - simpl. split_and!.
    + eapply sir_docs_only; [apply docs_only_alloc_doc|done].
    + eapply refs_allocated_quiet; [apply quiet_alloc_doc|done].
    + unfold socket_join. by destruct (bool_decide _).
    + done.
Qed.

Lemma connected_socket_exists st s : is_connected st s = true → is_Some (sockets st !! s).
Proof.
  unfold is_connected, socketState. by destruct (sockets st !! s).
Qed.

Lemma sir_step ev st :
  refs_allocated st → sockets_in_rooms st → sockets_in_rooms (step ev st).1.
Proof.
  intros Hrefs Hsir. destruct ev; simpl; unfold on_socket;
    try (destruct (is_connected st s) eqn:Hcon; [|done]).
  - by apply sir_connect.
  - unfold join_board.
    pose proof (sir_join_begin s data env st Hrefs Hsir
                  (connected_socket_exists _ _ Hcon)) as Hb.
    destruct (join_begin s data env st) as [st1 out|st1 out j]; [done|].
    destruct Hb as (H1 & H2 & H3 & H4).
    pose proof (sir_join_continue j env st1 H2 H1 (λ _, H4)) as Hc.
    by destruct (join_continue j env st1).
  - unfold join_start.
    pose proof (sir_join_begin s data env st Hrefs Hsir
                  (connected_socket_exists _ _ Hcon)) as Hb.
    destruct (join_begin s data env st) as [st1 out|st1 out j]; [done|].
    destruct Hb as (H1 & H2 & H3 & H4). simpl. by apply sir_suspend.
  - unfold join_resume. destruct (suspended st !! k) as [j|] eqn:Hk; [|done].
    apply sir_join_continue.
    + done.
    + by apply sir_unsuspend.
    + destruct Hsir as [_ Hj]. apply Hj. by apply list_elem_of_lookup_2 in Hk.
  - eapply sir_docs_only; [apply docs_only_sync_state|done].
  - eapply sir_docs_only; [apply docs_only_board_update|done].
  - unfold cursor_move.
    destruct (clientConnection (socketState st s)) as [c|]; [|done].
    destruct (connHeap st !! c) as [conn|] eqn:Hc; [|done].
    destruct (cursor_rejected data); [done|]. simpl. by apply sir_cursor.
  - unfold awareness_update.
    destruct (clientConnection (socketState st s)) as [c|]; [|done].
    by destruct (connHeap st !! c).
  - by apply sir_disconnect.
  - eapply sir_docs_only; [apply docs_only_write_done|done].
Qed.

Lemma reachable_sockets_in_rooms (d0 : Database) st :
  reachable d0 st → sockets_in_rooms st.
Proof.
  induction 1 as [|st ev Hreach IH].
  - split.
    + intros s c conn. unfold socketState. simpl. by rewrite lookup_empty.
    + intros j Hin. by apply elem_of_nil in Hin.
  - apply sir_step; [|done]. by apply (reachable_well_formed d0).
Qed.

End SocketsInRoomsStep.

Section Broadcast.
Context `{Engine : DocEngine} `{Runtime : JsRuntime}.
Implicit Types (st : ServerState).

Lemma Uint8Array_range l : Forall (λ z, 0 ≤ z < 256) (Uint8Array l).
Proof.
  unfold Uint8Array. apply Forall_fmap, Forall_forall. intros z _. simpl.
  apply Z.mod_pos_bound. lia.
Qed.

Lemma Uint8Array_of_bytes l :
  Forall (λ z, 0 ≤ z < 256) l → Uint8Array l = l.
Proof.
  unfold Uint8Array. induction 1 as [|z l Hz Hl IH]; [done|].
  cbn [fmap list_fmap]. f_equal; [|exact IH]. by apply Z.mod_small.
Qed.

(** X7. In every reachable state, the connection a connected socket
    points to was built on that socket, and the socket is a member of the
    Socket.IO room of that connection's board: what the room is sent, the
    joined socket receives. *)
Theorem joined_socket_is_in_its_room (d0 : Database) st s c conn :
  reachable d0 st →
  is_connected st s = true →
  clientConnection (socketState st s) = Some c →
  connHeap st !! c = Some conn →
  conn_socket conn = s ∧ s ∈ ioRoom st (conn_boardId conn).
Proof.
  intros Hreach Hcon Hcc Hconn.
  destruct (reachable_sockets_in_rooms d0 st Hreach) as [Hsir _].
  destruct (Hsir s c conn Hcc Hconn) as [Hsock Hroom]. split; [done|].
  by apply Hroom.
Qed.

End Broadcast.

Section RoomsAreSets.
Context `{Engine : DocEngine} `{Runtime : JsRuntime}.
Implicit Types (st : ServerState).

Lemma set_add_nonempty r l : set_add r l ≠ [].
Proof.
  unfold set_add. destruct (bool_decide (r ∈ l)) eqn:Hin.
  - apply bool_decide_eq_true_1 in Hin. intros ->. by apply elem_of_nil in Hin.
  - by destruct l.
Qed.

Lemma set_add_NoDup r l : NoDup l → NoDup (set_add r l).
Proof.
  intros Hl. unfold set_add. destruct (bool_decide (r ∈ l)) eqn:Hin; [done|].
  apply bool_decide_eq_false_1 in Hin. apply NoDup_app. split_and!; [done| |].
  - intros x Hx ->%list_elem_of_singleton. done.
  - apply NoDup_singleton.
Qed.

Lemma filter_bool_NoDup {A} (p : A → bool) (l : list A) :
  NoDup l → NoDup (List.filter p l).
Proof.
  induction 1 as [|x l Hx Hl IH]; simpl; [constructor|].
  destruct (p x); [|done]. constructor; [|done].
  rewrite elem_of_filter_bool. tauto.
Qed.

Lemma rooms_are_sets_room st b : rooms_are_sets st → NoDup (room st b).
Proof.
  intros H. unfold room. destruct (boardConnections st !! b) as [l|] eqn:Hl.
  - by destruct (H b l Hl).
  - constructor.
Qed.

Lemma rooms_are_sets_eq st st' :
  boardConnections st' = boardConnections st →
  rooms_are_sets st → rooms_are_sets st'.
Proof. intros Heq H b l. rewrite Heq. apply H. Qed.

Lemma rooms_are_sets_entered s b data acc index st :
  rooms_are_sets st → rooms_are_sets (entered s b data acc index st).
Proof.
  intros H b' l. unfold entered. simpl.
  destruct (decide (b = b')) as [->|Hne].
  - rewrite lookup_insert_eq. intros [= <-]. split; [apply set_add_nonempty|].
    apply set_add_NoDup. unfold survivors. apply filter_bool_NoDup.
    rewrite prepared_room. by apply rooms_are_sets_room.
  - rewrite lookup_insert_ne by done. apply H.
Qed.

Lemma rooms_are_sets_remove_connection c b st :
  rooms_are_sets st → rooms_are_sets (remove_connection c b st).
Proof.
  intros H. unfold remove_connection.
  destruct (boardConnections st !! b) as [l0|] eqn:Hb; [|done].
  destruct (bool_decide (length (set_delete c l0) = 0%nat)) eqn:Hlen; intros b' l; simpl.
  - destruct (decide (b = b')) as [->|Hne].
    + by rewrite lookup_delete_eq.
    + rewrite lookup_delete_ne by done. apply H.
  - destruct (decide (b = b')) as [->|Hne].
    + rewrite lookup_insert_eq. intros [= <-].
      apply bool_decide_eq_false_1 in Hlen. split.
      * intros Heq. by rewrite Heq in Hlen.
      * apply filter_bool_NoDup. by destruct (H b' l0 Hb).
    + rewrite lookup_insert_ne by done. apply H.
Qed.

Lemma rooms_are_sets_same_connections st st' :
  same_connections st st' → rooms_are_sets st → rooms_are_sets st'.
Proof. intros (Hb & _). by apply rooms_are_sets_eq. Qed.

Lemma rooms_are_sets_join_continue j env st :
  rooms_are_sets st → rooms_are_sets (join_continue j env st).1.
Proof.
  intros H. unfold join_continue.
  pose proof (same_connections_load_persisted (sj_doc j) (sj_boardId j)
                (loadFails env) st) as Hl.
  destruct (load_persisted _ _ _ _) as [st1 logs]. simpl in Hl.
  pose proof (same_connections_install_doc (sj_doc j) (sj_boardId j) st1) as Hi.
  rewrite (surjective_pairing (join_finish _ _ _ _ _ _ _)). simpl.
  rewrite join_finish_state. apply rooms_are_sets_entered.
  eauto using rooms_are_sets_same_connections.
Qed.

Lemma rooms_are_sets_join_begin s data env st :
  rooms_are_sets st →
  match join_begin s data env st with
  | Finished st' _ | AwaitingLoad st' _ _ => rooms_are_sets st'
  end.
Proof.
  intros H. unfold join_begin.
  destruct (negb (truthy (jd_boardId data))); [done|].
  destruct (verifyAccess _ _ _ _) as [acc logs].
  destruct (negb (hasAccess acc)); [done|].
  set (b := default "" (jd_boardId data)).
  pose proof (rooms_are_sets_same_connections _ _
                (same_connections_socket_join s b st) H) as Hj.
  destruct (boardDocs (socket_join s b st) !! b) as [yDoc|].
  - rewrite (surjective_pairing (join_finish _ _ _ _ _ _ _)).
    rewrite join_finish_state. by apply rooms_are_sets_entered.
  - simpl. by apply rooms_are_sets_eq with (socket_join s b st).
Qed.

Lemma rooms_are_sets_step ev st :
  rooms_are_sets st → rooms_are_sets (step ev st).1.
Proof.
  intros H. destruct ev; simpl; unfold on_socket;
    try (destruct (is_connected st s); [|done]).
  - unfold connect. by destruct (sockets st !! s).
  - unfold join_board.
    pose proof (rooms_are_sets_join_begin s data env st H) as Hb.
    destruct (join_begin s data env st) as [st1 out|st1 out j]; [done|].
    pose proof (rooms_are_sets_join_continue j env st1 Hb) as Hc.
    by destruct (join_continue j env st1).
  - unfold join_start.
    pose proof (rooms_are_sets_join_begin s data env st H) as Hb.
    by destruct (join_begin s data env st) as [st1 out|st1 out j].
  - unfold join_resume. destruct (suspended st !! k) as [j|]; [|done].
    by apply rooms_are_sets_join_continue.
  - destruct (docs_only_sync_state s state now st) as (Hb & _).
    by apply rooms_are_sets_eq with st.
  - destruct (docs_only_board_update s update now st) as (Hb & _).
    by apply rooms_are_sets_eq with st.
  - unfold cursor_move.
    destruct (clientConnection (socketState st s)) as [c|]; [|done].
    destruct (connHeap st !! c) as [conn|]; [|done].
    by destruct (cursor_rejected data).
  - unfold awareness_update.
    destruct (clientConnection (socketState st s)) as [c|]; [|done].
    by destruct (connHeap st !! c).
  - unfold disconnect, on_disconnect.
    set (st0 := update_socket s (set_connected false) (leave_all s st)).
    assert (rooms_are_sets st0) as H0 by done. clearbody st0.
    destruct (clientConnection (socketState st0 s)) as [c|]; [|done].
    destruct (connHeap st0 !! c) as [conn|]; [|done]. simpl.
    apply rooms_are_sets_eq with (remove_connection c (conn_boardId conn) st0);
      [done|].
    by apply rooms_are_sets_remove_connection.
  - destruct (docs_only_write_done k fails st) as (Hb & _).
    by apply rooms_are_sets_eq with st.
Qed.

(** X8. In every reachable state, every board that has an entry in
    [boardConnections] has at least one connection in it, and no connection
    twice: a room without connections does not exist. *)
Theorem rooms_are_never_empty (d0 : Database) st b l :
  reachable d0 st →
  boardConnections st !! b = Some l →
  l ≠ [] ∧ NoDup l.
Proof.
  intros Hreach. revert b l. change (rooms_are_sets st).
  induction Hreach as [|st ev Hreach IH].
  - intros b l. simpl. by rewrite lookup_empty.
  - by apply rooms_are_sets_step.
Qed.

End RoomsAreSets.

Section RoomMembership.
Context `{Engine : DocEngine} `{Runtime : JsRuntime}.
Implicit Types (st : ServerState).

Lemma ioRooms_eq_grow st st' b t :
  ioRooms st' = ioRooms st → t ∈ ioRoom st b → t ∈ ioRoom st' b.
Proof. intros Heq. unfold ioRoom. by rewrite Heq. Qed.

Lemma join_continue_ioRooms j env st :
  ioRooms (join_continue j env st).1 = ioRooms st.
Proof.
  unfold join_continue.
  pose proof (ioRooms_load_persisted (sj_doc j) (sj_boardId j) (loadFails env) st) as Hl.
  destruct (load_persisted _ _ _ _) as [st1 logs]. simpl in Hl.
  rewrite (surjective_pairing (join_finish _ _ _ _ _ _ _)). simpl.
  rewrite join_finish_state. simpl. by rewrite ioRooms_install_doc.
Qed.

Lemma join_begin_rooms_grow s data env st b t :
  t ∈ ioRoom st b →
  match join_begin s data env st with
  | Finished st' _ | AwaitingLoad st' _ _ => t ∈ ioRoom st' b
  end.
Proof.
  intros Ht. unfold join_begin.
  destruct (negb (truthy (jd_boardId data))); [done|].
  destruct (verifyAccess _ _ _ _) as [acc logs].
  destruct (negb (hasAccess acc)); [done|].
  set (b0 := default "" (jd_boardId data)).
  pose proof (ioRoom_socket_join s b0 st t b Ht) as Hj.
  destruct (boardDocs (socket_join s b0 st) !! b0) as [yDoc|].
  - rewrite (surjective_pairing (join_finish _ _ _ _ _ _ _)).
    rewrite join_finish_state. by rewrite entered_ioRoom.
  - done.
Qed.

(** X9. The server never takes a socket out of a Socket.IO room while the
    socket is open: only the socket's own disconnect ends its membership.
    A socket that was evicted, or that has joined another board since, stays
    in the room and keeps receiving the board's broadcasts. *)
Theorem only_disconnect_leaves_a_room st ev t b :
  t ∈ ioRoom st b →
  ev ≠ Disconnect t →
  t ∈ ioRoom (step ev st).1 b.
Proof.
  intros Ht Hev. destruct ev; simpl; unfold on_socket;
    try (destruct (is_connected st s); [|done]).
  - unfold connect. by destruct (sockets st !! s).
  - unfold join_board.
    pose proof (join_begin_rooms_grow s data env st b t Ht) as Hb.
    destruct (join_begin s data env st) as [st1 out|st1 out j]; [done|].
    pose proof (join_continue_ioRooms j env st1) as Hc.
    destruct (join_continue j env st1) as [st2 out2]. simpl in *.
    by apply (ioRooms_eq_grow st1).
  - unfold join_start.
    pose proof (join_begin_rooms_grow s data env st b t Ht) as Hb.
    by destruct (join_begin s data env st) as [st1 out|st1 out j].
  - unfold join_resume. destruct (suspended st !! k) as [j|]; [|done].
    apply (ioRooms_eq_grow (set_suspended (delete k (suspended st)) st));
      [apply join_continue_ioRooms|done].
  - destruct (docs_only_sync_state s state now st) as (_ & _ & _ & Hio & _).
    by apply (ioRooms_eq_grow st).
  - destruct (docs_only_board_update s update now st) as (_ & _ & _ & Hio & _).
    by apply (ioRooms_eq_grow st).
  - unfold cursor_move.
    destruct (clientConnection (socketState st s)) as [c|]; [|done].
    destruct (connHeap st !! c) as [conn|]; [|done].
    by destruct (cursor_rejected data).
  - unfold awareness_update.
    destruct (clientConnection (socketState st s)) as [c|]; [|done].
    by destruct (connHeap st !! c).
  - assert (t ≠ s) as Hne by congruence.
    unfold disconnect, on_disconnect.
    set (st0 := update_socket s (set_connected false) (leave_all s st)).
    assert (t ∈ ioRoom st0 b) as H0.
    { subst st0.
      change (ioRoom (update_socket s (set_connected false) (leave_all s st)) b)
        with (ioRoom (leave_all s st) b).
      rewrite ioRoom_leave_all. apply elem_of_filter_bool. split; [|done].
      by destruct (String.eqb_spec t s). }
    clearbody st0.
    destruct (clientConnection (socketState st0 s)) as [c|]; [|done].
    destruct (connHeap st0 !! c) as [conn|]; [|done]. simpl.
    unfold remove_connection.
    destruct (boardConnections st0 !! conn_boardId conn); [|done].
    by destruct (bool_decide _).
  - destruct (docs_only_write_done k fails st) as (_ & _ & _ & Hio & _).
    by apply (ioRooms_eq_grow st).
Qed.

Lemma set_delete_other c l x : x ∈ l → x ≠ c → set_delete c l ≠ [].
Proof.
  intros Hx Hne Heq.
  assert (x ∈ set_delete c l) as Hin by (by apply set_delete_elem).
  rewrite Heq in Hin. by apply elem_of_nil in Hin.
Qed.

(** X10. When a socket disconnects and its board's set holds another
    connection, the set loses exactly that socket's connection, the board's
    document stays registered and untouched, every other socket of the room
    is sent the roster of the remaining connections, and the leaving socket
    is sent nothing. *)
Theorem disconnect_keeps_an_occupied_room st s c conn l c' :
  clientConnection (socketState st s) = Some c →
  connHeap st !! c = Some conn →
  boardConnections st !! conn_boardId conn = Some l →
  c' ∈ l → c' ≠ c →
  boardConnections (disconnect s st).1 !! conn_boardId conn = Some (set_delete c l)
  ∧ (c ∉ set_delete c l)
  ∧ (∀ x, x ∈ l → x ≠ c → x ∈ set_delete c l)
  ∧ boardDocs (disconnect s st).1 = boardDocs st
  ∧ docHeap (disconnect s st).1 = docHeap st
  ∧ (∀ t, t ∈ ioRoom st (conn_boardId conn) → t ≠ s →
       Send t (MsgActiveUsers (roster (disconnect s st).1 (set_delete c l)))
         ∈ (disconnect s st).2)
  ∧ (∀ m, Send s m ∉ (disconnect s st).2).
Proof.
  intros Hcc Hconn Hl Hc' Hne. set (b := conn_boardId conn) in *.
  unfold disconnect.
  set (st0 := update_socket s (set_connected false) (leave_all s st)).
  assert (clientConnection (socketState st0 s) = Some c) as Hcc0.
  { subst st0. rewrite socketState_update_socket. simpl.
    by change (socketState (leave_all s st) s) with (socketState st s). }
  assert (connHeap st0 !! c = Some conn) as Hconn0 by done.
  assert (boardConnections st0 !! b = Some l) as Hl0 by done.
  assert (boardDocs st0 = boardDocs st) as Hd0 by done.
  assert (docHeap st0 = docHeap st) as Hh0 by done.
  assert (ioRoom st0 b = List.filter (λ t, negb (String.eqb t s)) (ioRoom st b)) as Hio0.
  { subst st0.
    change (ioRoom (update_socket s (set_connected false) (leave_all s st)) b)
      with (ioRoom (leave_all s st) b).
    apply ioRoom_leave_all. }
  clearbody st0. unfold on_disconnect. rewrite Hcc0, Hconn0. simpl. fold b.
  assert (remove_connection c b st0 =
          set_boardConnections (<[b := set_delete c l]> (boardConnections st0)) st0)
    as Hrem.
  { unfold remove_connection. rewrite Hl0.
    rewrite bool_decide_eq_false_2; [done|].
    intros Hlen. apply (set_delete_other c l c' Hc' Hne).
    by apply length_zero_iff_nil. }
  rewrite Hrem. simpl.
  split_and!.
  - by rewrite lookup_insert_eq.
  - rewrite set_delete_elem. tauto.
  - intros x Hx Hxc. by apply set_delete_elem.
  - done.
  - done.
  - intros t Ht Hts. unfold_elem. right. left.
    apply elem_of_emit_room. exists t. split.
    + rewrite roster_update_socket by (by intros []).
      rewrite room_insert. by rewrite decide_True.
    + change (ioRoom (set_boardConnections ?m st0) b) with (ioRoom st0 b).
      rewrite Hio0. apply elem_of_filter_bool. split; [|done].
      by destruct (String.eqb_spec t s).
  - intros m. unfold_elem.
    rewrite elem_of_emit_others, elem_of_emit_room.
    change (ioRoom (set_boardConnections ?m st0) b) with (ioRoom st0 b).
    rewrite Hio0. intros Hx. split_cases Hx.
    + injection Hx as -> _. tauto.
    + injection Hx as -> _.
      match goal with
      | Hin : _ ∈ List.filter _ _ |- _ =>
          apply elem_of_filter_bool in Hin as [Hin _];
          by rewrite String.eqb_refl in Hin
      end.
Qed.

End RoomMembership.


Section JoinerInbox.
Context `{Engine : DocEngine} `{Runtime : JsRuntime}.
Implicit Types (st : ServerState).

Lemma inbox_app s l1 l2 : inbox s (l1 ++ l2) = inbox s l1 ++ inbox s l2.
Proof. apply omap_app. Qed.

Lemma inbox_emit s m : inbox s (emit s m) = [m].
Proof. unfold inbox, emit. simpl. by rewrite String.eqb_refl. Qed.

Lemma elem_of_inbox s out m : m ∈ inbox s out ↔ Send s m ∈ out.
Proof.
  unfold inbox. rewrite list_elem_of_omap. split.
  - intros (e & He & Hm). destruct e as [t m'| |]; try done.
    destruct (String.eqb_spec t s) as [->|]; [|done]. by injection Hm as ->.
  - intros H. exists (Send s m). split; [done|]. by rewrite String.eqb_refl.
Qed.

Lemma inbox_none s out : (∀ m, Send s m ∉ out) → inbox s out = [].
Proof.
  intros H. destruct (inbox s out) as [|m l] eqn:Heq; [done|].
  exfalso. apply (H m). apply elem_of_inbox. rewrite Heq. by left.
Qed.

Lemma roster_app st l1 l2 : roster st (l1 ++ l2) = roster st l1 ++ roster st l2.
Proof. apply omap_app. Qed.

Lemma roster_singleton st r conn :
  connHeap st !! r = Some conn → roster st [r] = [rosterEntry st conn].
Proof. intros H. unfold roster. simpl. by rewrite H. Qed.

Lemma elem_of_roster st refs r conn :
  r ∈ refs → connHeap st !! r = Some conn → rosterEntry st conn ∈ roster st refs.
Proof.
  intros Hr Hconn. unfold roster. apply list_elem_of_omap.
  exists r. split; [done|]. by rewrite Hconn.
Qed.

Lemma entered_role s b data acc index st :
  sock_userRole (socketState (entered s b data acc index st) s) = Some (userRole acc).
Proof.
  unfold entered, prepared.
  change (socketState (set_boardConnections ?m ?x) s) with (socketState x s).
  by rewrite socketState_update_socket.
Qed.

(** X11. What a granted join sends to the joining socket, in order: the
    [user-left] notices of the connections it evicts (never one about the
    joiner's own socket), then [sync-board] with the document's encoded
    state, then [active-users] listing the connections that stay followed by
    the joiner's own entry last, then [user-role].  The joiner's entry has no
    cursor and shows the granted role, or ['viewer'] when that role is the
    empty string; the joiner is never sent its own [user-joined]. *)
Theorem joiner_is_sent_state_roster_and_role st s b data acc yDoc index o st' out :
  refs_allocated st →
  docHeap st !! yDoc = Some o →
  join_finish s b data acc yDoc index st = (st', out) →
  ∃ notices own,
    inbox s out =
      notices
      ++ [MsgSyncBoard (encodeStateAsUpdate (doc_state o));
          MsgActiveUsers
            (roster st' (survivors st b (dbUserId acc) (jd_userEmail data)) ++ [own]);
          MsgUserRole (userRole acc)]
    ∧ (∀ m, m ∈ notices →
         ∃ conn, m = MsgUserLeft (presence conn) ∧ conn_socket conn ≠ s)
    ∧ re_socketId own = s
    ∧ re_userId own = js_or (dbUserId acc) (jd_userId data)
    ∧ re_cursor own = None
    ∧ re_role own = (if String.eqb (userRole acc) "" then "viewer" else userRole acc).
Proof.
  intros Hwf Ho Hjoin.
  pose proof (join_finish_state s b data acc yDoc index st) as Hst.
  pose proof (join_finish_output s b data acc yDoc index st Hwf) as Hout.
  rewrite Hjoin in Hst, Hout. simpl in Hst, Hout. subst st' out.
  set (st' := entered s b data acc index st).
  set (new := new_connection s b data acc (getRandomColor index)).
  exists (inbox s (flat_map (leave_notice st b (dbUserId acc) (jd_userEmail data))
                     (room st b))),
         (rosterEntry st' new).
  split_and!.
  - rewrite inbox_app. f_equal. unfold welcome.
    rewrite !inbox_app, !inbox_emit.
    rewrite (inbox_none s (emit_others _ _ _ _)).
    2:{ intros m (t & Heq & _ & Hne)%elem_of_emit_others. congruence. }
    change (docHeap st' !! yDoc) with (docHeap st !! yDoc). rewrite Ho.
    subst st'. rewrite entered_room by done. rewrite decide_True by done.
    rewrite roster_app.
    rewrite (roster_singleton _ (nextRef st) new).
    2:{ rewrite entered_heap. by rewrite lookup_insert_eq. }
    done.
  - intros m Hm%elem_of_inbox.
    apply leave_notice_inv in Hm as (r & conn & t & Heq & _ & _ & _ & _ & Hne).
    injection Heq as -> ->. eauto.
  - done.
  - done.
  - done.
  - unfold rosterEntry. simpl conn_socket. subst st'. rewrite entered_role.
    unfold js_or. simpl. by destruct (String.eqb (userRole acc) "").
Qed.

Lemma same_user_anonymous d e conn :
  truthy d = false → truthy e = false → same_user d e conn = false.
Proof. intros Hd He. unfold same_user. by rewrite Hd, He. Qed.

Lemma survivors_all st b d e :
  (∀ c conn, c ∈ room st b → connHeap st !! c = Some conn → same_user d e conn = false) →
  survivors st b d e = room st b.
Proof.
  intros Hno. unfold survivors. apply filter_bool_true. intros r Hr.
  unfold matches. destruct (connHeap st !! r) as [conn|] eqn:Hconn; [|done].
  by rewrite (Hno r conn).
Qed.

(** X12. A join that shares its identity with nobody in the board's set
    evicts nobody: the set grows by exactly the new connection, placed last,
    and no [user-left] is sent to anyone.  This is always the case for a
    joiner with neither a resolved user id nor an email (both may also be
    the empty string), so every such join adds one more entry. *)
Theorem join_of_a_new_identity_evicts_nobody st s b data acc yDoc index st' out :
  refs_allocated st →
  (truthy (dbUserId acc) = false ∧ truthy (jd_userEmail data) = false)
  ∨ (∀ c conn, c ∈ room st b → connHeap st !! c = Some conn →
       same_user (dbUserId acc) (jd_userEmail data) conn = false) →
  join_finish s b data acc yDoc index st = (st', out) →
  room st' b = room st b ++ [nextRef st]
  ∧ connHeap st' !! nextRef st
      = Some (new_connection s b data acc (getRandomColor index))
  ∧ (∀ c, c ∈ room st b → connHeap st' !! c = connHeap st !! c)
  ∧ (∀ t p, Send t (MsgUserLeft p) ∉ out).
Proof.
  intros Hwf Hnew Hjoin.
  assert (∀ c conn, c ∈ room st b → connHeap st !! c = Some conn →
            same_user (dbUserId acc) (jd_userEmail data) conn = false) as Hno.
  { destruct Hnew as [[Hd He]|Hno]; [|done]. intros. by apply same_user_anonymous. }
  pose proof (join_finish_state s b data acc yDoc index st) as Hst.
  pose proof (join_finish_output s b data acc yDoc index st Hwf) as Hout.
  rewrite Hjoin in Hst, Hout. simpl in Hst, Hout. subst st' out.
  split_and!.
  - rewrite entered_room by done. rewrite decide_True by done.
    by rewrite survivors_all.
  - rewrite entered_heap. by rewrite lookup_insert_eq.
  - intros c Hc. rewrite entered_heap. rewrite lookup_insert_ne; [done|].
    intros <-. by apply (nextRef_not_in_room st b).
  - intros t p. rewrite elem_of_app. intros [Hx|Hx].
    + apply leave_notice_inv in Hx as (r & conn & t' & _ & Hr & Hconn & Hsame & _).
      by rewrite (Hno r conn) in Hsame.
    + unfold welcome, emit in Hx. revert Hx. unfold_elem.
      rewrite elem_of_emit_others. intros Hx. split_cases Hx.
Qed.

(** X13. A cursor position accepted from a joined socket is kept on its
    connection object, so a later joiner of the same board, as long as it
    does not evict that connection, finds the position in the [active-users]
    list it is sent, under the reporting connection's socket id. *)
Theorem reported_cursor_is_shown_to_later_joiners
    st s c conn cur t b data acc yDoc index :
  refs_allocated st →
  clientConnection (socketState st s) = Some c →
  connHeap st !! c = Some conn →
  c ∈ room st b →
  cursor_rejected cur = false →
  same_user (dbUserId acc) (jd_userEmail data) conn = false →
  ∃ us e,
    Send t (MsgActiveUsers us)
      ∈ (join_finish t b data acc yDoc index (cursor_move s cur st).1).2
    ∧ e ∈ us
    ∧ re_socketId e = conn_socket conn
    ∧ re_userId e = conn_userId conn
    ∧ re_cursor e = Some cur.
Proof.
  intros Hwf Hcc Hconn Hc Hok Hsame.
  assert ((cursor_move s cur st).1 =
          set_connHeap (<[c := set_cursor cur conn]> (connHeap st)) st) as Hst1.
  { unfold cursor_move. by rewrite Hcc, Hconn, Hok. }
  assert (refs_allocated (cursor_move s cur st).1) as Hwf1.
  { apply (refs_allocated_quiet st); [apply quiet_cursor_move|done]. }
  rewrite join_finish_output by done.
  set (st1 := (cursor_move s cur st).1) in *.
  set (st' := entered t b data acc index st1).
  assert (connHeap st1 !! c = Some (set_cursor cur conn)) as Hconn1.
  { rewrite Hst1. simpl. by rewrite lookup_insert_eq. }
  assert (room st1 b = room st b) as Hroom1 by (by rewrite Hst1).
  assert (c ≠ nextRef st1) as Hfresh.
  { apply (room_allocated st1 b); [done|]. by rewrite Hroom1. }
  exists (roster st' (room st' b)), (rosterEntry st' (set_cursor cur conn)).
  split_and!; try done.
  - apply elem_of_app. right. apply welcome_roster.
  - apply (elem_of_roster st' _ c).
    + subst st'. rewrite entered_room by done. rewrite decide_True by done.
      apply elem_of_app. left. apply survivors_elem. split.
      * by rewrite Hroom1.
      * unfold matches. by rewrite Hconn1.
    + subst st'. rewrite entered_heap. by rewrite lookup_insert_ne.
Qed.

End JoinerInbox.


Section DocumentsListen.
Context `{Engine : DocEngine} `{Runtime : JsRuntime}.
Implicit Types (st : ServerState).

Lemma documents_kept_refl st : documents_kept st st.
Proof. by split_and!. Qed.

Lemma documents_kept_trans st1 st2 st3 :
  documents_kept st1 st2 → documents_kept st2 st3 → documents_kept st1 st3.
Proof.
  intros (A1 & A2 & A3 & A4) (B1 & B2 & B3 & B4). split_and!.
  - intros b r Hb. by apply A1, B1.
  - intros r. by rewrite B2.
  - congruence.
  - lia.
Qed.

Lemma documents_kept_allocated st st' r :
  documents_kept st st' → is_Some (docHeap st' !! r) ↔ is_Some (docHeap st !! r).
Proof.
  intros (_ & Hl & _). specialize (Hl r). rewrite <- !fmap_is_Some with (f := doc_listener).
  by rewrite Hl.
Qed.

Lemma dl_kept st st' :
  documents_kept st st' → documents_listen st → documents_listen st'.
Proof.
  intros Hk (D1 & D2 & D3 & D4).
  pose proof (documents_kept_allocated st st') as Hall.
  destruct Hk as (Hd & Hl & Hs & Hn). unfold documents_listen. rewrite Hs.
  split_and!.
  - intros b r Hb. destruct (D1 b r (Hd b r Hb)) as (o & Ho & Hlo).
    specialize (Hl r). rewrite Ho in Hl. simpl in Hl.
    destruct (docHeap st' !! r) as [o'|]; [|done].
    exists o'. split; [done|]. simpl in Hl. congruence.
  - intros j Hj. destruct (D2 j Hj) as [Ha Hu]. split.
    + apply Hall; [by split_and!|done].
    + intros b Hb. apply (Hu b). by apply Hd.
  - done.
  - intros r Hr. apply Hall in Hr; [|by split_and!]. specialize (D4 r Hr). lia.
Qed.

Lemma unpublished_kept st st' r :
  documents_kept st st' → unpublished st r → unpublished st' r.
Proof.
  intros Hk (Ha & Hu & Hs).
  pose proof (documents_kept_allocated st st' r Hk) as Hall.
  destruct Hk as (Hd & Hl & Hsus & Hn). unfold unpublished. rewrite Hsus.
  split_and!; [by apply Hall| |done].
  intros b Hb. apply (Hu b). by apply Hd.
Qed.

Lemma documents_kept_apply_update r u now st :
  documents_kept st (apply_update r u now st).1.
Proof.
  unfold apply_update, documents_kept.
  destruct (docHeap st !! r) as [o|] eqn:Hr; [|by split_and!].
  destruct (applyUpdate (doc_state o) u) as [d' ev|d'];
    [destruct ev, (doc_listener o)|]; simpl; (split_and!; [done| |done|done]);
    intros r'; (destruct (decide (r = r')) as [<-|Hne];
      [rewrite lookup_insert_eq, Hr|rewrite lookup_insert_ne by done]); done.
Qed.

Lemma documents_kept_load_persisted r b fails st :
  documents_kept st (load_persisted r b fails st).1.
Proof.
  unfold load_persisted. destruct fails; [apply documents_kept_refl|].
  destruct (boards (db st) !! b) as [board|]; [|apply documents_kept_refl].
  destruct (yDocState board) as [bytes|]; [|apply documents_kept_refl].
  destruct (docHeap st !! r) as [o|] eqn:Hr; [|apply documents_kept_refl].
  destruct (applyUpdate _ _) as [d' ev|d']; simpl;
    (split_and!; [done| |done|done]);
    intros r'; simpl; (destruct (decide (r = r')) as [<-|Hne];
      [rewrite lookup_insert_eq, Hr|rewrite lookup_insert_ne by done]); done.
Qed.

Lemma documents_kept_write_done k fails st :
  documents_kept st (write_done k fails st).1.
Proof.
  unfold write_done. destruct (pendingWrites st !! k) as [w|]; [|apply documents_kept_refl].
  destruct fails; [by split_and!|].
  destruct (boards (db st) !! pw_boardId w); by split_and!.
Qed.

Lemma documents_kept_socket_join s b st : documents_kept st (socket_join s b st).
Proof. unfold socket_join. destruct (bool_decide _); by split_and!. Qed.

Lemma documents_kept_entered s b data acc index st :
  documents_kept st (entered s b data acc index st).
Proof. split_and!; try done. simpl. lia. Qed.

Lemma documents_kept_sync_state s state now st :
  documents_kept st (sync_state s state now st).1.
Proof.
  unfold sync_state.
  destruct (clientConnection (socketState st s)) as [c|]; [|apply documents_kept_refl].
  destruct (connHeap st !! c) as [conn|]; [|apply documents_kept_refl].
  destruct (boardDocs st !! conn_boardId conn) as [yDoc|]; [|apply documents_kept_refl].
  destruct state as [bytes|]; [|apply documents_kept_refl].
  pose proof (documents_kept_apply_update yDoc (Uint8Array bytes) now st) as Hk.
  by destruct (apply_update _ _ _ _).
Qed.

Lemma documents_kept_board_update s update now st :
  documents_kept st (board_update s update now st).1.
Proof.
  unfold board_update.
  destruct (clientConnection (socketState st s)) as [c|]; [|apply documents_kept_refl].
  destruct (connHeap st !! c) as [conn|]; [|apply documents_kept_refl].
  destruct (boardDocs st !! conn_boardId conn) as [yDoc|]; [|apply documents_kept_refl].
  destruct update as [numbers|]; [|apply documents_kept_refl].
  pose proof (documents_kept_apply_update yDoc (Uint8Array numbers) now st) as Hk.
  destruct (apply_update _ _ _ _) as [st1 threw]. by destruct threw.
Qed.

Lemma documents_kept_remove_connection c b st :
  documents_kept st (remove_connection c b st).
Proof.
  unfold remove_connection.
  destruct (boardConnections st !! b); [|apply documents_kept_refl].
  destruct (bool_decide _); [|by split_and!].
  split_and!; try done. simpl. intros b' r Hb.
  by apply lookup_delete_Some in Hb as [_ Hb].
Qed.

Lemma documents_kept_disconnect s st : documents_kept st (disconnect s st).1.
Proof.
  unfold disconnect, on_disconnect.
  set (st0 := update_socket s (set_connected false) (leave_all s st)).
  assert (documents_kept st st0) as H0 by (by split_and!).
  clearbody st0.
  destruct (clientConnection (socketState st0 s)) as [c|]; [|done].
  destruct (connHeap st0 !! c) as [conn|]; [|done]. simpl.
  apply (documents_kept_trans st st0); [done|].
  apply (documents_kept_trans _ (remove_connection c (conn_boardId conn) st0));
    [apply documents_kept_remove_connection|by split_and!].
Qed.

Lemma dl_alloc_doc st :
  documents_listen st →
  documents_listen (alloc_doc st).1 ∧ unpublished (alloc_doc st).1 (alloc_doc st).2.
Proof.
  intros (D1 & D2 & D3 & D4). unfold alloc_doc. simpl.
  assert (docHeap st !! nextRef st = None) as Hfresh.
  { destruct (docHeap st !! nextRef st) eqn:Heq; [|done].
    assert (nextRef st < nextRef st)%nat; [apply D4; by rewrite Heq|lia]. }
  assert (∀ b, boardDocs st !! b ≠ Some (nextRef st)) as Hunreg.
  { intros b Hb. destruct (D1 b _ Hb) as (o & Ho & _). congruence. }
  assert (nextRef st ∉ sj_doc <$> suspended st) as Hunsus.
  { intros (j & Heq & Hj)%list_elem_of_fmap. destruct (D2 j Hj) as [[o Ho] _].
    rewrite <- Heq in Ho. congruence. }
  split.
  - unfold documents_listen. simpl. split_and!.
    + intros b r Hb. destruct (D1 b r Hb) as (o & Ho & Hl).
      exists o. split; [|done]. rewrite lookup_insert_ne; [done|]. congruence.
    + intros j Hj. destruct (D2 j Hj) as [Ha Hu]. split; [|done].
      apply lookup_insert_is_Some'. by right.
    + done.
    + intros r [<-|Hr]%lookup_insert_is_Some'; [lia|]. specialize (D4 r Hr). lia.
  - unfold unpublished. simpl. split_and!; [|done|done].
    by rewrite lookup_insert_eq.
Qed.

Lemma dl_install_doc r b st :
  documents_listen st → unpublished st r → documents_listen (install_doc r b st).
Proof.
  intros (D1 & D2 & D3 & D4) ([o Ho] & Hunreg & Hunsus).
  unfold install_doc. simpl. rewrite Ho.
  unfold documents_listen. simpl. split_and!.
  - intros b' r' Hb. destruct (decide (b = b')) as [<-|Hne].
    + rewrite lookup_insert_eq in Hb. injection Hb as <-.
      rewrite lookup_insert_eq. by eexists.
    + rewrite lookup_insert_ne in Hb by done.
      destruct (D1 b' r' Hb) as (o' & Ho' & Hl). exists o'. split; [|done].
      rewrite lookup_insert_ne; [done|]. intros <-. by apply (Hunreg b').
  - intros j Hj. destruct (D2 j Hj) as [Ha Hu]. split.
    + apply lookup_insert_is_Some'. by right.
    + intros b' Hb. destruct (decide (b = b')) as [<-|Hne].
      * rewrite lookup_insert_eq in Hb. injection Hb as ->.
        apply Hunsus. apply list_elem_of_fmap. by exists j.
      * rewrite lookup_insert_ne in Hb by done. by apply (Hu b').
  - done.
  - intros r' [<-|Hr]%lookup_insert_is_Some'; apply D4; [by rewrite Ho|done].
Qed.

Lemma dl_suspend j st :
  documents_listen st → unpublished st (sj_doc j) →
  documents_listen (set_suspended (suspended st ++ [j]) st).
Proof.
  intros (D1 & D2 & D3 & D4) (Ha & Hunreg & Hunsus).
  unfold documents_listen. simpl. split_and!; [done| | |done].
  - intros j' [Hj| ->%list_elem_of_singleton]%elem_of_app; [by apply D2|done].
  - rewrite fmap_app. apply NoDup_app. split_and!; [done| |apply NoDup_singleton].
    simpl. intros x Hx ->%list_elem_of_singleton. done.
Qed.

Lemma dl_unsuspend k j st :
  documents_listen st → suspended st !! k = Some j →
  documents_listen (set_suspended (delete k (suspended st)) st)
  ∧ unpublished (set_suspended (delete k (suspended st)) st) (sj_doc j).
Proof.
  intros (D1 & D2 & D3 & D4) Hk.
  assert (∀ x, x ∈ delete k (suspended st) → x ∈ suspended st) as Hsub.
  { intros x (i & Hi)%list_elem_of_lookup. rewrite list_lookup_delete in Hi.
    destruct (decide (i < k)%nat); by eapply list_elem_of_lookup_2. }
  assert (NoDup (sj_doc <$> delete k (suspended st))
          ∧ sj_doc j ∉ sj_doc <$> delete k (suspended st)) as [Hnd Hnot].
  { rewrite <- (take_drop_middle _ _ _ Hk) in D3.
    rewrite delete_take_drop. rewrite fmap_app in *. simpl in D3.
    apply NoDup_app in D3 as (N1 & N2 & N3). apply NoDup_cons in N3 as [N3 N4].
    split.
    - apply NoDup_app. split_and!; [done| |done].
      intros x Hx Hx'. apply (N2 x Hx). by right.
    - intros [Hx|Hx]%elem_of_app; [|done]. apply (N2 _ Hx). by left. }
  split.
  - unfold documents_listen. simpl. split_and!; [done| |done|done].
    intros j' Hj'. by apply D2, Hsub.
  - unfold unpublished. simpl.
    destruct (D2 j (list_elem_of_lookup_2 _ _ _ Hk)) as [Ha Hu]. by split_and!.
Qed.

Lemma dl_join_finish s b data acc yDoc index st :
  documents_listen st → documents_listen (join_finish s b data acc yDoc index st).1.
Proof.
  intros Hdl. rewrite join_finish_state.
  apply (dl_kept st); [apply documents_kept_entered|done].
Qed.

Lemma dl_join_continue j env st :
  documents_listen st → unpublished st (sj_doc j) →
  documents_listen (join_continue j env st).1.
Proof.
  intros Hdl Hun. unfold join_continue.
  pose proof (documents_kept_load_persisted (sj_doc j) (sj_boardId j) (loadFails env) st)
    as Hk.
  destruct (load_persisted _ _ _ _) as [st1 logs]. simpl in Hk.
  pose proof (dl_join_finish (sj_socket j) (sj_boardId j) (sj_data j) (sj_access j)
                (sj_doc j) (colorIndex env)
                (install_doc (sj_doc j) (sj_boardId j) st1)) as Hf.
  destruct (join_finish _ _ _ _ _ _ _) as [st3 out]. simpl in *.
  apply Hf. apply dl_install_doc.
  - by apply (dl_kept st).
  - by apply (unpublished_kept st).
Qed.

Lemma dl_join_begin s data env st :
  documents_listen st →
  match join_begin s data env st with
  | Finished st' _ => documents_listen st'
  | AwaitingLoad st' _ j => documents_listen st' ∧ unpublished st' (sj_doc j)
  end.
Proof.
  intros Hdl. unfold join_begin.
  destruct (negb (truthy (jd_boardId data))); [done|].
  destruct (verifyAccess _ _ _ _) as [acc logs].
  destruct (negb (hasAccess acc)); [done|].
  set (b := default "" (jd_boardId data)).
  assert (documents_listen (socket_join s b st)) as H1
    by (apply (dl_kept st); [apply documents_kept_socket_join|done]).
  destruct (boardDocs (socket_join s b st) !! b) as [yDoc|].
  - pose proof (dl_join_finish s b data acc yDoc (colorIndex env) _ H1) as Hf.
    by destruct (join_finish _ _ _ _ _ _ _).
  - pose proof (dl_alloc_doc _ H1) as Ha.
    by destruct (alloc_doc (socket_join s b st)).
Qed.

Lemma dl_step ev st : documents_listen st → documents_listen (step ev st).1.
Proof.
  intros Hdl. destruct ev; simpl; unfold on_socket;
    try (destruct (is_connected st s); [|done]).
  - apply (dl_kept st); [|done]. unfold connect.
    destruct (sockets st !! s); by split_and!.
  - unfold join_board. pose proof (dl_join_begin s data env st Hdl) as Hb.
    destruct (join_begin s data env st) as [st1 out|st1 out j]; [done|].
    destruct Hb as [H1 H2].
    pose proof (dl_join_continue j env st1 H1 H2) as Hc.
    by destruct (join_continue j env st1).
  - unfold join_start. pose proof (dl_join_begin s data env st Hdl) as Hb.
    destruct (join_begin s data env st) as [st1 out|st1 out j]; [done|].
    destruct Hb as [H1 H2]. simpl. by apply dl_suspend.
  - unfold join_resume. destruct (suspended st !! k) as [j|] eqn:Hk; [|done].
    destruct (dl_unsuspend k j st Hdl Hk) as [H1 H2]. by apply dl_join_continue.
  - apply (dl_kept st); [apply documents_kept_sync_state|done].
  - apply (dl_kept st); [apply documents_kept_board_update|done].
  - apply (dl_kept st); [|done]. unfold cursor_move.
    destruct (clientConnection (socketState st s)) as [c|]; [|apply documents_kept_refl].
    destruct (connHeap st !! c) as [conn|]; [|apply documents_kept_refl].
    destruct (cursor_rejected data); by split_and!.
  - apply (dl_kept st); [|done]. unfold awareness_update.
    destruct (clientConnection (socketState st s)) as [c|]; [|apply documents_kept_refl].
    destruct (connHeap st !! c) as [conn|]; apply documents_kept_refl.
  - apply (dl_kept st); [apply documents_kept_disconnect|done].
  - apply (dl_kept st); [apply documents_kept_write_done|done].
Qed.

Lemma reachable_documents_listen (d0 : Database) st :
  reachable d0 st → documents_listen st.
Proof.
  induction 1 as [|st ev Hreach IH]; [|by apply dl_step].
  unfold documents_listen. simpl. split_and!.
  - intros b r Hb. by rewrite lookup_empty in Hb.
  - intros j Hj. by apply elem_of_nil in Hj.
  - apply NoDup_nil_2.
  - intros r [o Ho]. by rewrite lookup_empty in Ho.
Qed.

(** X14. In every state the server can reach, the document registered for
    a board carries the auto-save listener of that same board.  So when a
    joined socket's [board-update] or [sync-state] is merged and the
    document fires its ['update'] event, exactly one database write is
    queued, behind the writes already outstanding: it targets the sender's
    board and carries the bytes of that event and the time of the call. *)
Theorem merged_update_is_saved_to_the_senders_board
    (d0 : Database) st s c conn yDoc o numbers d' bytes now :
  reachable d0 st →
  is_connected st s = true →
  clientConnection (socketState st s) = Some c →
  connHeap st !! c = Some conn →
  boardDocs st !! conn_boardId conn = Some yDoc →
  docHeap st !! yDoc = Some o →
  applyUpdate (doc_state o) (Uint8Array numbers) = Applied d' (Some bytes) →
  doc_listener o = Some (conn_boardId conn)
  ∧ pendingWrites (step (BoardUpdate s (Some numbers) now) st).1 =
      pendingWrites st ++
        [{| pw_boardId := conn_boardId conn; pw_yDocState := bytes;
            pw_lastModified := now |}]
  ∧ pendingWrites (step (SyncState s (Some numbers) now) st).1 =
      pendingWrites st ++
        [{| pw_boardId := conn_boardId conn; pw_yDocState := bytes;
            pw_lastModified := now |}]
  ∧ docHeap (step (BoardUpdate s (Some numbers) now) st).1 !! yDoc
      = Some {| doc_state := d'; doc_listener := Some (conn_boardId conn) |}.
Proof.
  intros Hreach Hcon Hcc Hconn Hdoc Ho Happ.
  destruct (reachable_documents_listen d0 st Hreach) as (D1 & _).
  destruct (D1 _ _ Hdoc) as (o' & Ho' & Hl).
  assert (o' = o) as -> by congruence.
  pose proof (apply_update_schedules_event yDoc o (Uint8Array numbers) d' bytes
                (conn_boardId conn) now st Ho Happ Hl) as Hw.
  assert (docHeap (apply_update yDoc (Uint8Array numbers) now st).1 !! yDoc
          = Some {| doc_state := d'; doc_listener := Some (conn_boardId conn) |}) as Hh.
  { unfold apply_update. rewrite Ho, Happ, Hl. simpl. rewrite lookup_insert_eq.
    unfold set_doc_state. by rewrite Hl. }
  split_and!; [done| | |]; simpl; unfold on_socket; rewrite Hcon.
  - unfold board_update. rewrite Hcc, Hconn, Hdoc.
    destruct (apply_update _ _ _ _) as [st1 threw]. by destruct threw.
  - unfold sync_state. rewrite Hcc, Hconn, Hdoc.
    by destruct (apply_update _ _ _ _) as [st1 threw].
  - unfold board_update. rewrite Hcc, Hconn, Hdoc.
    destruct (apply_update _ _ _ _) as [st1 threw]. by destruct threw.
Qed.

End DocumentsListen.


Section Leftovers.
Context `{Engine : DocEngine} `{Runtime : JsRuntime}.
Implicit Types (st : ServerState).

Lemma remove_connection_elsewhere c b b' st :
  b ≠ b' →
  room (remove_connection c b st) b' = room st b'
  ∧ boardDocs (remove_connection c b st) !! b' = boardDocs st !! b'
  ∧ connHeap (remove_connection c b st) = connHeap st.
Proof.
  intros Hne. unfold remove_connection.
  destruct (boardConnections st !! b); [|done].
  destruct (bool_decide _); unfold room; simpl.
  - by rewrite !lookup_delete_ne.
  - by rewrite lookup_insert_ne.
Qed.

(** X15. A socket that joins a second board keeps its connection in the
    first board's set: the join touches only the new board's set, and the
    socket's later disconnect removes only its latest connection.  The first
    board's set, its document and the old connection object stay as they
    were, and from the second join on the old roster entry shows the role
    granted on the second board. *)
Theorem switching_boards_leaves_the_old_connection
    st s c conn b' data acc yDoc index st1 out1 :
  refs_allocated st →
  clientConnection (socketState st s) = Some c →
  connHeap st !! c = Some conn →
  conn_socket conn = s →
  c ∈ room st (conn_boardId conn) →
  b' ≠ conn_boardId conn →
  join_finish s b' data acc yDoc index st = (st1, out1) →
  room st1 (conn_boardId conn) = room st (conn_boardId conn)
  ∧ re_role (rosterEntry st1 conn)
      = (if String.eqb (userRole acc) "" then "viewer" else userRole acc)
  ∧ room (disconnect s st1).1 (conn_boardId conn) = room st (conn_boardId conn)
  ∧ boardDocs (disconnect s st1).1 !! conn_boardId conn
      = boardDocs st !! conn_boardId conn
  ∧ connHeap (disconnect s st1).1 !! c = Some conn
  ∧ clientConnection (socketState (disconnect s st1).1 s) = None.
Proof.
  intros Hwf Hcc Hconn Hsock Hc Hne Hjoin.
  pose proof (join_finish_state s b' data acc yDoc index st) as Hst.
  rewrite Hjoin in Hst. simpl in Hst. subst st1. clear Hjoin.
  set (b := conn_boardId conn) in *.
  set (st1 := entered s b' data acc index st).
  assert (room st1 b = room st b) as Hroom1.
  { subst st1. rewrite entered_room by done. by rewrite decide_False. }
  assert (c ≠ nextRef st) as Hfresh by (by apply (room_allocated st b)).
  assert (connHeap st1 !! c = Some conn) as Hconn1.
  { subst st1. rewrite entered_heap. by rewrite lookup_insert_ne. }
  split; [done|]. split.
  { unfold rosterEntry. rewrite Hsock. subst st1. rewrite entered_role.
    unfold js_or. simpl. by destruct (String.eqb (userRole acc) ""). }
  unfold disconnect.
  set (st0 := update_socket s (set_connected false) (leave_all s st1)).
  assert (clientConnection (socketState st0 s) = Some (nextRef st)) as Hcc0.
  { subst st0. rewrite socketState_update_socket. simpl.
    change (socketState (leave_all s st1) s) with (socketState st1 s).
    apply entered_socketState. }
  assert (connHeap st0 !! nextRef st
          = Some (new_connection s b' data acc (getRandomColor index))) as Hnew.
  { subst st0 st1. simpl. by rewrite lookup_insert_eq. }
  assert (room st0 b = room st b) as Hroom0 by done.
  assert (boardDocs st0 = boardDocs st) as Hdocs0 by done.
  assert (connHeap st0 !! c = Some conn) as Hconn0 by done.
  clearbody st0. unfold on_disconnect. rewrite Hcc0, Hnew. simpl.
  destruct (remove_connection_elsewhere (nextRef st) b' b st0 Hne) as (R1 & R2 & R3).
  split_and!.
  - change (room (update_socket ?s ?f ?x) b) with (room x b). congruence.
  - change (boardDocs (update_socket ?s ?f ?x)) with (boardDocs x). congruence.
  - change (connHeap (update_socket ?s ?f ?x)) with (connHeap x). congruence.
  - by rewrite socketState_update_socket.
Qed.

Lemma nextRef_load_persisted r b fails st :
  nextRef (load_persisted r b fails st).1 = nextRef st.
Proof.
  unfold load_persisted. destruct fails; [done|].
  destruct (boards (db st) !! b) as [board|]; [|done].
  destruct (yDocState board); [|done].
  destruct (docHeap st !! r) as [o|]; [|done].
  by destruct (applyUpdate _ _).
Qed.

Lemma install_doc_registers r b st :
  boardDocs (install_doc r b st) !! b = Some r
  ∧ nextRef (install_doc r b st) = nextRef st.
Proof.
  unfold install_doc. simpl.
  destruct (docHeap st !! r); simpl; by rewrite lookup_insert_eq.
Qed.

(** X16. A join whose socket disconnects while the handler awaits the
    snapshot still runs to its end when the query settles: it registers the
    document and adds a connection for the closed socket to the board's set.
    The ['disconnect'] handler has already run, and no later event of that
    socket is handled, so nothing the socket does removes the connection
    again. *)
Theorem join_resumed_after_disconnect_leaves_a_connection
    (d0 : Database) st k j env :
  reachable d0 st →
  suspended st !! k = Some j →
  is_connected st (sj_socket j) = false →
  nextRef st ∈ room (step (JoinResume k env) st).1 (sj_boardId j)
  ∧ connHeap (step (JoinResume k env) st).1 !! nextRef st
      = Some (new_connection (sj_socket j) (sj_boardId j) (sj_data j) (sj_access j)
                (getRandomColor (colorIndex env)))
  ∧ clientConnection (socketState (step (JoinResume k env) st).1 (sj_socket j))
      = Some (nextRef st)
  ∧ boardDocs (step (JoinResume k env) st).1 !! sj_boardId j = Some (sj_doc j)
  ∧ (∀ ev, event_socket ev = Some (sj_socket j) →
       step ev (step (JoinResume k env) st).1 = ((step (JoinResume k env) st).1, [])).
Proof.
  intros Hreach Hk Hoff.
  pose proof (reachable_well_formed d0 st Hreach) as (Hrefs & _).
  destruct (reachable_sockets_in_rooms d0 st Hreach) as [_ Hsus].
  destruct (Hsus j (list_elem_of_lookup_2 _ _ _ Hk)) as [Hexists _].
  simpl. unfold join_resume. rewrite Hk.
  set (st0 := set_suspended (delete k (suspended st)) st).
  assert (refs_allocated st0) as Hrefs0
    by (apply (refs_allocated_quiet st); [apply quiet_set_suspended|done]).
  unfold join_continue.
  pose proof (docs_only_load_persisted (sj_doc j) (sj_boardId j) (loadFails env) st0) as Hl.
  pose proof (quiet_load_persisted (sj_doc j) (sj_boardId j) (loadFails env) st0) as Hq.
  pose proof (nextRef_load_persisted (sj_doc j) (sj_boardId j) (loadFails env) st0) as Hn.
  destruct (load_persisted _ _ _ _) as [st1 logs]. simpl in Hl, Hq, Hn.
  pose proof (docs_only_install_doc (sj_doc j) (sj_boardId j) st1) as Hi.
  pose proof (quiet_install_doc (sj_doc j) (sj_boardId j) st1) as Hqi.
  destruct (install_doc_registers (sj_doc j) (sj_boardId j) st1) as [Hreg Hn2].
  set (st2 := install_doc (sj_doc j) (sj_boardId j) st1) in *.
  destruct (docs_only_trans _ _ _ Hl Hi) as (_ & _ & Hsock & _ & _).
  assert (refs_allocated st2) as Hrefs2
    by eauto using refs_allocated_quiet, quiet_trans.
  assert (nextRef st2 = nextRef st) as Hnext by (rewrite Hn2, Hn; done).
  rewrite (surjective_pairing (join_finish _ _ _ _ _ _ _)). simpl.
  rewrite join_finish_state.
  set (st' := entered _ _ _ _ _ st2).
  assert (is_connected st' (sj_socket j) = false) as Hoff'.
  { subst st'. rewrite entered_connected. unfold is_connected, socketState.
    rewrite Hsock. exact Hoff. }
  assert (is_Some (sockets st' !! sj_socket j)) as Hexists'.
  { subst st'. apply entered_sockets_keys. by rewrite Hsock. }
  split_and!.
  - subst st'. rewrite entered_room by done. rewrite decide_True by done.
    rewrite Hnext. apply elem_of_app. right. by left.
  - subst st'. rewrite entered_heap, Hnext. by rewrite lookup_insert_eq.
  - subst st'. rewrite entered_socketState. by rewrite Hnext.
  - done.
  - intros ev Hev. destruct ev; simpl in Hev; try discriminate Hev;
      injection Hev as ->; simpl; unfold on_socket; rewrite ?Hoff'; try done.
    unfold connect. by destruct Hexists' as [ss ->].
Qed.

End Leftovers.


Section IoRoomsAreSets.
Context `{Engine : DocEngine} `{Runtime : JsRuntime}.
Implicit Types (st : ServerState).

Lemma ios_eq st st' :
  ioRooms st' = ioRooms st → io_rooms_are_sets st → io_rooms_are_sets st'.
Proof. intros Heq H b. unfold ioRoom. rewrite Heq. apply H. Qed.

Lemma ios_socket_join s b st :
  io_rooms_are_sets st → io_rooms_are_sets (socket_join s b st).
Proof.
  intros H b'. unfold socket_join.
  destruct (bool_decide (s ∈ ioRoom st b)) eqn:Hin; [apply H|].
  apply bool_decide_eq_false_1 in Hin. unfold ioRoom at 1. simpl.
  destruct (decide (b = b')) as [<-|Hne].
  - rewrite lookup_insert_eq. simpl. apply NoDup_app.
    split_and!; [apply H| |apply NoDup_singleton].
    intros x Hx ->%list_elem_of_singleton. done.
  - rewrite lookup_insert_ne by done. apply H.
Qed.

Lemma ios_leave_all s st :
  io_rooms_are_sets st → io_rooms_are_sets (leave_all s st).
Proof. intros H b. rewrite ioRoom_leave_all. apply filter_bool_NoDup, H. Qed.

Lemma ios_join_begin s data env st :
  io_rooms_are_sets st →
  match join_begin s data env st with
  | Finished st' _ | AwaitingLoad st' _ _ => io_rooms_are_sets st'
  end.
Proof.
  intros H. unfold join_begin.
  destruct (negb (truthy (jd_boardId data))); [done|].
  destruct (verifyAccess _ _ _ _) as [acc logs].
  destruct (negb (hasAccess acc)); [done|].
  set (b := default "" (jd_boardId data)).
  pose proof (ios_socket_join s b st H) as Hj.
  destruct (boardDocs (socket_join s b st) !! b) as [yDoc|].
  - rewrite (surjective_pairing (join_finish _ _ _ _ _ _ _)).
    rewrite join_finish_state. by apply (ios_eq (socket_join s b st)).
  - unfold alloc_doc. by apply (ios_eq (socket_join s b st)).
Qed.

Lemma ios_disconnect s st :
  io_rooms_are_sets st → io_rooms_are_sets (disconnect s st).1.
Proof.
  intros H. unfold disconnect, on_disconnect.
  set (st0 := update_socket s (set_connected false) (leave_all s st)).
  assert (io_rooms_are_sets st0) as H0
    by (apply (ios_eq (leave_all s st)); [done|by apply ios_leave_all]).
  clearbody st0.
  destruct (clientConnection (socketState st0 s)) as [c|]; [|done].
  destruct (connHeap st0 !! c) as [conn|]; [|done]. simpl.
  apply (ios_eq st0); [|done]. unfold remove_connection.
  destruct (boardConnections st0 !! conn_boardId conn); [|done].
  by destruct (bool_decide _).
Qed.

Lemma ios_step ev st :
  io_rooms_are_sets st → io_rooms_are_sets (step ev st).1.
Proof.
  intros H. destruct ev; simpl; unfold on_socket;
    try (destruct (is_connected st s); [|done]).
  - apply (ios_eq st); [|done]. unfold connect. by destruct (sockets st !! s).
  - unfold join_board. pose proof (ios_join_begin s data env st H) as Hb.
    destruct (join_begin s data env st) as [st1 out|st1 out j]; [done|].
    pose proof (join_continue_ioRooms j env st1) as Hc.
    destruct (join_continue j env st1) as [st2 out2]. simpl in *.
    by apply (ios_eq st1).
  - unfold join_start. pose proof (ios_join_begin s data env st H) as Hb.
    destruct (join_begin s data env st) as [st1 out|st1 out j]; [done|].
    by apply (ios_eq st1).
  - unfold join_resume. destruct (suspended st !! k) as [j|]; [|done].
    apply (ios_eq st); [|done]. by rewrite join_continue_ioRooms.
  - destruct (docs_only_sync_state s state now st) as (_ & _ & _ & Hio & _).
    by apply (ios_eq st).
  - destruct (docs_only_board_update s update now st) as (_ & _ & _ & Hio & _).
    by apply (ios_eq st).
  - apply (ios_eq st); [|done]. unfold cursor_move.
    destruct (clientConnection (socketState st s)) as [c|]; [|done].
    destruct (connHeap st !! c) as [conn|]; [|done].
    by destruct (cursor_rejected data).
  - apply (ios_eq st); [|done]. unfold awareness_update.
    destruct (clientConnection (socketState st s)) as [c|]; [|done].
    by destruct (connHeap st !! c).
  - by apply ios_disconnect.
  - destruct (docs_only_write_done k fails st) as (_ & _ & _ & Hio & _).
    by apply (ios_eq st).
Qed.

Lemma reachable_io_rooms_are_sets (d0 : Database) st :
  reachable d0 st → io_rooms_are_sets st.
Proof.
  induction 1 as [|st ev Hreach IH]; [|by apply ios_step].
  intros b. unfold ioRoom. simpl. rewrite lookup_empty. apply NoDup_nil_2.
Qed.

(** X1. An update the engine accepts from a joined socket is sent as
    [board-update] once to every socket of the board's room and to nobody
    else; the sender is among the recipients.  The bytes sent are the
    client's numbers reduced modulo 256, so they are the client's numbers
    when those were bytes. *)
Theorem board_update_reaches_whole_room (d0 : Database) st s c conn yDoc o
    numbers d' event now :
  reachable d0 st →
  is_connected st s = true →
  clientConnection (socketState st s) = Some c →
  connHeap st !! c = Some conn →
  boardDocs st !! conn_boardId conn = Some yDoc →
  docHeap st !! yDoc = Some o →
  applyUpdate (doc_state o) (Uint8Array numbers) = Applied d' event →
  (step (BoardUpdate s (Some numbers) now) st).2 =
    (λ t, Send t (MsgBoardUpdate (Uint8Array numbers))) <$> ioRoom st (conn_boardId conn)
  ∧ NoDup (ioRoom st (conn_boardId conn))
  ∧ Send s (MsgBoardUpdate (Uint8Array numbers))
      ∈ (step (BoardUpdate s (Some numbers) now) st).2
  ∧ Forall (λ z, 0 ≤ z < 256) (Uint8Array numbers)
  ∧ (Forall (λ z, 0 ≤ z < 256) numbers → Uint8Array numbers = numbers).
Proof.
  intros Hreach Hcon Hcc Hconn Hdoc Ho Happ.
  destruct (reachable_sockets_in_rooms d0 st Hreach) as [Hsir _].
  destruct (Hsir s c conn Hcc Hconn) as [_ Hroom]. specialize (Hroom Hcon).
  assert ((step (BoardUpdate s (Some numbers) now) st).2 =
          (λ t, Send t (MsgBoardUpdate (Uint8Array numbers)))
            <$> ioRoom st (conn_boardId conn)) as Hout.
  { simpl. unfold on_socket. rewrite Hcon. unfold board_update.
    rewrite Hcc, Hconn, Hdoc. unfold apply_update. rewrite Ho, Happ.
    destruct event as [bytes|], (doc_listener o) as [b|]; done. }
  split_and!.
  - exact Hout.
  - apply (reachable_io_rooms_are_sets d0 st Hreach).
  - rewrite Hout. apply list_elem_of_fmap. eauto.
  - apply Uint8Array_range.
  - apply Uint8Array_of_bytes.
Qed.

End IoRoomsAreSets.


Section MoreInstances.
Import GrowOnlySet PlainRuntime Scenario Situations.

Lemma editing_reachable : reachable database editing.
Proof. apply reachable_run, reachable_initial. Qed.

Lemma second_visitor_allocated : refs_allocated second_visitor.
Proof.
  apply (refs_allocated_quiet one_visitor); [apply quiet_socket_join|].
  apply (reachable_well_formed database), reachable_run, reachable_initial.
Qed.

Lemma switching_allocated : refs_allocated switching.
Proof.
  apply (refs_allocated_quiet (run two_boards (initial database)).1);
    [apply quiet_socket_join|].
  apply (reachable_well_formed database), reachable_run, reachable_initial.
Qed.

Lemma board_update_reaches_whole_room_witness :
  (step (BoardUpdate "s1" (Some [1; 4]) 10) editing).2 =
    (λ t, Send t (MsgBoardUpdate (Uint8Array [1; 4]))) <$> ioRoom editing "b2"
  ∧ NoDup (ioRoom editing "b2").
Proof.
  assert (is_connected editing "s1" = true) as H1 by (vm_compute; reflexivity).
  assert (clientConnection (socketState editing "s1") = Some 1%nat) as H2
    by (vm_compute; reflexivity).
  assert (connHeap editing !! 1%nat = Some owner_connection) as H3
    by (vm_compute; reflexivity).
  assert (boardDocs editing !! conn_boardId owner_connection = Some 0%nat) as H4
    by (vm_compute; reflexivity).
  assert (docHeap editing !! 0%nat = Some board2_document) as H5
    by (vm_compute; reflexivity).
  assert (applyUpdate (doc_state board2_document) (Uint8Array [1; 4])
          = Applied [4; 7; 9] (Some [1; 4])) as H6
    by (vm_compute; reflexivity).
  destruct (board_update_reaches_whole_room database editing "s1" 1%nat
              owner_connection 0%nat board2_document [1; 4] [4; 7; 9]
              (Some [1; 4]) 10 editing_reachable H1 H2 H3 H4 H5 H6)
    as (Hout & Hnd & _).
  split; [exact Hout|exact Hnd].
Defined.

Lemma presence_traffic_stays_in_the_room_witness :
  presence_only editing (step (CursorMove "s1" finite_cursor) editing).1
  ∧ ioRooms (step (CursorMove "s1" finite_cursor) editing).1 = ioRooms editing.
Proof.
  assert (clientConnection (socketState editing "s1") = Some 1%nat) as H2
    by (vm_compute; reflexivity).
  assert (connHeap editing !! 1%nat = Some owner_connection) as H3
    by (vm_compute; reflexivity).
  destruct (presence_traffic_stays_in_the_room editing "s1" 1%nat owner_connection
              (CursorMove "s1" finite_cursor) H2 H3
              (or_introl (ex_intro _ finite_cursor eq_refl)))
    as (Hp & _ & Hio & _).
  split; [exact Hp|exact Hio].
Defined.

Lemma join_without_board_id_witness :
  truthy (jd_boardId no_board) = false
  ∧ step (JoinBoard "s1" no_board calm) connected_only
    = (connected_only, [Send "s1" (MsgError "Board ID required")]).
Proof.
  assert (is_connected connected_only "s1" = true) as H1 by (vm_compute; reflexivity).
  split; [reflexivity|].
  exact (proj1 (join_without_board_id connected_only "s1" no_board calm eq_refl H1)).
Defined.

Lemma joins_never_write_witness :
  db (step (JoinBoard "s1" (as_user "b2" "fb-owner" "Olga") calm) connected_only).1
    = db connected_only
  ∧ pendingWrites
      (step (JoinBoard "s1" (as_user "b2" "fb-owner" "Olga") calm) connected_only).1
    = pendingWrites connected_only.
Proof.
  apply (joins_never_write connected_only
           (JoinBoard "s1" (as_user "b2" "fb-owner" "Olga") calm)).
  left. exists "s1", (as_user "b2" "fb-owner" "Olga"), calm. left. reflexivity.
Defined.

Lemma joined_socket_is_in_its_room_witness :
  conn_socket owner_connection = "s1" ∧ "s1" ∈ ioRoom editing "b2".
Proof.
  assert (is_connected editing "s1" = true) as H1 by (vm_compute; reflexivity).
  assert (clientConnection (socketState editing "s1") = Some 1%nat) as H2
    by (vm_compute; reflexivity).
  assert (connHeap editing !! 1%nat = Some owner_connection) as H3
    by (vm_compute; reflexivity).
  exact (joined_socket_is_in_its_room database editing "s1" 1%nat owner_connection
           editing_reachable H1 H2 H3).
Defined.

Lemma rooms_are_never_empty_witness :
  boardConnections editing !! "b2" = Some [1%nat; 2%nat]
  ∧ [1%nat; 2%nat] ≠ [] ∧ NoDup [1%nat; 2%nat].
Proof.
  assert (boardConnections editing !! "b2" = Some [1%nat; 2%nat]) as H1
    by (vm_compute; reflexivity).
  split; [exact H1|].
  exact (rooms_are_never_empty database editing "b2" [1%nat; 2%nat]
           editing_reachable H1).
Defined.

Lemma only_disconnect_leaves_a_room_witness :
  "s1" ∈ ioRoom editing "b2"
  ∧ "s1" ∈ ioRoom (step (JoinBoard "s1" (anonymous "b1" None) calm) editing).1 "b2".
Proof.
  assert ("s1" ∈ ioRoom editing "b2") as H1.
  { assert (ioRoom editing "b2" = ["s1"; "s2"]) as -> by (vm_compute; reflexivity).
    apply list_elem_of_here. }
  split; [exact H1|].
  apply (only_disconnect_leaves_a_room editing
           (JoinBoard "s1" (anonymous "b1" None) calm) "s1" "b2" H1).
  discriminate.
Defined.

Lemma disconnect_keeps_an_occupied_room_witness :
  boardConnections (disconnect "s1" editing).1 !! "b2" = Some [2%nat]
  ∧ boardDocs (disconnect "s1" editing).1 = boardDocs editing.
Proof.
  assert (clientConnection (socketState editing "s1") = Some 1%nat) as H2
    by (vm_compute; reflexivity).
  assert (connHeap editing !! 1%nat = Some owner_connection) as H3
    by (vm_compute; reflexivity).
  assert (boardConnections editing !! conn_boardId owner_connection
          = Some [1%nat; 2%nat]) as H4
    by (vm_compute; reflexivity).
  assert (2%nat ∈ [1%nat; 2%nat]) as H5 by (apply list_elem_of_further, list_elem_of_here).
  destruct (disconnect_keeps_an_occupied_room editing "s1" 1%nat owner_connection
              [1%nat; 2%nat] 2%nat H2 H3 H4 H5 ltac:(discriminate))
    as (Hroom & _ & _ & Hdocs & _).
  split; [exact Hroom|exact Hdocs].
Defined.

Lemma joiner_is_sent_state_roster_and_role_witness :
  ∃ notices own,
    inbox "s3" (join_finish "s3" "b2" owner_again owner_access 0 3 before_entering).2 =
      notices
      ++ [MsgSyncBoard (encodeStateAsUpdate (doc_state board2_document));
          MsgActiveUsers
            (roster (join_finish "s3" "b2" owner_again owner_access 0 3 before_entering).1
               (survivors before_entering "b2" (dbUserId owner_access)
                  (jd_userEmail owner_again)) ++ [own]);
          MsgUserRole "owner"]
    ∧ re_socketId own = "s3"
    ∧ re_role own = "owner".
Proof.
  assert (docHeap before_entering !! 0%nat = Some board2_document) as H1
    by (vm_compute; reflexivity).
  destruct (joiner_is_sent_state_roster_and_role before_entering "s3" "b2"
              owner_again owner_access 0 3 board2_document _ _
              (proj1 before_entering_well_formed) H1
              (surjective_pairing _))
    as (notices & own & Hin & _ & Hs & _ & _ & Hr).
  exists notices, own. split; [exact Hin|]. split; [exact Hs|exact Hr].
Defined.

Lemma join_of_a_new_identity_evicts_nobody_witness :
  room (join_finish "s2" "b1" (anonymous "b1" None) viewer_access 0 3 second_visitor).1 "b1"
    = room second_visitor "b1" ++ [nextRef second_visitor]
  ∧ room second_visitor "b1" = [1%nat].
Proof.
  destruct (join_of_a_new_identity_evicts_nobody second_visitor "s2" "b1"
              (anonymous "b1" None) viewer_access 0 3 _ _
              second_visitor_allocated
              (or_introl (conj eq_refl eq_refl))
              (surjective_pairing _))
    as (Hroom & _).
  split; [exact Hroom|vm_compute; reflexivity].
Defined.

Lemma reported_cursor_is_shown_to_later_joiners_witness :
  ∃ us e,
    Send "s2" (MsgActiveUsers us)
      ∈ (join_finish "s2" "b1" (anonymous "b1" None) viewer_access 0 3
           (cursor_move "s1" finite_cursor second_visitor).1).2
    ∧ e ∈ us
    ∧ re_socketId e = "s1"
    ∧ re_cursor e = Some finite_cursor.
Proof.
  assert (clientConnection (socketState second_visitor "s1") = Some 1%nat) as H2
    by (vm_compute; reflexivity).
  assert (connHeap second_visitor !! 1%nat = Some visitor_connection) as H3
    by (vm_compute; reflexivity).
  assert (1%nat ∈ room second_visitor "b1") as H4.
  { assert (room second_visitor "b1" = [1%nat]) as -> by (vm_compute; reflexivity).
    apply list_elem_of_here. }
  assert (cursor_rejected finite_cursor = false) as H5 by (vm_compute; reflexivity).
  destruct (reported_cursor_is_shown_to_later_joiners second_visitor "s1" 1%nat
              visitor_connection finite_cursor "s2" "b1" (anonymous "b1" None)
              viewer_access 0 3 second_visitor_allocated H2 H3 H4 H5 eq_refl)
    as (us & e & Hsend & He & Hs & _ & Hc).
  exists us, e. split; [exact Hsend|]. split; [exact He|]. split; [exact Hs|exact Hc].
Defined.

Lemma merged_update_is_saved_to_the_senders_board_witness :
  pendingWrites (step (BoardUpdate "s1" (Some [1; 4]) 10) editing).1 =
    pendingWrites editing ++
      [{| pw_boardId := "b2"; pw_yDocState := [1; 4]; pw_lastModified := 10 |}].
Proof.
  assert (is_connected editing "s1" = true) as H1 by (vm_compute; reflexivity).
  assert (clientConnection (socketState editing "s1") = Some 1%nat) as H2
    by (vm_compute; reflexivity).
  assert (connHeap editing !! 1%nat = Some owner_connection) as H3
    by (vm_compute; reflexivity).
  assert (boardDocs editing !! conn_boardId owner_connection = Some 0%nat) as H4
    by (vm_compute; reflexivity).
  assert (docHeap editing !! 0%nat = Some board2_document) as H5
    by (vm_compute; reflexivity).
  assert (applyUpdate (doc_state board2_document) (Uint8Array [1; 4])
          = Applied [4; 7; 9] (Some [1; 4])) as H6
    by (vm_compute; reflexivity).
  destruct (merged_update_is_saved_to_the_senders_board database editing "s1" 1%nat
              owner_connection 0%nat board2_document [1; 4] [4; 7; 9] [1; 4] 10
              editing_reachable H1 H2 H3 H4 H5 H6)
    as (_ & Hw & _).
  exact Hw.
Defined.

Lemma switching_boards_leaves_the_old_connection_witness :
  room (disconnect "s1"
          (join_finish "s1" "b1" (anonymous "b1" None) viewer_access 2 3 switching).1).1
       "b2"
    = room switching "b2"
  ∧ room switching "b2" = [1%nat]
  ∧ re_role (rosterEntry
               (join_finish "s1" "b1" (anonymous "b1" None) viewer_access 2 3 switching).1
               owner_connection) = "viewer".
Proof.
  assert (clientConnection (socketState switching "s1") = Some 1%nat) as H2
    by (vm_compute; reflexivity).
  assert (connHeap switching !! 1%nat = Some owner_connection) as H3
    by (vm_compute; reflexivity).
  assert (1%nat ∈ room switching (conn_boardId owner_connection)) as H4.
  { assert (room switching (conn_boardId owner_connection) = [1%nat]) as ->
      by (vm_compute; reflexivity).
    apply list_elem_of_here. }
  destruct (switching_boards_leaves_the_old_connection switching "s1" 1%nat
              owner_connection "b1" (anonymous "b1" None) viewer_access 2 3 _ _
              switching_allocated H2 H3 eq_refl H4 ltac:(discriminate)
              (surjective_pairing _))
    as (_ & Hrole & Hroom & _).
  split; [exact Hroom|]. split; [vm_compute; reflexivity|exact Hrole].
Defined.

Lemma join_resumed_after_disconnect_leaves_a_connection_witness :
  is_connected interrupted "s1" = false
  ∧ nextRef interrupted ∈ room (step (JoinResume 0 calm) interrupted).1 "b1"
  ∧ step (Disconnect "s1") (step (JoinResume 0 calm) interrupted).1
    = ((step (JoinResume 0 calm) interrupted).1, []).
Proof.
  assert (reachable database interrupted) as H0
    by (apply reachable_run, reachable_initial).
  assert (suspended interrupted !! 0%nat = Some interrupted_join) as H1
    by (vm_compute; reflexivity).
  assert (is_connected interrupted (sj_socket interrupted_join) = false) as H2
    by (vm_compute; reflexivity).
  destruct (join_resumed_after_disconnect_leaves_a_connection database interrupted
              0%nat interrupted_join calm H0 H1 H2)
    as (Hroom & _ & _ & _ & Hdead).
  split; [exact H2|]. split; [exact Hroom|].
  exact (Hdead (Disconnect "s1") eq_refl).
Defined.

End MoreInstances.
